(** * V2Ray-Desktop: the application proxy (src/appproxy.cpp)

    A shallow embedding of [AppProxy]: the validators of application and
    server configurations, the builders of the stored server objects, the
    decoders of share links, the subscription import, the cache of measured
    latencies, and the theorems that relate them to the specification.

    Conventions.
    - A [QString] is a [string] of 8-bit characters; white space, digits and
      case are those of ASCII.
    - A [QJsonObject] is a finite map from keys to [QJsonValue]s.
    - [tr] returns its argument: messages are kept in their source form,
      the translation catalogues being resources outside the sources.
    - A [void] slot is a function on the state of the object; the signals
      it emits, the log lines it writes and the calls it makes to the
      engine and to the system are appended to the [events] of the state.
    - JSON documents carried by signals are kept as values, not as text. *)

From stdpp Require Import gmap strings list pretty.
From Stdlib Require Import ZArith Ascii String.

Set Warnings "-register-all".
Open Scope Z_scope.

(** ** Qt strings *)

Module QString.

Definition isEmpty (s : string) : bool :=
  match s with EmptyString => true | String _ _ => false end.

Definition size (s : string) : Z := Z.of_nat (String.length s).

Fixpoint take (n : nat) (s : string) : string :=
  match n, s with
  | S n', String a s' => String a (take n' s')
  | _, _ => EmptyString
  end.

Fixpoint drop (n : nat) (s : string) : string :=
  match n, s with
  | S n', String _ s' => drop n' s'
  | _, _ => s
  end.

(** [QString::left(n)]: the whole string when [n] is negative or not less
    than the size. *)
Definition left (n : Z) (s : string) : string :=
  if (n <? 0) || (size s <=? n) then s else take (Z.to_nat n) s.

(** [QString::mid(position, n)], with the clipping of
    [QContainerImplHelper::mid]; [n = -1] is the default argument. *)
Definition mid (position n : Z) (s : string) : string :=
  let len := size s in
  if len <? position then EmptyString
  else if position <? 0 then
    if (n <? 0) || (len <=? n + position) then s
    else if n + position <=? 0 then EmptyString
    else take (Z.to_nat (n + position)) s
  else
    let n' := if (n <? 0) || (len - position <? n) then len - position else n in
    take (Z.to_nat n') (drop (Z.to_nat position) s).

Fixpoint indexOf_from (i : Z) (c : ascii) (s : string) : Z :=
  match s with
  | EmptyString => -1
  | String a s' => if Ascii.eqb a c then i else indexOf_from (i + 1) c s'
  end.

(** [QString::indexOf(ch)]: the first position of [ch], or -1. *)
Definition indexOf (c : ascii) (s : string) : Z := indexOf_from 0 c s.

Fixpoint startsWith (p s : string) : bool :=
  match p, s with
  | EmptyString, _ => true
  | String a p', String b s' => Ascii.eqb a b && startsWith p' s'
  | String _ _, EmptyString => false
  end.

(** [QString::split(sep)], empty parts kept: the empty string splits into
    one empty part. *)
Fixpoint split (sep : ascii) (s : string) : list string :=
  match s with
  | EmptyString => [EmptyString]
  | String a s' =>
      if Ascii.eqb a sep then EmptyString :: split sep s'
      else match split sep s' with
           | p :: ps => String a p :: ps
           | [] => [String a EmptyString]
           end
  end.

(** [QStringList::join(sep)]. *)
Fixpoint join (sep : string) (l : list string) : string :=
  match l with
  | [] => EmptyString
  | [x] => x
  | x :: l' => x +:+ sep +:+ join sep l'
  end.

Definition isSpace (a : ascii) : bool :=
  let n := nat_of_ascii a in
  ((9 <=? n)%nat && (n <=? 13)%nat) || (n =? 32)%nat.

Fixpoint skipSpaces (s : string) : string :=
  match s with
  | String a s' => if isSpace a then skipSpaces s' else s
  | EmptyString => EmptyString
  end.

(** [QString::trimmed()]. *)
Definition trimmed (s : string) : string :=
  String.rev (skipSpaces (String.rev (skipSpaces s))).

Definition lowerChar (a : ascii) : ascii :=
  let n := nat_of_ascii a in
  if (65 <=? n)%nat && (n <=? 90)%nat then ascii_of_nat (n + 32) else a.

(** [QString::toLower()]. *)
Fixpoint toLower (s : string) : string :=
  match s with
  | EmptyString => EmptyString
  | String a s' => String (lowerChar a) (toLower s')
  end.

Definition digitValue (a : ascii) : option Z :=
  let n := nat_of_ascii a in
  if (48 <=? n)%nat && (n <=? 57)%nat then Some (Z.of_nat n - 48) else None.

Fixpoint digitsValue (acc : Z) (s : string) : option Z :=
  match s with
  | EmptyString => Some acc
  | String a s' =>
      match digitValue a with
      | Some d => digitsValue (10 * acc + d) s'
      | None => None
      end
  end.

Definition INT_MIN : Z := - 2 ^ 31.
Definition INT_MAX : Z := 2 ^ 31 - 1.

Definition inIntRange (v : Z) : bool := (INT_MIN <=? v) && (v <=? INT_MAX).

(** The digits of a decimal numeral after its sign: at least one. *)
Definition unsignedValue (s : string) : option Z :=
  if isEmpty s then None else digitsValue 0 s.

(** [QString::toInt(&ok)] in base 10: [Some v] when [ok] is set, [None]
    when it is cleared (the call then returns 0).  White space around the
    numeral is skipped, one sign is allowed, and a value that does not fit
    an [int] is refused. *)
Definition toInt (s : string) : option Z :=
  let t := trimmed s in
  let r :=
    match t with
    | String "-"%char u => Z.opp <$> unsignedValue u
    | String "+"%char u => unsignedValue u
    | _ => unsignedValue t
    end in
  match r with
  | Some v => if inIntRange v then Some v else None
  | None => None
  end.

(** The value of [QString::toInt()] when the flag is not looked at. *)
Definition toIntValue (s : string) : Z := default 0 (toInt s).

(** [QString::number(n)]. *)
Definition number (n : Z) : string := pretty n.

End QString.

(** ** Regular expressions

    The patterns of the validators use character classes, concatenation,
    alternatives and bounded repetition only; they are matched by
    derivatives.  Both patterns are anchored by [^] and [$]. *)

Module QRegularExpression.

Inductive regex : Type :=
| RNone
| REps
| RCls (ranges : list (ascii * ascii))
| RSeq (r1 r2 : regex)
| RAlt (r1 r2 : regex)
| RStar (r : regex).

Definition inRange (a : ascii) (rg : ascii * ascii) : bool :=
  let n := nat_of_ascii a in
  (nat_of_ascii rg.1 <=? n)%nat && (n <=? nat_of_ascii rg.2)%nat.

Definition inClass (a : ascii) (ranges : list (ascii * ascii)) : bool :=
  existsb (inRange a) ranges.

Fixpoint nullable (r : regex) : bool :=
  match r with
  | RNone => false
  | REps => true
  | RCls _ => false
  | RSeq r1 r2 => nullable r1 && nullable r2
  | RAlt r1 r2 => nullable r1 || nullable r2
  | RStar _ => true
  end.

Definition seq (r1 r2 : regex) : regex :=
  match r1, r2 with
  | RNone, _ => RNone
  | _, RNone => RNone
  | REps, _ => r2
  | _, REps => r1
  | _, _ => RSeq r1 r2
  end.

Definition alt (r1 r2 : regex) : regex :=
  match r1, r2 with
  | RNone, _ => r2
  | _, RNone => r1
  | _, _ => RAlt r1 r2
  end.

Fixpoint deriv (a : ascii) (r : regex) : regex :=
  match r with
  | RNone => RNone
  | REps => RNone
  | RCls ranges => if inClass a ranges then REps else RNone
  | RSeq r1 r2 =>
      if nullable r1 then alt (seq (deriv a r1) r2) (deriv a r2)
      else seq (deriv a r1) r2
  | RAlt r1 r2 => alt (deriv a r1) (deriv a r2)
  | RStar r1 => seq (deriv a r1) (RStar r1)
  end.

Fixpoint matches (r : regex) (s : string) : bool :=
  match s with
  | EmptyString => nullable r
  | String a s' => matches (deriv a r) s'
  end.

Definition chr (a : ascii) : regex := RCls [(a, a)].
Definition opt (r : regex) : regex := RAlt REps r.
Definition plus (r : regex) : regex := RSeq r (RStar r).

(** [r{n}] *)
Fixpoint rep (n : nat) (r : regex) : regex :=
  match n with
  | O => REps
  | S n' => RSeq r (rep n' r)
  end.

(** [r{0,n}] *)
Fixpoint upto (n : nat) (r : regex) : regex :=
  match n with
  | O => REps
  | S n' => opt (RSeq r (upto n' r))
  end.

Fixpoint seqs (l : list regex) : regex :=
  match l with
  | [] => REps
  | [r] => r
  | r :: l' => RSeq r (seqs l')
  end.

Fixpoint alts (l : list regex) : regex :=
  match l with
  | [] => RNone
  | [r] => r
  | r :: l' => RAlt r (alts l')
  end.

Definition newline : ascii := ascii_of_nat 10.

(** The subject without its last character, when that is a newline. *)
Definition chopNewline (s : string) : option string :=
  match String.rev s with
  | String a t => if Ascii.eqb a newline then Some (String.rev t) else None
  | EmptyString => None
  end.

(** [QRegularExpression(^r$).match(subject).hasMatch()]: [$] stands at the
    end of the subject, or before a newline that ends it. *)
Definition hasMatch (r : regex) (subject : string) : bool :=
  matches r subject ||
  match chopNewline subject with
  | Some s' => matches r s'
  | None => false
  end.

End QRegularExpression.

(** ** JSON values and variants *)

Inductive QJsonValue : Type :=
| JNull
| JBool (b : bool)
| JDouble (d : Z)
| JString (s : string)
| JArray (a : list QJsonValue)
| JObject (o : gmap string QJsonValue)
| JUndefined.

(** Numbers are the integral ones: the values this program builds are
    [int]s, and what it reads of a number is [toInt()]. *)

Abbreviation QJsonObject := (gmap string QJsonValue).
Abbreviation QJsonArray := (list QJsonValue).

Module QJson.

(** [object[key]] on a constant object: [Undefined] for a missing key. *)
Definition value (o : QJsonObject) (key : string) : QJsonValue :=
  default JUndefined (o !! key).

Definition contains (o : QJsonObject) (key : string) : bool :=
  bool_decide (is_Some (o !! key)).

Definition toString (v : QJsonValue) : string :=
  match v with JString s => s | _ => EmptyString end.

Definition toBool (v : QJsonValue) : bool :=
  match v with JBool b => b | _ => false end.

Definition toInt (v : QJsonValue) : Z :=
  match v with
  | JDouble d => if QString.inIntRange d then d else 0
  | _ => 0
  end.

Definition toObject (v : QJsonValue) : QJsonObject :=
  match v with JObject o => o | _ => ∅ end.

Definition strings (l : list string) : QJsonArray := JString <$> l.

End QJson.

Inductive QVariant : Type :=
| VInvalid
| VBool (b : bool)
| VInt (i : Z)
| VString (s : string).

(** [QVariant::toInt()]. *)
Definition QVariant_toInt (v : QVariant) : Z :=
  match v with
  | VInvalid => 0
  | VBool b => if b then 1 else 0
  | VInt i => i
  | VString s => QString.toIntValue s
  end.

(** ** The platform

    Codecs of Qt (JSON documents, Base64, percent-encoding, URL queries),
    the file system and the random generator of the C library are an
    interface: the theorems hold for every implementation of it. *)

Class Platform : Type := {
  (** [QJsonDocument::fromJson(text.toUtf8()).object()]: the empty object
      when the text is not a JSON object. *)
  fromJson : string → QJsonObject;
  (** [QByteArray::fromBase64(text.toUtf8())] *)
  fromBase64 : string → string;
  (** [QUrl::fromPercentEncoding(text.toUtf8())] *)
  fromPercentEncoding : string → string;
  (** [QUrlQuery(text).queryItems()] *)
  queryItems : string → list (string * string);
  (** [QDir(path).exists()] *)
  dirExists : string → bool;
  (** The hidden state of [std::rand()], and one call of it. *)
  RandState : Type;
  std_rand : RandState → Z * RandState;
}.

(** ** The configurator

    [Configurator] keeps the application configuration and the list of
    servers; [AppProxy] uses it through these operations.  [Store] is
    what the configurator holds. *)

Class Configurator (Store : Type) : Type := {
  cfg_getAppConfig : Store → QJsonObject;
  cfg_setAppConfig : QJsonObject → Store → Store;
  cfg_getServers : Store → QJsonArray;
  cfg_getConnectedServerNames : Store → list string;
  cfg_addServer : QJsonObject → Store → Store;
  (** the flag tells whether a server of that name was edited *)
  cfg_editServer : string → QJsonObject → Store → bool * Store;
  (** the servers removed, by name *)
  cfg_removeSubscriptionServers :
    string → Store → gmap string QJsonObject * Store;
}.

(** ** Signals and other effects *)

Inductive Signal : Type :=
| appConfigError (errors : string)
| appConfigChanged
| serverConfigError (errors : string)
| serversChanged
| serverChanged (serverName : string) (serverConfig : QJsonObject)
| serversReady (servers : QJsonArray)
| serverLatencyReady (latency : gmap string QVariant).

Inductive Event : Type :=
| Emit (signal : Signal)
| SetAutoStart (autoStart : bool)
| Retranslate (language : string)
| V2RayRestart
| QInfo (message : string)
| QWarning (message : string)
| QWarningObject (message : string) (object : QJsonObject).

(** ** Validation *)

Section Validation.
Context `{Platform}.

Definition tr (sourceText : string) : string := sourceText.

(** [QString(tr("Missing the value of '%1'.")).arg(name)] *)
Definition msgMissing (name : string) : string :=
  tr "Missing the value of '" +:+ name +:+ "'.".

(** [QString(tr("The value of '%1' seems invalid.")).arg(name)] *)
Definition msgInvalid (name : string) : string :=
  tr "The value of '" +:+ name +:+ "' seems invalid.".

(** [QString(tr("The value of '%1' should above %2.")).arg(name, lower)] *)
Definition msgAbove (name : string) (lowerBound : Z) : string :=
  tr "The value of '" +:+ name +:+ "' should above "
     +:+ QString.number lowerBound +:+ ".".

(** [QString(tr("The value of '%1' should between %2 and %3."))
      .arg(name, lower, upper)] *)
Definition msgBetween (name : string) (lowerBound upperBound : Z) : string :=
  tr "The value of '" +:+ name +:+ "' should between "
     +:+ QString.number lowerBound +:+ " and "
     +:+ QString.number upperBound +:+ ".".

Definition msgSamePort : string :=
  tr "'PAC Server Port' can not be the same as 'Listening Port'.".

Definition msgMissingDns : string := tr "Missing the value of 'DNS Servers'.".
Definition msgInvalidDns : string := tr "'DNS Servers' seems invalid.".

(** [QStringList::removeAll(x)] *)
Definition removeAll (x : string) (l : list string) : list string :=
  filter (λ y, y ≠ x) l.

Import QRegularExpression.

Definition digit : regex := RCls [("0", "9")]%char.

(** [([0-9]|[1-9][0-9]|1[0-9]{2}|2[0-4][0-9]|25[0-5])] *)
Definition octet : regex :=
  alts [ digit;
         seqs [RCls [("1", "9")]%char; digit];
         seqs [chr "1"; rep 2 digit];
         seqs [chr "2"; RCls [("0", "4")]%char; digit];
         seqs [chr "2"; chr "5"; RCls [("0", "5")]%char] ].

(** [^((octet)\.){3}(octet)$] *)
Definition ipAddrRegex : regex :=
  seqs [rep 3 (seqs [octet; chr "."]); octet].

Definition isIpAddrValid (ipAddr : string) : bool :=
  hasMatch ipAddrRegex ipAddr.

(** [[a-z0-9]] and [[a-z0-9-]] *)
Definition alnum : regex := RCls [("a", "z"); ("0", "9")]%char.
Definition alnumDash : regex := RCls [("a", "z"); ("0", "9"); ("-", "-")]%char.

(** [^(?:[a-z0-9](?:[a-z0-9-]{0,61}[a-z0-9])?\.)+[a-z0-9][a-z0-9-]{0,61}[a-z0-9]$] *)
Definition domainNameRegex : regex :=
  seqs [ plus (seqs [alnum; opt (seqs [upto 61 alnumDash; alnum]); chr "."]);
         alnum; upto 61 alnumDash; alnum ].

Definition isDomainNameValid (domainName : string) : bool :=
  hasMatch domainNameRegex domainName.

Definition isFileExists (filePath : string) : bool := dirExists filePath.

Definition getStringConfigError (serverConfig : QJsonObject) (key name : string)
    (checkpoints : list (string → bool)) : string :=
  if negb (QJson.contains serverConfig key)
     || QString.isEmpty (QJson.toString (QJson.value serverConfig key))
  then msgMissing name
  else if (0 <? List.length checkpoints)%nat then
    let isMatched :=
      fold_left
        (λ isMatched ckpt,
           if ckpt (QJson.toString (QJson.value serverConfig key)) : bool
           then true else isMatched)
        checkpoints false in
    if negb isMatched then msgInvalid name else EmptyString
  else EmptyString.

Definition getNumericConfigError (serverConfig : QJsonObject) (key name : string)
    (lowerBound upperBound : Z) : string :=
  if negb (QJson.contains serverConfig key)
     || QString.isEmpty (QJson.toString (QJson.value serverConfig key))
  then msgMissing name
  else
    match QString.toInt (QJson.toString (QJson.value serverConfig key)) with
    | None => msgInvalid name
    | Some value =>
        if (upperBound =? -127) && (value <? lowerBound) then
          msgAbove name lowerBound
        else if (value <? lowerBound) || (upperBound <? value) then
          msgBetween name lowerBound upperBound
        else EmptyString
    end.

(** The loop over the DNS servers: it stops at the first invalid one. *)
Fixpoint dnsErrors (dnsServers : list string) : list string :=
  match dnsServers with
  | [] => []
  | dnsServer :: rest =>
      if negb (isIpAddrValid (QString.trimmed dnsServer))
      then [msgInvalidDns]
      else dnsErrors rest
  end.

Definition getAppConfigErrors (appConfig : QJsonObject) : list string :=
  let errors := [getStringConfigError appConfig "language" (tr "Language") []] in
  let errors := errors ++
    [getStringConfigError appConfig "serverProtocol"
       (tr "Local Server Protocol") []] in
  let errors := errors ++
    [getStringConfigError appConfig "serverIp" (tr "Listening IP Address")
       [isIpAddrValid]] in
  let errors := errors ++
    [getNumericConfigError appConfig "serverPort" (tr "Listening Port")
       1 65535] in
  let errors := errors ++
    [getNumericConfigError appConfig "pacPort" (tr "PAC Server Port")
       1 65535] in
  let errors :=
    if String.eqb (QJson.toString (QJson.value appConfig "pacPort"))
                  (QJson.toString (QJson.value appConfig "serverPort"))
    then errors ++ [msgSamePort] else errors in
  let errors :=
    if negb (QJson.contains appConfig "dns")
       || QString.isEmpty (QJson.toString (QJson.value appConfig "dns"))
    then errors ++ [msgMissingDns]
    else errors ++
         dnsErrors (QString.split "," (QJson.toString (QJson.value appConfig "dns"))) in
  removeAll EmptyString errors.

Definition getV2RayStreamSettingsErrors (serverConfig : QJsonObject)
    (network : string) : list string :=
  if String.eqb network "kcp" then
    [ getNumericConfigError serverConfig "kcpMtu" (tr "MTU") 576 1460;
      getNumericConfigError serverConfig "kcpTti" (tr "TTI") 10 100;
      getNumericConfigError serverConfig "kcpUpLink" (tr "Uplink Capacity")
        0 (-127);
      getNumericConfigError serverConfig "kcpDownLink" (tr "Downlink Capacity")
        0 (-127);
      getNumericConfigError serverConfig "kcpReadBuffer" (tr "Read Buffer Size")
        0 (-127);
      getNumericConfigError serverConfig "kcpWriteBuffer"
        (tr "Write Buffer Size") 0 (-127);
      getStringConfigError serverConfig "packetHeader" (tr "Packet Header") [] ]
  else if String.eqb network "ws" || String.eqb network "http" then
    [ getStringConfigError serverConfig "networkHost" (tr "Host")
        [isDomainNameValid];
      getStringConfigError serverConfig "networkPath" (tr "Path") [] ]
  else if String.eqb network "domainsocket" then
    [ getStringConfigError serverConfig "domainSocketFilePath"
        (tr "Socket File Path") [isFileExists] ]
  else if String.eqb network "quic" then
    [ getStringConfigError serverConfig "quicSecurity" (tr "QUIC Security") [];
      getStringConfigError serverConfig "packetHeader" (tr "Packet Header") [];
      getStringConfigError serverConfig "quicKey" (tr "QUIC Key") [] ]
  else [].

Definition getV2RayServerConfigErrors (serverConfig : QJsonObject)
    : list string :=
  let errors :=
    [ getStringConfigError serverConfig "serverName" (tr "Server Name") [];
      getStringConfigError serverConfig "serverAddr" (tr "Server Address")
        [isIpAddrValid; isDomainNameValid];
      getNumericConfigError serverConfig "serverPort" (tr "Server Port")
        0 65535;
      getStringConfigError serverConfig "id" (tr "ID") [];
      getNumericConfigError serverConfig "alterId" (tr "Alter ID") 0 65535;
      getStringConfigError serverConfig "security" (tr "Security") [];
      getNumericConfigError serverConfig "mux" (tr "MUX") (-1) 1024;
      getStringConfigError serverConfig "network" (tr "Network") [];
      getStringConfigError serverConfig "networkSecurity"
        (tr "Network Security") [] ]
    ++ getV2RayStreamSettingsErrors serverConfig
         (QJson.toString (QJson.value serverConfig "network")) in
  removeAll EmptyString errors.

Definition getShadowsocksServerConfigErrors (serverConfig : QJsonObject)
    : list string :=
  let errors :=
    [ getStringConfigError serverConfig "serverName" (tr "Server Name") [];
      getStringConfigError serverConfig "serverAddr" (tr "Server Address")
        [isIpAddrValid; isDomainNameValid];
      getNumericConfigError serverConfig "serverPort" (tr "Server Port")
        0 65535;
      getStringConfigError serverConfig "encryption" (tr "Security") [];
      getStringConfigError serverConfig "password" (tr "Password") [] ] in
  removeAll EmptyString errors.

Definition getServerConfigErrors (serverConfig : QJsonObject)
    (protocol : string) : list string :=
  if String.eqb protocol "vmess" then getV2RayServerConfigErrors serverConfig
  else if String.eqb protocol "shadowsocks" then
    getShadowsocksServerConfigErrors serverConfig
  else ["Unknown Protocol: " +:+ protocol].

End Validation.

(** ** JSON objects under construction *)

Module QJsonObjectOps.

(** [QJsonObject::insert(key, value)]: inserting [Undefined] removes the
    key. *)
Definition insert (key : string) (v : QJsonValue) (o : QJsonObject)
    : QJsonObject :=
  match v with
  | JUndefined => delete key o
  | _ => <[key := v]> o
  end.

(** [object[key]] read on a variable object: a missing key is created
    with the value [Null], which reads as [false], 0 and the empty string,
    like [Undefined]. *)
Definition touch (key : string) (o : QJsonObject) : QJsonObject :=
  match o !! key with
  | Some _ => o
  | None => <[key := JNull]> o
  end.

(** [QJsonObject{{k1, v1}, ..., {kn, vn}}]: the pairs are inserted in
    order. *)
Definition object (pairs : list (string * QJsonValue)) : QJsonObject :=
  fold_left (λ o kv, insert kv.1 kv.2 o) pairs ∅.

End QJsonObjectOps.

(** ** Building the stored server objects *)

Section AppProxy.
Context `{Platform}.

Import QJsonObjectOps.

(** Computations that call [std::rand()]. *)
Definition Rand (A : Type) : Type := RandState → A * RandState.

#[local] Instance Rand_ret : MRet Rand := λ A x r, (x, r).
#[local] Instance Rand_bind : MBind Rand :=
  λ A B f m r, let '(x, r') := m r in f x r'.

Definition OPERATING_SYSTEMS : list string :=
  [ "Macintosh; Intel Mac OS X 10_15";
    "X11; Linux x86_64";
    "Windows NT 10.0; Win64; x64" ].

(** [QString("Mozilla/5.0 (%1) AppleWebKit/537.36 (KHTML, like Gecko)
      Chrome/%2.0.%3.%4 Safari/537.36").arg(os, major, build, patch)] *)
Definition userAgent (os major build patch : string) : string :=
  "Mozilla/5.0 (" +:+ os +:+ ") AppleWebKit/537.36 (KHTML, like Gecko) Chrome/"
    +:+ major +:+ ".0." +:+ build +:+ "." +:+ patch +:+ " Safari/537.36".

(** The body of the loop of [getRandomUserAgents], run [k] times. *)
Fixpoint randomUserAgentsLoop (k : nat) (userAgents : QJsonArray)
    : Rand QJsonArray :=
  match k with
  | O => mret userAgents
  | S k' =>
      r1 ← std_rand;
      let osIndex := Z.rem r1 3 in
      r2 ← std_rand;
      let chromeMajorVersion := Z.rem r2 30 + 50 in
      r3 ← std_rand;
      let chromeBuildVersion := Z.rem r3 4000 + 1000 in
      r4 ← std_rand;
      let chromePatchVersion := Z.rem r4 100 in
      randomUserAgentsLoop k'
        (userAgents ++
         [JString
            (userAgent
               (default EmptyString (OPERATING_SYSTEMS !! Z.to_nat osIndex))
               (QString.number chromeMajorVersion)
               (QString.number chromeBuildVersion)
               (QString.number chromePatchVersion))])
  end.

Definition getRandomUserAgents (n : Z) : Rand QJsonArray :=
  randomUserAgentsLoop (Z.to_nat n) [].

Definition camouflageHosts : list string :=
  [ "www.baidu.com"; "www.bing.com"; "www.163.com"; "www.netease.com";
    "www.qq.com"; "www.tencent.com"; "www.taobao.com"; "www.tmall.com";
    "www.alibaba-inc.com"; "www.aliyun.com"; "www.sensetime.com";
    "www.megvii.com" ].

Definition tcpHttpRequest (userAgents : QJsonArray) : QJsonObject :=
  object
    [ ("version", JString "1.1");
      ("method", JString "GET");
      ("path", JArray [JString "/"]);
      ("headers",
       JObject (object
         [ ("host", JArray (QJson.strings camouflageHosts));
           ("User-Agent", JArray userAgents);
           ("Accept-Encoding", JArray [JString "gzip, deflate"]);
           ("Connection", JArray [JString "keep-alive"]);
           ("Pragma", JString "no-cache") ])) ].

Definition tcpHttpResponse : QJsonObject :=
  object
    [ ("version", JString "1.1");
      ("status", JString "200");
      ("reason", JString "OK");
      ("headers",
       JObject (object
         [ ("Content-Type", JArray [JString "text/html;charset=utf-8"]);
           ("Transfer-Encoding", JArray [JString "chunked"]);
           ("Connection", JArray [JString "keep-alive"]);
           ("Pragma", JString "no-cache") ])) ].

Definition getV2RayStreamSettingsConfig (serverConfig : QJsonObject)
    : Rand QJsonObject :=
  let network := QJson.toString (QJson.value serverConfig "network") in
  let streamSettings :=
    object
      [ ("network", QJson.value serverConfig "network");
        ("security",
         JString (QString.toLower
           (QJson.toString (QJson.value serverConfig "networkSecurity"))));
        ("tlsSettings",
         JObject (object
           [ ("allowInsecure",
              JBool (QJson.toBool (QJson.value serverConfig "allowInsecure"))) ])) ] in
  if String.eqb network "tcp" then
    let tcpHeaderType :=
      QString.toLower (QJson.toString (QJson.value serverConfig "tcpHeaderType")) in
    let tcpSettings := object [("type", JString tcpHeaderType)] in
    if String.eqb tcpHeaderType "http" then
      userAgents ← getRandomUserAgents 24;
      let tcpSettings :=
        insert "request" (JObject (tcpHttpRequest userAgents)) tcpSettings in
      let tcpSettings :=
        insert "response" (JObject tcpHttpResponse) tcpSettings in
      mret (insert "tcpSettings" (JObject tcpSettings) streamSettings)
    else
      mret (insert "tcpSettings" (JObject tcpSettings) streamSettings)
  else if String.eqb network "kcp" then
    mret (insert "kcpSettings"
      (JObject (object
        [ ("mtu", JDouble (QString.toIntValue
             (QJson.toString (QJson.value serverConfig "kcpMtu"))));
          ("tti", JDouble (QString.toIntValue
             (QJson.toString (QJson.value serverConfig "kcpTti"))));
          ("uplinkCapacity", JDouble (QString.toIntValue
             (QJson.toString (QJson.value serverConfig "kcpUpLink"))));
          ("downlinkCapacity", JDouble (QString.toIntValue
             (QJson.toString (QJson.value serverConfig "kcpDownLink"))));
          ("congestion",
           JBool (QJson.toBool (QJson.value serverConfig "kcpCongestion")));
          ("readBufferSize", JDouble (QString.toIntValue
             (QJson.toString (QJson.value serverConfig "kcpReadBuffer"))));
          ("writeBufferSize", JDouble (QString.toIntValue
             (QJson.toString (QJson.value serverConfig "kcpWriteBuffer"))));
          ("header",
           JObject (object
             [ ("type", JString (QString.toLower
                  (QJson.toString (QJson.value serverConfig "packetHeader")))) ])) ]))
      streamSettings)
  else if String.eqb network "ws" then
    mret (insert "wsSettings"
      (JObject (object
        [ ("path", JString (QJson.toString (QJson.value serverConfig "networkPath")));
          ("headers",
           JObject (object [("host", QJson.value serverConfig "networkHost")])) ]))
      streamSettings)
  else if String.eqb network "http" then
    mret (insert "httpSettings"
      (JObject (object
        [ ("host",
           JArray [JString (QJson.toString (QJson.value serverConfig "networkHost"))]);
          ("path",
           JArray [JString (QJson.toString (QJson.value serverConfig "networkPath"))]) ]))
      streamSettings)
  else if String.eqb network "domainsocket" then
    mret (insert "dsSettings"
      (JObject (object
        [ ("path",
           JString (QJson.toString (QJson.value serverConfig "domainSocketFilePath"))) ]))
      streamSettings)
  else if String.eqb network "quic" then
    mret (insert "quicSettings"
      (JObject (object
        [ ("security", JString (QString.toLower
             (QJson.toString (QJson.value serverConfig "quicSecurity"))));
          ("key", JString (QJson.toString (QJson.value serverConfig "quicKey")));
          ("header",
           JObject (object
             [ ("type", JString (QString.toLower
                  (QJson.toString (QJson.value serverConfig "packetHeader")))) ])) ]))
      streamSettings)
  else mret streamSettings.

Definition getPrettyV2RayConfig (serverConfig : QJsonObject)
    : Rand QJsonObject :=
  let v2RayConfig :=
    object
      [ ("autoConnect",
         JBool (QJson.toBool (QJson.value serverConfig "autoConnect")));
        ("serverName",
         JString (QJson.toString (QJson.value serverConfig "serverName")));
        ("subscription",
         JString (if QJson.contains serverConfig "subscription"
                  then QJson.toString (QJson.value serverConfig "subscription")
                  else EmptyString));
        ("protocol", JString "vmess");
        ("mux",
         JObject (object
           [ ("enabled",
              JBool (negb (QString.toIntValue
                (QJson.toString (QJson.value serverConfig "mux")) =? 1)));
             ("concurrency",
              JDouble (QString.toIntValue
                (QJson.toString (QJson.value serverConfig "mux")))) ]));
        ("settings",
         JObject (object
           [ ("vnext",
              JArray [JObject (object
                [ ("address",
                   JString (QJson.toString (QJson.value serverConfig "serverAddr")));
                  ("port", JDouble (QString.toIntValue
                     (QJson.toString (QJson.value serverConfig "serverPort"))));
                  ("users",
                   JArray [JObject (object
                     [ ("id",
                        JString (QJson.toString (QJson.value serverConfig "id")));
                       ("alterId", JDouble (QString.toIntValue
                          (QJson.toString (QJson.value serverConfig "alterId"))));
                       ("security", JString (QString.toLower
                          (QJson.toString (QJson.value serverConfig "security")))) ])]) ])]) ]));
        ("tag", JString "proxy-vmess") ] in
  streamSettings ← getV2RayStreamSettingsConfig serverConfig;
  mret (insert "streamSettings" (JObject streamSettings) v2RayConfig).

Definition getPrettyShadowsocksConfig (serverConfig : QJsonObject)
    : QJsonObject :=
  object
    [ ("autoConnect",
       JBool (QJson.toBool (QJson.value serverConfig "autoConnect")));
      ("serverName",
       JString (QJson.toString (QJson.value serverConfig "serverName")));
      ("subscription",
       JString (if QJson.contains serverConfig "subscription"
                then QJson.toString (QJson.value serverConfig "subscription")
                else EmptyString));
      ("protocol", JString "shadowsocks");
      ("settings",
       JObject (object
         [ ("servers",
            JArray [JObject (object
              [ ("address",
                 JString (QJson.toString (QJson.value serverConfig "serverAddr")));
                ("port", JDouble (QString.toIntValue
                   (QJson.toString (QJson.value serverConfig "serverPort"))));
                ("method", JString (QString.toLower
                   (QJson.toString (QJson.value serverConfig "encryption"))));
                ("password",
                 JString (QJson.toString (QJson.value serverConfig "password"))) ])]) ]));
      ("streamSettings", JObject (object [("network", JString "tcp")]));
      ("tag", JString "proxy-shadowsocks") ].

Definition getPrettyServerConfig (serverConfig : QJsonObject)
    (protocol : string) : Rand QJsonObject :=
  if String.eqb protocol "vmess" then getPrettyV2RayConfig serverConfig
  else if String.eqb protocol "shadowsocks" then
    mret (getPrettyShadowsocksConfig serverConfig)
  else mret ∅.

(** ** Decoding share links *)

Definition NETWORK_MAPPER : gmap string string :=
  list_to_map
    [ ("tcp", "tcp"); ("kcp", "kcp"); ("ws", "ws"); ("h2", "http");
      ("quic", "quic") ].

Definition getV2RayServerFromUrl (server subscriptionUrl : string)
    : QJsonObject :=
  let rawServerConfig := fromJson (fromBase64 (QString.mid 8 (-1) server)) in
  let network :=
    if QJson.contains rawServerConfig "net"
    then QJson.toString (QJson.value rawServerConfig "net") else "tcp" in
  let serverAddr :=
    if QJson.contains rawServerConfig "add"
    then QJson.toString (QJson.value rawServerConfig "add") else EmptyString in
  object
    [ ("autoConnect", JBool false);
      ("serverName",
       JString (if QJson.contains rawServerConfig "ps"
                then QJson.toString (QJson.value rawServerConfig "ps")
                else serverAddr));
      ("serverAddr", JString serverAddr);
      ("serverPort",
       JDouble (if QJson.contains rawServerConfig "port"
                then QJson.toInt (QJson.value rawServerConfig "port") else 0));
      ("subscription", JString subscriptionUrl);
      ("id",
       JString (if QJson.contains rawServerConfig "id"
                then QJson.toString (QJson.value rawServerConfig "id")
                else EmptyString));
      ("alterId",
       JDouble (if QJson.contains rawServerConfig "aid"
                then QString.toIntValue
                       (QJson.toString (QJson.value rawServerConfig "aid"))
                else 0));
      ("mux", JDouble (-1));
      ("security", JString "auto");
      ("network",
       JString (match NETWORK_MAPPER !! network with
                | Some mapped => mapped
                | None => "tcp"
                end));
      ("networkHost",
       JString (if QJson.contains rawServerConfig "host"
                then QJson.toString (QJson.value rawServerConfig "host")
                else EmptyString));
      ("networkPath",
       JString (if QJson.contains rawServerConfig "path"
                then QJson.toString (QJson.value rawServerConfig "path")
                else EmptyString));
      ("tcpHeaderType",
       JString (if QJson.contains rawServerConfig "type"
                then QJson.toString (QJson.value rawServerConfig "type")
                else EmptyString));
      ("networkSecurity",
       JString (if QJson.contains rawServerConfig "tls" then "tls" else "none")) ].

(** The options of the [plugin] items of a query: [key=value] parts
    separated by semicolons; a part that does not split in two at [=] is
    dropped. *)
Definition pluginOptions (obfsOptions : QJsonObject) (p : string * string)
    : QJsonObject :=
  if String.eqb p.1 "plugin" then
    fold_left
      (λ obfsOptions o,
         match QString.split "=" o with
         | [t0; t1] => <[t0 := JString t1]> obfsOptions
         | _ => obfsOptions
         end)
      (QString.split ";" (fromPercentEncoding p.2))
      obfsOptions
  else obfsOptions.

Definition getShadowsocksServerFromUrl (serverUrl subscriptionUrl : string)
    : QJsonObject :=
  let serverUrl := QString.mid 5 (-1) serverUrl in
  let atIndex := QString.indexOf "@" serverUrl in
  let colonIndex := QString.indexOf ":" serverUrl in
  let splashIndex := QString.indexOf "/" serverUrl in
  let sharpIndex := QString.indexOf "#" serverUrl in
  let questionMarkIndex := QString.indexOf "?" serverUrl in
  let confidential := fromBase64 (QString.left atIndex serverUrl) in
  let serverAddr :=
    QString.mid (atIndex + 1) (colonIndex - atIndex - 1) serverUrl in
  let serverPort :=
    QString.toIntValue
      (QString.mid (colonIndex + 1) (splashIndex - colonIndex - 1) serverUrl) in
  let options :=
    QString.mid (questionMarkIndex + 1) (sharpIndex - questionMarkIndex - 1)
      serverUrl in
  let serverName :=
    fromPercentEncoding (QString.mid (sharpIndex + 1) (-1) serverUrl) in
  let colonIndex := QString.indexOf ":" confidential in
  let encryption := QString.left colonIndex confidential in
  let password := QString.mid (colonIndex + 1) (-1) confidential in
  let serverConfig :=
    object
      [ ("serverName", JString serverName);
        ("autoConnect", JBool false);
        ("subscription", JString subscriptionUrl);
        ("serverAddr", JString serverAddr);
        ("serverPort", JDouble serverPort);
        ("encryption", JString encryption);
        ("password", JString password) ] in
  let obfsOptions := fold_left pluginOptions (queryItems options) ∅ in
  if (0 <? size obfsOptions)%nat
  then <["obfs" := JObject obfsOptions]> serverConfig
  else serverConfig.


(** ** The object and its slots *)

Context {Store : Type} `{Configurator Store}.

Record AppProxy : Type := mkAppProxy {
  configurator : Store;
  serverLatency : gmap string QVariant;
  randState : RandState;
  events : list Event;
}.

Definition setConfigurator (c : Store) (st : AppProxy) : AppProxy :=
  mkAppProxy c (serverLatency st) (randState st) (events st).

Definition setServerLatency (t : gmap string QVariant) (st : AppProxy)
    : AppProxy :=
  mkAppProxy (configurator st) t (randState st) (events st).

Definition setRandState (r : RandState) (st : AppProxy) : AppProxy :=
  mkAppProxy (configurator st) (serverLatency st) r (events st).

Definition record (e : Event) (st : AppProxy) : AppProxy :=
  mkAppProxy (configurator st) (serverLatency st) (randState st)
    (events st ++ [e]).

Definition emit (signal : Signal) : AppProxy → AppProxy := record (Emit signal).

(** Runs a computation that calls [std::rand()] on the state of the
    generator. *)
Definition withRand {A : Type} (m : Rand A) (st : AppProxy) : A * AppProxy :=
  let '(x, r) := m (randState st) in (x, setRandState r st).

Definition lineFeed : string := String QRegularExpression.newline EmptyString.

Definition setAppConfig (configString : string) (st : AppProxy) : AppProxy :=
  let appConfig := fromJson configString in
  let appConfigErrors := getAppConfigErrors appConfig in
  if (0 <? List.length appConfigErrors)%nat then
    emit (appConfigError (QString.join lineFeed appConfigErrors)) st
  else
    let st := record (SetAutoStart (QJson.toBool (QJson.value appConfig "autoStart"))) st in
    let appConfig := touch "autoStart" appConfig in
    let st := record (Retranslate (QJson.toString (QJson.value appConfig "language"))) st in
    let appConfig := touch "language" appConfig in
    let appConfig :=
      <["serverPort" := JDouble (QString.toIntValue
          (QJson.toString (QJson.value appConfig "serverPort")))]> appConfig in
    let appConfig :=
      <["pacPort" := JDouble (QString.toIntValue
          (QJson.toString (QJson.value appConfig "pacPort")))]> appConfig in
    let st := setConfigurator (cfg_setAppConfig appConfig (configurator st)) st in
    let st := record (QInfo "Application config updated. Restarting V2Ray ...") st in
    let st := record V2RayRestart st in
    emit appConfigChanged st.

(** The body of the loop of [getServers] on one element of the array. *)
Definition withStatus (connectedServerNames : list string)
    (table : gmap string QVariant) (item : QJsonValue) : QJsonValue :=
  let server := QJson.toObject item in
  let serverName :=
    if QJson.contains server "serverName"
    then QJson.toString (QJson.value server "serverName") else EmptyString in
  let server :=
    <["connected" := JBool (bool_decide (serverName ∈ connectedServerNames))]>
      server in
  let server :=
    match table !! serverName with
    | Some l => <["latency" := JDouble (QVariant_toInt l)]> server
    | None => server
    end in
  JObject server.

Definition getServers (st : AppProxy) : AppProxy :=
  let servers := cfg_getServers (configurator st) in
  let connectedServerNames := cfg_getConnectedServerNames (configurator st) in
  let servers := withStatus connectedServerNames (serverLatency st) <$> servers in
  emit (serversReady servers) st.

(** The body of the loop of [returnServerLatency] on one entry of the
    delivered map. *)
Definition storeLatency (serverName : string) (l : QVariant)
    (table : gmap string QVariant) : gmap string QVariant :=
  <[serverName := VInt (QVariant_toInt l)]> table.

Definition returnServerLatency (latency : gmap string QVariant)
    (st : AppProxy) : AppProxy :=
  let st :=
    setServerLatency (map_fold storeLatency (serverLatency st) latency) st in
  emit (serverLatencyReady latency) st.

(** The end of a turn of the loop of [addSubscriptionServers]: the
    [autoConnect] option of a removed server of the same name is recovered
    and the server is added. *)
Definition recoverAndAdd (removedServers : gmap string QJsonObject)
    (server : string) (serverConfig : QJsonObject) (st : AppProxy) : AppProxy :=
  let serverName :=
    if QJson.contains serverConfig "serverName"
    then QJson.toString (QJson.value serverConfig "serverName")
    else EmptyString in
  let serverConfig :=
    <["autoConnect" :=
        JBool (match removedServers !! serverName with
               | Some removed => QJson.toBool (QJson.value removed "autoConnect")
               | None => false
               end)]> serverConfig in
  let st := setConfigurator (cfg_addServer serverConfig (configurator st)) st in
  record (QInfo ("Add a new server[Name=" +:+ serverName +:+ "] from URI: "
                   +:+ server)) st.

(** One turn of the loop of [addSubscriptionServers]. *)
Definition addSubscriptionServer (removedServers : gmap string QJsonObject)
    (subsriptionUrl : string) (st : AppProxy) (server : string) : AppProxy :=
  if QString.startsWith "ss://" server then
    let serverConfig := getShadowsocksServerFromUrl server subsriptionUrl in
    if QJson.contains serverConfig "obfs" then
      record (QWarningObject "Ignore Shadowsocks server with obfs: " serverConfig) st
    else
      recoverAndAdd removedServers server
        (getPrettyShadowsocksConfig serverConfig) st
  else if QString.startsWith "vmess://" server then
    let '(serverConfig, st) :=
      withRand
        (getPrettyV2RayConfig (getV2RayServerFromUrl server subsriptionUrl)) st in
    recoverAndAdd removedServers server serverConfig st
  else
    record (QWarning ("Ignore subscription server: " +:+ server)) st.

Definition addSubscriptionServers (subsriptionServers subsriptionUrl : string)
    (st : AppProxy) : AppProxy :=
  if QString.size subsriptionServers =? 0 then
    emit (serverConfigError "Failed to get subscription servers from URL.") st
  else
    let '(removedServers, store) :=
      cfg_removeSubscriptionServers subsriptionUrl (configurator st) in
    let st := setConfigurator store st in
    let servers := QString.split QRegularExpression.newline subsriptionServers in
    let st := fold_left (addSubscriptionServer removedServers subsriptionUrl) servers st in
    emit serversChanged st.

Definition editServer (serverName protocol configString : string)
    (st : AppProxy) : AppProxy :=
  let serverConfig := fromJson configString in
  let serverConfigErrors := getServerConfigErrors serverConfig protocol in
  if (0 <? List.length serverConfigErrors)%nat then
    emit (serverConfigError (QString.join lineFeed serverConfigErrors)) st
  else
    let '(serverConfig, st) :=
      withRand (getPrettyServerConfig serverConfig protocol) st in
    let '(edited, store) :=
      cfg_editServer serverName serverConfig (configurator st) in
    let st := setConfigurator store st in
    if edited then
      let newServerName := QJson.toString (QJson.value serverConfig "serverName") in
      let serverConfig := touch "serverName" serverConfig in
      let connectedServerNames := cfg_getConnectedServerNames (configurator st) in
      let serverConfig :=
        <["connected" := JBool (bool_decide (newServerName ∈ connectedServerNames))]>
          serverConfig in
      let '(serverConfig, st) :=
        match serverLatency st !! serverName with
        | Some l =>
            (<["latency" := JDouble (QVariant_toInt l)]> serverConfig,
             if negb (String.eqb newServerName serverName) then
               setServerLatency
                 (delete serverName (<[newServerName := l]> (serverLatency st))) st
             else st)
        | None => (serverConfig, st)
        end in
      let st := emit (serverChanged serverName serverConfig) st in
      record V2RayRestart st
    else st.

End AppProxy.

(** ** The store of the configurator

    [configurator.cpp] is not among the sources; the specification
    describes the store as a list of profiles, each with a name, a
    subscription source and an [autoConnect] flag, next to the application
    configuration. *)

Module SpecStore.

Record t : Type := mk {
  appConfig : QJsonObject;
  servers : QJsonArray;
  connectedServerNames : list string;
}.

Definition serverNameOf (server : QJsonValue) : string :=
  QJson.toString (QJson.value (QJson.toObject server) "serverName").

Definition subscriptionOf (server : QJsonValue) : string :=
  QJson.toString (QJson.value (QJson.toObject server) "subscription").

(** Modelled from the spec: [Configurator::setAppConfig], which is not
    among the sources.  The application configuration is mutated by partial
    updates: the members of the update replace those of the same key. *)
Definition setAppConfig (update : QJsonObject) (s : t) : t :=
  mk (update ∪ appConfig s) (servers s) (connectedServerNames s).

(** Modelled from the spec: [Configurator::addServer], which is not among
    the sources.  The profile is persisted: it joins the list of servers. *)
Definition addServer (serverConfig : QJsonObject) (s : t) : t :=
  mk (appConfig s) (servers s ++ [JObject serverConfig]) (connectedServerNames s).

(** The first server of the given name is replaced. *)
Fixpoint replaceServer (serverName : string) (serverConfig : QJsonObject)
    (l : QJsonArray) : bool * QJsonArray :=
  match l with
  | [] => (false, [])
  | server :: rest =>
      if String.eqb (serverNameOf server) serverName
      then (true, JObject serverConfig :: rest)
      else let '(edited, rest') := replaceServer serverName serverConfig rest in
           (edited, server :: rest')
  end.

(** Modelled from the spec: [Configurator::editServer], which is not among
    the sources.  The name is the key of a profile: the profile of that
    name is replaced, and the flag tells whether there was one. *)
Definition editServer (serverName : string) (serverConfig : QJsonObject)
    (s : t) : bool * t :=
  let '(edited, l) := replaceServer serverName serverConfig (servers s) in
  (edited, mk (appConfig s) l (connectedServerNames s)).

(** The removed servers by name: of two servers of one name the later one
    is kept. *)
Definition byName (removed : QJsonArray) : gmap string QJsonObject :=
  fold_left (λ m server, <[serverNameOf server := QJson.toObject server]> m)
    removed ∅.

(** Modelled from the spec: [Configurator::removeSubscriptionServers],
    which is not among the sources.  All stored profiles whose subscription
    source is the URL are removed, and each removed profile is retained
    under its name. *)
Definition removeSubscriptionServers (subscriptionUrl : string) (s : t)
    : gmap string QJsonObject * t :=
  (byName (filter (λ server, subscriptionOf server = subscriptionUrl) (servers s)),
   mk (appConfig s)
      (filter (λ server, subscriptionOf server ≠ subscriptionUrl) (servers s))
      (connectedServerNames s)).

#[export] Instance configurator : Configurator t := {
  cfg_getAppConfig := appConfig;
  cfg_setAppConfig := setAppConfig;
  cfg_getServers := servers;
  cfg_getConnectedServerNames := connectedServerNames;
  cfg_addServer := addServer;
  cfg_editServer := editServer;
  cfg_removeSubscriptionServers := removeSubscriptionServers;
}.

End SpecStore.

(** ** A reference platform

    An executable implementation of [Platform] on ASCII texts, used to run
    the slots on concrete inputs: JSON documents of objects, arrays,
    strings without [\u] escapes, integers, booleans and [null]; Base64 as
    [QByteArray::fromBase64] decodes it; percent-encoding; queries of
    [key=value] items separated by ampersands; the generator is the one
    the C standard gives as an example of [rand]. *)

Module Reference.

Definition doubleQuote : ascii := ascii_of_nat 34.
Definition backslash : ascii := ascii_of_nat 92.

(** JSON texts are written with apostrophes for the quotes of JSON. *)
Fixpoint json (s : string) : string :=
  match s with
  | EmptyString => EmptyString
  | String a s' =>
      String (if Ascii.eqb a "'" then doubleQuote else a) (json s')
  end.

Definition isJsonSpace (a : ascii) : bool :=
  let n := nat_of_ascii a in
  (n =? 32)%nat || (n =? 9)%nat || (n =? 10)%nat || (n =? 13)%nat.

Fixpoint skipWs (s : string) : string :=
  match s with
  | String a s' => if isJsonSpace a then skipWs s' else s
  | EmptyString => EmptyString
  end.

Definition unescape (e : ascii) : option ascii :=
  if Ascii.eqb e doubleQuote then Some doubleQuote
  else if Ascii.eqb e backslash then Some backslash
  else if Ascii.eqb e "/" then Some "/"%char
  else if Ascii.eqb e "b" then Some (ascii_of_nat 8)
  else if Ascii.eqb e "f" then Some (ascii_of_nat 12)
  else if Ascii.eqb e "n" then Some (ascii_of_nat 10)
  else if Ascii.eqb e "r" then Some (ascii_of_nat 13)
  else if Ascii.eqb e "t" then Some (ascii_of_nat 9)
  else None.

(** The characters of a string literal after its opening quote, and what
    follows its closing quote. *)
Fixpoint parseChars (s : string) : option (string * string) :=
  match s with
  | EmptyString => None
  | String a s' =>
      if Ascii.eqb a doubleQuote then Some (EmptyString, s')
      else if Ascii.eqb a backslash then
        match s' with
        | String e s'' =>
            match unescape e, parseChars s'' with
            | Some c, Some (str, rest) => Some (String c str, rest)
            | _, _ => None
            end
        | EmptyString => None
        end
      else
        match parseChars s' with
        | Some (str, rest) => Some (String a str, rest)
        | None => None
        end
  end.

Fixpoint spanDigits (s : string) : string * string :=
  match s with
  | String a s' =>
      match QString.digitValue a with
      | Some _ => let '(ds, rest) := spanDigits s' in (String a ds, rest)
      | None => (EmptyString, s)
      end
  | EmptyString => (EmptyString, EmptyString)
  end.

Definition startsFraction (s : string) : bool :=
  match s with
  | String a _ => Ascii.eqb a "." || Ascii.eqb a "e" || Ascii.eqb a "E"
  | EmptyString => false
  end.

(** An integer; a number with a fraction or an exponent is refused. *)
Definition parseNumber (s : string) : option (QJsonValue * string) :=
  let '(negative, u) :=
    match s with
    | String "-"%char u => (true, u)
    | _ => (false, s)
    end in
  let '(ds, rest) := spanDigits u in
  if startsFraction rest then None
  else match QString.unsignedValue ds with
       | Some v => Some (JDouble (if negative then - v else v), rest)
       | None => None
       end.

Definition parseLiteral (s : string) : option (QJsonValue * string) :=
  if QString.startsWith "true" s then Some (JBool true, QString.drop 4 s)
  else if QString.startsWith "false" s then Some (JBool false, QString.drop 5 s)
  else if QString.startsWith "null" s then Some (JNull, QString.drop 4 s)
  else parseNumber s.

Fixpoint parseValue (fuel : nat) (s : string) : option (QJsonValue * string) :=
  match fuel with
  | O => None
  | S fuel =>
      match skipWs s with
      | EmptyString => None
      | String a r =>
          if Ascii.eqb a "{" then
            match skipWs r with
            | String "}"%char r' => Some (JObject ∅, r')
            | r' => parseMembers fuel r' ∅
            end
          else if Ascii.eqb a "[" then
            match skipWs r with
            | String "]"%char r' => Some (JArray [], r')
            | r' => parseElements fuel r' []
            end
          else if Ascii.eqb a doubleQuote then
            match parseChars r with
            | Some (str, r') => Some (JString str, r')
            | None => None
            end
          else parseLiteral (String a r)
      end
  end
with parseMembers (fuel : nat) (s : string) (acc : QJsonObject)
    : option (QJsonValue * string) :=
  match fuel with
  | O => None
  | S fuel =>
      match skipWs s with
      | EmptyString => None
      | String q r =>
          if Ascii.eqb q doubleQuote then
            match parseChars r with
            | Some (key, r1) =>
                match skipWs r1 with
                | String ":"%char r2 =>
                    match parseValue fuel r2 with
                    | Some (v, r3) =>
                        match skipWs r3 with
                        | String ","%char r4 =>
                            parseMembers fuel r4 (<[key := v]> acc)
                        | String "}"%char r4 =>
                            Some (JObject (<[key := v]> acc), r4)
                        | _ => None
                        end
                    | None => None
                    end
                | _ => None
                end
            | None => None
            end
          else None
      end
  end
with parseElements (fuel : nat) (s : string) (acc : QJsonArray)
    : option (QJsonValue * string) :=
  match fuel with
  | O => None
  | S fuel =>
      match parseValue fuel s with
      | Some (v, r1) =>
          match skipWs r1 with
          | String ","%char r2 => parseElements fuel r2 (acc ++ [v])
          | String "]"%char r2 => Some (JArray (acc ++ [v]), r2)
          | _ => None
          end
      | None => None
      end
  end.

Definition fromJson (text : string) : QJsonObject :=
  match parseValue (S (String.length text)) text with
  | Some (JObject o, rest) => if QString.isEmpty (skipWs rest) then o else ∅
  | _ => ∅
  end.

Definition asciiOfZ (x : Z) : ascii := ascii_of_nat (Z.to_nat (x mod 256)).

Definition base64Digit (a : ascii) : option Z :=
  let n := nat_of_ascii a in
  if (65 <=? n)%nat && (n <=? 90)%nat then Some (Z.of_nat n - 65)
  else if (97 <=? n)%nat && (n <=? 122)%nat then Some (Z.of_nat n - 97 + 26)
  else if (48 <=? n)%nat && (n <=? 57)%nat then Some (Z.of_nat n - 48 + 52)
  else if (n =? 43)%nat then Some 62
  else if (n =? 47)%nat then Some 63
  else None.

(** The loop of [QByteArray::fromBase64]: characters outside the alphabet
    are skipped, and a byte is written whenever eight bits are there. *)
Fixpoint base64Loop (buf nbits : Z) (s : string) : string :=
  match s with
  | EmptyString => EmptyString
  | String a s' =>
      match base64Digit a with
      | Some d =>
          let buf := Z.lor (Z.shiftl buf 6) d in
          let nbits := nbits + 6 in
          if 8 <=? nbits then
            let nbits := nbits - 8 in
            String (asciiOfZ (Z.shiftr buf nbits))
              (base64Loop (Z.land buf (Z.shiftl 1 nbits - 1)) nbits s')
          else base64Loop buf nbits s'
      | None => base64Loop buf nbits s'
      end
  end.

Definition fromBase64 (text : string) : string := base64Loop 0 0 text.

Definition hexValue (a : ascii) : option Z :=
  let n := nat_of_ascii a in
  if (48 <=? n)%nat && (n <=? 57)%nat then Some (Z.of_nat n - 48)
  else if (65 <=? n)%nat && (n <=? 70)%nat then Some (Z.of_nat n - 55)
  else if (97 <=? n)%nat && (n <=? 102)%nat then Some (Z.of_nat n - 87)
  else None.

Fixpoint fromPercentEncoding (s : string) : string :=
  match s with
  | EmptyString => EmptyString
  | String a s' =>
      if Ascii.eqb a "%" then
        match s' with
        | String h (String l r) =>
            match hexValue h, hexValue l with
            | Some x, Some y => String (asciiOfZ (16 * x + y)) (fromPercentEncoding r)
            | _, _ => String a (fromPercentEncoding s')
            end
        | _ => String a (fromPercentEncoding s')
        end
      else String a (fromPercentEncoding s')
  end.

(** A [key=value] item, split at its first [=]. *)
Definition queryItem (item : string) : string * string :=
  let i := QString.indexOf "=" item in
  if i <? 0 then (item, EmptyString)
  else (QString.left i item, QString.mid (i + 1) (-1) item).

Definition queryItems (text : string) : list (string * string) :=
  queryItem <$> filter (λ item, item ≠ EmptyString) (QString.split "&" text).

(** [next = next * 1103515245 + 12345; return next / 65536 % 32768] *)
Definition rand (next : Z) : Z * Z :=
  let next := (next * 1103515245 + 12345) mod 2 ^ 32 in
  ((next / 65536) mod 32768, next).

#[export] Instance platform : Platform := {
  fromJson := Reference.fromJson;
  fromBase64 := Reference.fromBase64;
  fromPercentEncoding := Reference.fromPercentEncoding;
  queryItems := Reference.queryItems;
  dirExists := λ path, String.eqb path "/";
  RandState := Z;
  std_rand := rand;
}.

End Reference.

(** * Vocabulary of the statements *)

(** A message names a field when it quotes the label of the field. *)
Fixpoint isInfixOf (p s : string) : bool :=
  QString.startsWith p s ||
  match s with
  | String _ s' => isInfixOf p s'
  | EmptyString => false
  end.

Definition namesField (label message : string) : bool :=
  isInfixOf ("'" +:+ label +:+ "'") message.

(** A list of errors accepts a field when none of its messages names it. *)
Definition acceptsField (label : string) (errors : list string) : Prop :=
  ∀ e, e ∈ errors → namesField label e = false.

(** The number of times a message stands in a list of errors. *)
Definition occurrences (message : string) (errors : list string) : nat :=
  List.length (filter (λ e, e = message) errors).

(** A field is a numeral when it is a string that [toInt] converts. *)
Definition numeral (serverConfig : QJsonObject) (key : string) (value : Z) : Prop :=
  ∃ text, serverConfig !! key = Some (JString text)
          ∧ QString.toInt text = Some value.

(** ** Sample records *)

Module Samples.

Import QJsonObjectOps.

Definition text (pairs : list (string * string)) : QJsonObject :=
  object (prod_map id JString <$> pairs).

(** A VMESS server on mKCP, every field filled in. *)
Definition kcpServer : QJsonObject :=
  text [ ("serverName", "kcp"); ("serverAddr", "example.com");
         ("serverPort", "443"); ("id", "27848739-7e62-4138-9fd3-098a63964b6b");
         ("alterId", "4"); ("security", "auto"); ("mux", "8");
         ("network", "kcp"); ("networkSecurity", "none");
         ("kcpMtu", "1350"); ("kcpTti", "50"); ("kcpUpLink", "5");
         ("kcpDownLink", "20"); ("kcpReadBuffer", "2");
         ("kcpWriteBuffer", "2"); ("packetHeader", "none") ].

(** A VMESS server and a Shadowsocks server on port 0. *)
Definition vmessPortZero : QJsonObject :=
  text [ ("serverName", "zero"); ("serverAddr", "example.com");
         ("serverPort", "0"); ("id", "27848739-7e62-4138-9fd3-098a63964b6b");
         ("alterId", "4"); ("security", "auto"); ("mux", "8");
         ("network", "tcp"); ("networkSecurity", "none") ].

Definition shadowsocksPortZero : QJsonObject :=
  text [ ("serverName", "zero"); ("serverAddr", "example.com");
         ("serverPort", "0"); ("encryption", "aes-256-gcm");
         ("password", "secret") ].

(** A VMESS server on TCP whose multiplexing is switched off. *)
Definition vmessMuxOff : QJsonObject :=
  text [ ("serverName", "plain"); ("serverAddr", "example.com");
         ("serverPort", "443"); ("id", "27848739-7e62-4138-9fd3-098a63964b6b");
         ("alterId", "4"); ("security", "AUTO"); ("mux", "-1");
         ("network", "tcp"); ("networkSecurity", "none") ].

(** An application configuration whose two ports are both 1080. *)
Definition samePorts : QJsonObject :=
  text [ ("language", "en-US"); ("serverProtocol", "SOCKS");
         ("serverIp", "127.0.0.1"); ("serverPort", "1080");
         ("pacPort", "1080"); ("dns", "8.8.8.8, 1.1.1.1") ].

End Samples.

(** ** Lines of a subscription *)

Section Lines.
Context `{Platform}.

(** A line is skipped when it is a Shadowsocks link whose decoded record
    carries obfuscation options, or when its scheme is not recognised. *)
Definition obfuscated (subscriptionUrl server : string) : bool :=
  QString.startsWith "ss://" server
  && QJson.contains (getShadowsocksServerFromUrl server subscriptionUrl) "obfs".

Definition unrecognized (server : string) : bool :=
  negb (QString.startsWith "ss://" server)
  && negb (QString.startsWith "vmess://" server).

Definition skipped (subscriptionUrl server : string) : bool :=
  obfuscated subscriptionUrl server || unrecognized server.

(** The warning written for a skipped line. *)
Definition warningFor (subscriptionUrl server : string) : Event :=
  if QString.startsWith "ss://" server then
    QWarningObject "Ignore Shadowsocks server with obfs: "
      (getShadowsocksServerFromUrl server subscriptionUrl)
  else QWarning ("Ignore subscription server: " +:+ server).

(** The [autoConnect] flag retained for a name. *)
Definition retainedFlag (removedServers : gmap string QJsonObject)
    (serverName : string) : bool :=
  match removedServers !! serverName with
  | Some removed => QJson.toBool (QJson.value removed "autoConnect")
  | None => false
  end.

(** A decoded server with the retained flag of its name. *)
Definition recovered (removedServers : gmap string QJsonObject)
    (serverConfig : QJsonObject) : QJsonObject :=
  <["autoConnect" :=
      JBool (retainedFlag removedServers
               (QJson.toString (QJson.value serverConfig "serverName")))]>
    serverConfig.

(** What a line that is not skipped is decoded to, given the state of
    the random generator. *)
Definition decoded (subscriptionUrl : string) (r : RandState) (server : string)
    : QJsonObject :=
  if QString.startsWith "ss://" server then
    getPrettyShadowsocksConfig (getShadowsocksServerFromUrl server subscriptionUrl)
  else (getPrettyV2RayConfig (getV2RayServerFromUrl server subscriptionUrl) r).1.

(** A profile is the import of a line when it is the decoded line, for
    some state of the generator, with the retained flag of its name. *)
Definition importOf (removedServers : gmap string QJsonObject)
    (subscriptionUrl server : string) (profile : QJsonObject) : Prop :=
  ∃ r, profile = recovered removedServers (decoded subscriptionUrl r server).



End Lines.

(** Flags set by hand between two imports: [flags] gives the new flag of
    the servers of a name, if it is changed. *)
Definition setAutoConnect (flags : string → option bool) (server : QJsonValue)
    : QJsonValue :=
  match flags (SpecStore.serverNameOf server) with
  | Some b => JObject (<["autoConnect" := JBool b]> (QJson.toObject server))
  | None => server
  end.

Definition setAutoConnects (flags : string → option bool) (s : SpecStore.t)
    : SpecStore.t :=
  SpecStore.mk (SpecStore.appConfig s)
    (setAutoConnect flags <$> SpecStore.servers s)
    (SpecStore.connectedServerNames s).

(** ** Sample links and states *)

Module Links.

Definition subscription : string := "https://example.com/subscription".

(** VMESS over WebSocket with TLS, named Tokyo. *)
Definition tokyo : string :=
  "vmess://eyJ2IjoiMiIsInBzIjoiVG9reW8iLCJhZGQiOiJleGFtcGxlLmNvbSIsInBvcnQiOjQ0MywiaWQiOiIyNzg0ODczOS03ZTYyLTQxMzgtOWZkMy0wOThhNjM5NjRiNmIiLCJhaWQiOiI0IiwibmV0Ijoid3MiLCJob3N0IjoiZXhhbXBsZS5jb20iLCJwYXRoIjoiL3JheSIsInR5cGUiOiJub25lIiwidGxzIjoidGxzIn0=".

(** VMESS over TCP with the http header, named Camouflaged. *)
Definition camouflaged : string :=
  "vmess://eyJ2IjoiMiIsInBzIjoiQ2Ftb3VmbGFnZWQiLCJhZGQiOiJleGFtcGxlLm9yZyIsInBvcnQiOjgwLCJpZCI6IjI3ODQ4NzM5LTdlNjItNDEzOC05ZmQzLTA5OGE2Mzk2NGI2YiIsImFpZCI6IjAiLCJuZXQiOiJ0Y3AiLCJ0eXBlIjoiaHR0cCJ9".

(** VMESS with the transport grpc and neither port nor alter ID, named
    Bare. *)
Definition bare : string :=
  "vmess://eyJwcyI6IkJhcmUiLCJhZGQiOiJleGFtcGxlLm5ldCIsImlkIjoiMjc4NDg3MzktN2U2Mi00MTM4LTlmZDMtMDk4YTYzOTY0YjZiIiwibmV0IjoiZ3JwYyJ9".

(** Shadowsocks, aes-256-gcm, named Plain. *)
Definition plain : string :=
  "ss://YWVzLTI1Ni1nY206c2VjcmV0@198.51.100.7:8388#Plain".

(** Shadowsocks with the plugin obfs-local, named Obfs. *)
Definition obfs : string :=
  "ss://YWVzLTI1Ni1nY206c2VjcmV0@198.51.100.8:8388/?plugin=obfs-local%3Bobfs%3Dhttp%3Bobfs-host%3Dwww.bing.com#Obfs".

Definition trojan : string := "trojan://secret@example.com:443".

Definition bundle : string := QString.join lineFeed [obfs; tokyo; trojan; plain].

(** A fresh object: nothing stored, nothing measured, nothing emitted. *)
Definition fresh : AppProxy (H := Reference.platform) (Store := SpecStore.t) :=
  mkAppProxy (H := Reference.platform) (SpecStore.mk ∅ [] []) ∅ (1 : Z) [].

End Links.

(** The user agents of the http header of a stored VMESS server. *)
Definition member (key : string) (v : QJsonValue) : QJsonValue :=
  QJson.value (QJson.toObject v) key.


Module Runs.

Import Links.

#[local] Existing Instance Reference.platform.
#[local] Existing Instance SpecStore.configurator.

(** The bundle of four lines, imported twice, the flag of Tokyo being set
    by hand in between. *)
Definition tokyoOn (serverName : string) : option bool :=
  if String.eqb serverName "Tokyo" then Some true else None.

Definition imported : AppProxy := addSubscriptionServers bundle subscription fresh.

Definition edited : AppProxy :=
  setConfigurator (setAutoConnects tokyoOn (configurator imported)) imported.

Definition importedAgain : AppProxy :=
  addSubscriptionServers bundle subscription edited.



(** An application configuration whose two ports are the same. *)
Definition samePortsText : string :=
  Reference.json
    "{'language':'en-US','serverProtocol':'SOCKS','serverIp':'127.0.0.1','serverPort':'1080','pacPort':'1080','dns':'8.8.8.8'}".

(** A state in which the latency of Tokyo was measured, and an edit that
    renames Tokyo to Osaka. *)
Definition measured : AppProxy :=
  returnServerLatency {[ "Tokyo" := VInt 120; "Plain" := VString "85" ]} imported.

Definition osakaText : string :=
  Reference.json
    "{'serverName':'Osaka','serverAddr':'example.com','serverPort':'8388','encryption':'aes-256-gcm','password':'secret'}".

Definition renamed : AppProxy :=
  editServer "Tokyo" "shadowsocks" osakaText measured.

End Runs.

(** ** The language of a regular expression *)

Module RegexLanguage.

Import QRegularExpression.

(** The strings a regular expression denotes. *)
Inductive lang : regex → string → Prop :=
| lang_eps : lang REps EmptyString
| lang_cls (ranges : list (ascii * ascii)) (a : ascii) :
    inClass a ranges = true → lang (RCls ranges) (String a EmptyString)
| lang_seq (r1 r2 : regex) (s1 s2 : string) :
    lang r1 s1 → lang r2 s2 → lang (RSeq r1 r2) (s1 +:+ s2)
| lang_alt_l (r1 r2 : regex) (s : string) :
    lang r1 s → lang (RAlt r1 r2) s
| lang_alt_r (r1 r2 : regex) (s : string) :
    lang r2 s → lang (RAlt r1 r2) s
| lang_star_nil (r : regex) : lang (RStar r) EmptyString
| lang_star_app (r : regex) (s1 s2 : string) :
    lang r s1 → lang (RStar r) s2 → lang (RStar r) (s1 +:+ s2).

End RegexLanguage.

(** ** Vocabulary of further statements *)

(** Four numbers written in decimal and separated by dots. *)
Definition dottedQuad (a b c d : Z) : string :=
  QString.number a +:+ "." +:+ QString.number b +:+ "."
    +:+ QString.number c +:+ "." +:+ QString.number d.

Definition isOctet (n : Z) : Prop := 0 ≤ n ≤ 255.

(** A text is the decimal writing of a number from 0 to 255. *)
Definition canonicalOctet (text : string) : bool :=
  match QString.toInt text with
  | Some n => (0 <=? n) && (n <=? 255) && String.eqb (QString.number n) text
  | None => false
  end.

(** *** Host names *)

Definition lowerOrDigit : list (ascii * ascii) := [("a", "z"); ("0", "9")]%char.

Definition lowerDigitOrHyphen : list (ascii * ascii) :=
  [("a", "z"); ("0", "9"); ("-", "-")]%char.

(** All characters of a text are in a class. *)
Definition within (ranges : list (ascii * ascii)) (text : string) : Prop :=
  Forall (λ a, QRegularExpression.inClass a ranges = true)
    (list_ascii_of_string text).

(** A label of two characters or more: a lowercase letter or a digit at
    both ends, and at most 61 lowercase letters, digits and hyphens
    between them. *)
Definition longLabel (label : string) : Prop :=
  ∃ a middle b,
    label = String a (middle +:+ String b EmptyString)
    ∧ QRegularExpression.inClass a lowerOrDigit = true
    ∧ QRegularExpression.inClass b lowerOrDigit = true
    ∧ (String.length middle ≤ 61)%nat
    ∧ within lowerDigitOrHyphen middle.

(** A label: one lowercase letter or digit, or a long label. *)
Definition hostLabel (label : string) : Prop :=
  (∃ a, label = String a EmptyString
        ∧ QRegularExpression.inClass a lowerOrDigit = true)
  ∨ longLabel label.

(** Labels, each followed by a dot. *)
Fixpoint dotted (labels : list string) : string :=
  match labels with
  | [] => EmptyString
  | label :: rest => label +:+ "." +:+ dotted rest
  end.

(** A host name: one label or more, each followed by a dot, and a last
    label of two characters or more. *)
Definition hostName (name : string) : Prop :=
  ∃ labels last,
    labels ≠ [] ∧ Forall hostLabel labels ∧ longLabel last
    ∧ name = dotted labels +:+ last.

(** *** Messages of a field *)

(** The number of messages of a list that name a field. *)
Definition naming (label : string) (errors : list string) : nat :=
  List.length (filter (λ e, namesField label e = true) errors).

(** The numeric fields of a VMESS server: key, label and bounds. *)
Definition vmessNumericFields : list (string * string * Z * Z) :=
  [ ("serverPort", "Server Port", 0, 65535);
    ("alterId", "Alter ID", 0, 65535);
    ("mux", "MUX", -1, 1024) ].

(** A field is within bounds when it is a numeral between them. *)
Definition withinBounds (serverConfig : QJsonObject) (key : string)
    (lowerBound upperBound : Z) : Prop :=
  ∃ value, numeral serverConfig key value ∧ lowerBound ≤ value ≤ upperBound.

(** A field is a text when it is a string that is not empty. *)
Definition textField (serverConfig : QJsonObject) (key text : string) : Prop :=
  serverConfig !! key = Some (JString text) ∧ text ≠ EmptyString.

(** ** The validator of URLs *)

Section UrlValidation.

Import QRegularExpression.

(** [[hH]]: a letter under [CaseInsensitiveOption]. *)
Definition letter (lower upper : ascii) : regex :=
  RCls [(lower, lower); (upper, upper)].

(** [[^\s/?\.#-]]: every character but white space (codes 9 to 13 and
    32) and [# - . / ?] (codes 35, 45, 46, 47 and 63). *)
Definition hostCharacters : list (ascii * ascii) :=
  [ (ascii_of_nat 0, ascii_of_nat 8); (ascii_of_nat 14, ascii_of_nat 31);
    (ascii_of_nat 33, ascii_of_nat 34); (ascii_of_nat 36, ascii_of_nat 44);
    (ascii_of_nat 48, ascii_of_nat 62); (ascii_of_nat 64, ascii_of_nat 255) ].

(** [[^\s]]: every character but white space. *)
Definition nonSpaceCharacters : list (ascii * ascii) :=
  [ (ascii_of_nat 0, ascii_of_nat 8); (ascii_of_nat 14, ascii_of_nat 31);
    (ascii_of_nat 33, ascii_of_nat 255) ].

(** The pattern of [isUrlValid], case insensitive: [^https?://], then
    [(-\.)?], then [([^\s/?\.#-]+\.?)+], then an optional group made of a
    slash and of any number of [[^\s]], and [$]. *)
Definition urlRegex : regex :=
  seqs [ letter "h" "H"; letter "t" "T"; letter "t" "T"; letter "p" "P";
         opt (letter "s" "S"); chr ":"; chr "/"; chr "/";
         opt (seqs [chr "-"; chr "."]);
         plus (seqs [plus (RCls hostCharacters); opt (chr ".")]);
         opt (seqs [chr "/"; RStar (RCls nonSpaceCharacters)]) ].

Definition isUrlValid (url : string) : bool := hasMatch urlRegex url.

End UrlValidation.

(** ** More slots *)

Section MoreSlots.
Context `{Platform} {Store : Type} `{Configurator Store}.

Import QJsonObjectOps.

(** The log line names the server with [serverConfig["serverName"]] and
    [serverConfig["serverAddr"]], read on the local copy of the object. *)
Definition addV2RayServer (configString : string) (st : AppProxy) : AppProxy :=
  let serverConfig := fromJson configString in
  let serverConfigErrors := getV2RayServerConfigErrors serverConfig in
  if (0 <? List.length serverConfigErrors)%nat then
    emit (serverConfigError (QString.join lineFeed serverConfigErrors)) st
  else
    let '(v2RayConfig, st) := withRand (getPrettyV2RayConfig serverConfig) st in
    let st := setConfigurator (cfg_addServer v2RayConfig (configurator st)) st in
    let st := emit serversChanged st in
    record (QInfo ("Add new V2Ray server [Name="
                     +:+ QJson.toString (QJson.value serverConfig "serverName")
                     +:+ ", Addr="
                     +:+ QJson.toString (QJson.value serverConfig "serverAddr")
                     +:+ "].")) st.

Definition addShadowsocksServer (configString : string) (st : AppProxy)
    : AppProxy :=
  let serverConfig := fromJson configString in
  let serverConfigErrors := getShadowsocksServerConfigErrors serverConfig in
  if (0 <? List.length serverConfigErrors)%nat then
    emit (serverConfigError (QString.join lineFeed serverConfigErrors)) st
  else
    let st :=
      setConfigurator
        (cfg_addServer (getPrettyShadowsocksConfig serverConfig)
           (configurator st)) st in
    let st := emit serversChanged st in
    record (QInfo ("Add new Shadowsocks server [Name="
                     +:+ QJson.toString (QJson.value serverConfig "serverName")
                     +:+ ", Addr="
                     +:+ QJson.toString (QJson.value serverConfig "serverAddr")
                     +:+ "].")) st.

Definition setGfwListUrl (gfwListUrl : string) (st : AppProxy) : AppProxy :=
  let appConfig := object [("gfwListUrl", JString gfwListUrl)] in
  let error :=
    getStringConfigError appConfig "gfwListUrl" (tr "GFW List URL")
      [isUrlValid] in
  if negb (QString.isEmpty error) then emit (appConfigError error) st
  else
    let st := setConfigurator (cfg_setAppConfig appConfig (configurator st)) st in
    emit appConfigChanged st.

End MoreSlots.

(** ** Shadowsocks links *)

(** A text is free of some characters when none of them occurs in it. *)
Definition freeOf (characters : list ascii) (text : string) : Prop :=
  ∀ c, c ∈ characters → c ∉ list_ascii_of_string text.

(** [ss://userinfo@host:port] followed by the rest of the link. *)
Definition shadowsocksLink (userInfo host port rest : string) : string :=
  "ss://" +:+ userInfo +:+ "@" +:+ host +:+ ":" +:+ port +:+ rest.

(** ** Transports *)

(** The member of the stream settings that holds the settings of a
    transport, and the network that selects it. *)
Definition transportSettings : list (string * string) :=
  [ ("tcpSettings", "tcp"); ("kcpSettings", "kcp"); ("wsSettings", "ws");
    ("httpSettings", "http"); ("dsSettings", "domainsocket");
    ("quicSettings", "quic") ].

(** ** User agents *)

(** A user agent of Chrome, as [getRandomUserAgents] writes them: one of
    the three operating systems and a version [major.0.build.patch] within
    the ranges drawn. *)
Definition chromeUserAgent (agent : QJsonValue) : Prop :=
  ∃ os major build patch,
    os ∈ OPERATING_SYSTEMS
    ∧ 50 ≤ major ≤ 79 ∧ 1000 ≤ build ≤ 4999 ∧ 0 ≤ patch ≤ 99
    ∧ agent = JString (userAgent os (QString.number major)
                         (QString.number build) (QString.number patch)).

(** ** URLs *)

(** A text is made of characters that all have a property. *)
Definition madeOf (P : ascii → Prop) (text : string) : Prop :=
  Forall P (list_ascii_of_string text).

(** The characters of a host: no white space and none of [/ ? . # -]. *)
Definition hostCharacter (a : ascii) : Prop :=
  QString.isSpace a = false ∧ a ∉ ["/"; "?"; "."; "#"; "-"]%char.

Definition nonSpace (a : ascii) : Prop := QString.isSpace a = false.

(** The same, as a test. *)
Definition hostCharacterb (a : ascii) : bool :=
  negb (QString.isSpace a)
  && negb (existsb (Ascii.eqb a) ["/"; "?"; "."; "#"; "-"]%char).

(** A group of a host: characters of a host, one at least, and one dot
    after them or none. *)
Definition hostGroup (group : string) : Prop :=
  ∃ run, run ≠ EmptyString ∧ madeOf hostCharacter run
         ∧ (group = run ∨ group = run +:+ ".").

Fixpoint glued (parts : list string) : string :=
  match parts with
  | [] => EmptyString
  | part :: rest => part +:+ glued rest
  end.

(** http or https, in any case of the letters. *)
Definition httpScheme (scheme : string) : Prop :=
  QString.toLower scheme = "http" ∨ QString.toLower scheme = "https".

(** Nothing, or a slash and characters that are not white space. *)
Definition urlPath (path : string) : Prop :=
  path = EmptyString ∨ ∃ rest, path = "/" +:+ rest ∧ madeOf nonSpace rest.

(** The URLs of the pattern: a scheme, [://], [-.] or nothing, one group
    of a host or more, and a path. *)
Definition httpUrl (url : string) : Prop :=
  ∃ scheme prefix groups path,
    httpScheme scheme
    ∧ (prefix = EmptyString ∨ prefix = "-.")
    ∧ groups ≠ [] ∧ Forall hostGroup groups
    ∧ urlPath path
    ∧ url = scheme +:+ "://" +:+ prefix +:+ glued groups +:+ path.

(** ** Listed servers *)

(** The name under which [getServers] looks a server up. *)
Definition nameOf (item : QJsonValue) : string :=
  if QJson.contains (QJson.toObject item) "serverName"
  then QJson.toString (QJson.value (QJson.toObject item) "serverName")
  else EmptyString.

(** ** More sample inputs *)

Module MoreRuns.

(** A VMESS server on mKCP, every field filled in, as the text of a form. *)
Definition kcpText : string :=
  Reference.json
    "{'serverName':'kcp','serverAddr':'example.com','serverPort':'443','id':'27848739-7e62-4138-9fd3-098a63964b6b','alterId':'4','security':'auto','mux':'8','network':'kcp','networkSecurity':'none','kcpMtu':'1350','kcpTti':'50','kcpUpLink':'5','kcpDownLink':'20','kcpReadBuffer':'2','kcpWriteBuffer':'2','packetHeader':'none'}".

(** An application configuration whose two ports are both 1080, one of
    them written with a zero before it. *)
Definition paddedPortText : string :=
  Reference.json
    "{'language':'en-US','serverProtocol':'SOCKS','serverIp':'127.0.0.1','serverPort':'1080','pacPort':'01080','dns':'8.8.8.8'}".

(** The page of an error, received in place of a bundle. *)
Definition errorPage : string := "<html>502 Bad Gateway</html>".

#[local] Existing Instance Reference.platform.
#[local] Existing Instance SpecStore.configurator.

(** A bundle of three lines, the first one VMESS on TCP with the http
    header, imported twice, the flag of Tokyo being set by hand in
    between. *)
Definition mixedBundle : string :=
  QString.join lineFeed [Links.camouflaged; Links.tokyo; Links.plain].

Definition mixedOnce : AppProxy :=
  addSubscriptionServers mixedBundle Links.subscription Links.fresh.

Definition mixedEdited : AppProxy :=
  setConfigurator (setAutoConnects Runs.tokyoOn (configurator mixedOnce))
    mixedOnce.

Definition mixedTwice : AppProxy :=
  addSubscriptionServers mixedBundle Links.subscription mixedEdited.

End MoreRuns.

(** ** Accepted records *)

(** What the validation asks of the transport of a VMESS server, by
    network. *)
Definition transportAccepted `{Platform} (serverConfig : QJsonObject)
    (network : string) : Prop :=
  network ≠ "kcp"
  ∧ (network = "ws" ∨ network = "http" →
     (∃ host, textField serverConfig "networkHost" host
              ∧ isDomainNameValid host = true)
     ∧ ∃ path, textField serverConfig "networkPath" path)
  ∧ (network = "domainsocket" →
     ∃ path, textField serverConfig "domainSocketFilePath" path
             ∧ isFileExists path = true)
  ∧ (network = "quic" →
     (∃ security, textField serverConfig "quicSecurity" security)
     ∧ (∃ header, textField serverConfig "packetHeader" header)
     ∧ ∃ key, textField serverConfig "quicKey" key).

(** ** Imports, line by line *)





Section ImportedLines.
Context `{Platform}.



End ImportedLines.

(** * Theorems *)

(** ** Messages and lists of errors *)

Section ValidationFacts.
Context `{Platform}.

Lemma removeAll_elem_of (x e : string) (l : list string) :
  e ∈ removeAll x l ↔ e ≠ x ∧ e ∈ l.
Proof. unfold removeAll. by rewrite list_elem_of_filter. Qed.

Lemma removeAll_nil (x : string) (l : list string) :
  removeAll x l = [] ↔ ∀ e, e ∈ l → e = x.
Proof.
  unfold removeAll. induction l as [|a l IH]; simpl.
  - split; [intros _ e He; by apply elem_of_nil in He | done].
  - rewrite filter_cons. destruct (decide (a ≠ x)) as [Hne|Heq].
    + split; [done|]. intros Hall. destruct Hne. apply Hall. by left.
    + apply dec_stable in Heq. subst a. rewrite IH. split.
      * intros Hall e [->|He]%elem_of_cons; auto.
      * intros Hall e He. apply Hall. by right.
Qed.

Lemma occurrences_app (m : string) (l1 l2 : list string) :
  occurrences m (l1 ++ l2) = (occurrences m l1 + occurrences m l2)%nat.
Proof. unfold occurrences. by rewrite filter_app, length_app. Qed.

Lemma occurrences_removeAll (m x : string) (l : list string) :
  m ≠ x → occurrences m (removeAll x l) = occurrences m l.
Proof.
  intros Hne. unfold occurrences, removeAll.
  induction l as [|a l IH]; [done|].
  rewrite !filter_cons.
  destruct (decide (a ≠ x)) as [Ha|Ha].
  - rewrite filter_cons. destruct (decide (a = m)); simpl; by rewrite IH.
  - apply dec_stable in Ha. subst a.
    destruct (decide (x = m)) as [->|]; [done|]. by rewrite IH.
Qed.

Lemma occurrences_cons_ne (m a : string) (l : list string) :
  a ≠ m → occurrences m (a :: l) = occurrences m l.
Proof. intros Hne. unfold occurrences. rewrite filter_cons. by destruct (decide (a = m)). Qed.

Lemma occurrences_none (m : string) (l : list string) :
  (∀ e, e ∈ l → e ≠ m) → occurrences m l = 0%nat.
Proof.
  induction l as [|a l IH]; intros Hall; [done|].
  rewrite occurrences_cons_ne by (apply Hall; by left).
  apply IH. intros e He. apply Hall. by right.
Qed.

(** The results of the two checks of a field. *)

Lemma getStringConfigError_cases serverConfig key name checkpoints :
  getStringConfigError serverConfig key name checkpoints
    ∈ [EmptyString; msgMissing name; msgInvalid name].
Proof.
  unfold getStringConfigError.
  repeat case_match; set_solver.
Qed.

Lemma getNumericConfigError_cases serverConfig key name lowerBound upperBound :
  getNumericConfigError serverConfig key name lowerBound upperBound
    ∈ [EmptyString; msgMissing name; msgInvalid name;
       msgAbove name lowerBound; msgBetween name lowerBound upperBound].
Proof.
  unfold getNumericConfigError.
  repeat case_match; set_solver.
Qed.

Lemma toInt_empty : QString.toInt EmptyString = None.
Proof. reflexivity. Qed.

Lemma present_text serverConfig key :
  negb (QJson.contains serverConfig key)
  || QString.isEmpty (QJson.toString (QJson.value serverConfig key)) = false →
  ∃ text, serverConfig !! key = Some (JString text) ∧ text ≠ EmptyString
          ∧ QJson.toString (QJson.value serverConfig key) = text.
Proof.
  unfold QJson.contains, QJson.value.
  destruct (serverConfig !! key) as [v|] eqn:Hk.
  - destruct v as [| | |text| | |]; simpl;
      rewrite ?orb_true_r; try discriminate.
    destruct text; simpl; rewrite ?orb_true_r; [discriminate|]. eauto.
  - case_bool_decide as Hs; [by destruct Hs|discriminate].
Qed.

Lemma getStringConfigError_present serverConfig key name checkpoints :
  getStringConfigError serverConfig key name checkpoints = EmptyString →
  is_Some (serverConfig !! key).
Proof.
  unfold getStringConfigError.
  destruct (negb _ || _) eqn:Hp; [discriminate|].
  apply present_text in Hp as (text & Hk & _). eauto.
Qed.

Lemma numeral_text serverConfig key value :
  numeral serverConfig key value →
  negb (QJson.contains serverConfig key)
  || QString.isEmpty (QJson.toString (QJson.value serverConfig key)) = false
  ∧ QString.toInt (QJson.toString (QJson.value serverConfig key)) = Some value.
Proof.
  intros (text & Hk & Hv). unfold QJson.contains, QJson.value. rewrite Hk.
  case_bool_decide as Hs; [|by destruct Hs; eauto]. simpl. split; [|done].
  destruct text; [by rewrite toInt_empty in Hv | done].
Qed.

(** What [getNumericConfigError] decides. *)
Lemma getNumericConfigError_numeral serverConfig key name lowerBound upperBound value :
  numeral serverConfig key value →
  getNumericConfigError serverConfig key name lowerBound upperBound =
    if (upperBound =? -127) && (value <? lowerBound) then msgAbove name lowerBound
    else if (value <? lowerBound) || (upperBound <? value)
         then msgBetween name lowerBound upperBound
         else EmptyString.
Proof.
  intros [Hp Hv]%numeral_text. unfold getNumericConfigError.
  by rewrite Hp, Hv.
Qed.

Lemma getNumericConfigError_empty serverConfig key name lowerBound upperBound :
  getNumericConfigError serverConfig key name lowerBound upperBound = EmptyString ↔
  ∃ value, numeral serverConfig key value
           ∧ lowerBound ≤ value ∧ (value ≤ upperBound).
Proof.
  split.
  - unfold getNumericConfigError.
    destruct (negb _ || _) eqn:Hp; [discriminate|].
    apply present_text in Hp as (text & Hk & Hne & ->).
    destruct (QString.toInt text) as [v|] eqn:Hv; [|discriminate].
    destruct ((upperBound =? -127) && (v <? lowerBound)); [discriminate|].
    destruct ((v <? lowerBound) || (upperBound <? v)) eqn:Hr; [discriminate|].
    intros _. exists v. split; [by exists text|].
    apply orb_false_iff in Hr as [? ?]. lia.
  - intros (v & Hn & Hlo & Hhi).
    rewrite (getNumericConfigError_numeral _ _ _ _ _ v Hn).
    replace (v <? lowerBound) with false by (symmetry; apply Z.ltb_ge; lia).
    replace (upperBound <? v) with false by (symmetry; apply Z.ltb_ge; lia).
    by rewrite andb_false_r.
Qed.

Lemma dnsErrors_cases dnsServers :
  dnsErrors dnsServers = [] ∨ dnsErrors dnsServers = [msgInvalidDns].
Proof.
  induction dnsServers as [|d l IH]; simpl; [by left|].
  destruct (negb _); [by right | done].
Qed.

(** Splits the result of a check of a field into the messages it can be. *)
Ltac check_cases :=
  match goal with
  | |- context [getStringConfigError ?c ?k ?n ?cp] =>
      let Hc := fresh "Hc" in
      pose proof (getStringConfigError_cases c k n cp) as Hc;
      rewrite !elem_of_cons, elem_of_nil in Hc;
      destruct Hc as [Hc|[Hc|[Hc|[]]]]; rewrite Hc; clear Hc
  | |- context [getNumericConfigError ?c ?k ?n ?lo ?hi] =>
      let Hc := fresh "Hc" in
      pose proof (getNumericConfigError_cases c k n lo hi) as Hc;
      rewrite !elem_of_cons, elem_of_nil in Hc;
      destruct Hc as [Hc|[Hc|[Hc|[Hc|[Hc|[]]]]]]; rewrite Hc; clear Hc
  end.

(** The messages of the other fields of a server do not name the port. *)
Lemma stream_errors_other_field serverConfig network e :
  e ∈ getV2RayStreamSettingsErrors serverConfig network →
  namesField "Server Port" e = false.
Proof.
  unfold getV2RayStreamSettingsErrors.
  repeat case_match; rewrite ?elem_of_cons, ?elem_of_nil; intros He;
    repeat (destruct He as [->|He]; [check_cases; reflexivity|]); done.
Qed.

(** X1: with the bounds 0 and -127 of the capacity and buffer fields of
    mKCP, the check refuses every numeral that is not negative, with the
    message of a closed range. *)
Lemma unbounded_above_refuses serverConfig key name value :
  numeral serverConfig key value → 0 ≤ value →
  getNumericConfigError serverConfig key name 0 (-127) = msgBetween name 0 (-127).
Proof.
  intros Hn Hv. rewrite (getNumericConfigError_numeral _ _ _ _ _ value Hn).
  replace (value <? 0) with false by (symmetry; apply Z.ltb_ge; lia).
  replace (-127 <? value) with true by (symmetry; apply Z.ltb_lt; lia).
  reflexivity.
Qed.

(** With these bounds the check never returns the empty message. *)
Lemma unbounded_above_never_empty serverConfig key name :
  getNumericConfigError serverConfig key name 0 (-127) ≠ EmptyString.
Proof.
  intros (value & _ & Hlo & Hhi)%getNumericConfigError_empty. lia.
Qed.

(** X2: no VMESS record whose network is kcp passes validation. *)
Theorem kcp_server_never_valid (serverConfig : QJsonObject) :
  QJson.toString (QJson.value serverConfig "network") = "kcp" →
  getV2RayServerConfigErrors serverConfig ≠ [].
Proof.
  intros Hkcp. unfold getV2RayServerConfigErrors. rewrite removeAll_nil, Hkcp.
  intros Hall.
  apply (unbounded_above_never_empty serverConfig "kcpUpLink" (tr "Uplink Capacity")).
  apply Hall. rewrite elem_of_app. right.
  unfold getV2RayStreamSettingsErrors. cbn [String.eqb Ascii.eqb Bool.eqb].
  rewrite !elem_of_cons. auto.
Qed.

(** C1 (the code differs): the VMESS server [Samples.kcpServer], whose
    capacity and buffer fields are 5, 20, 2 and 2, gets one message of a
    closed range from 0 to -127 for each of these four fields, where the
    claim expects none. *)
Theorem kcp_capacity_fields_refused :
  getV2RayServerConfigErrors Samples.kcpServer =
    [ "The value of 'Uplink Capacity' should between 0 and -127.";
      "The value of 'Downlink Capacity' should between 0 and -127.";
      "The value of 'Read Buffer Size' should between 0 and -127.";
      "The value of 'Write Buffer Size' should between 0 and -127." ].
Proof. vm_compute. reflexivity. Qed.

(** C2 (amended): for every record, the validation of a VMESS server and
    that of a Shadowsocks server accept the port, giving no message that
    names 'Server Port', exactly when the field is a numeral from 0 to
    65535. *)
Theorem server_port_accepted_iff (serverConfig : QJsonObject) :
  (acceptsField "Server Port" (getV2RayServerConfigErrors serverConfig)
   ↔ ∃ port, numeral serverConfig "serverPort" port ∧ 0 ≤ port ≤ 65535)
  ∧ (acceptsField "Server Port" (getShadowsocksServerConfigErrors serverConfig)
     ↔ ∃ port, numeral serverConfig "serverPort" port ∧ 0 ≤ port ≤ 65535).
Proof.
  assert (Hport : ∀ errors : list string,
    getNumericConfigError serverConfig "serverPort" (tr "Server Port") 0 65535
      ∈ errors →
    acceptsField "Server Port" (removeAll EmptyString errors) →
    ∃ port, numeral serverConfig "serverPort" port ∧ 0 ≤ port ≤ 65535).
  { intros errors Hin Hacc.
    destruct (getNumericConfigError_empty serverConfig "serverPort"
                (tr "Server Port") 0 65535) as [Hempty _].
    destruct (decide (getNumericConfigError serverConfig "serverPort"
                        (tr "Server Port") 0 65535 = EmptyString)) as [He|He].
    - destruct (Hempty He) as (port & ? & ? & ?). exists port. split; [done|lia].
    - exfalso. specialize (Hacc _ (proj2 (removeAll_elem_of _ _ _) (conj He Hin))).
      revert He Hacc. check_cases; try done; vm_compute; discriminate. }
  assert (Hok : ∀ port, numeral serverConfig "serverPort" port → 0 ≤ port ≤ 65535 →
    getNumericConfigError serverConfig "serverPort" (tr "Server Port") 0 65535
      = EmptyString).
  { intros port Hn Hr. apply getNumericConfigError_empty. exists port.
    split; [done|lia]. }
  split; split.
  - apply Hport. unfold getV2RayServerConfigErrors. set_solver.
  - intros (port & Hn & Hr) e [Hne He]%removeAll_elem_of.
    apply elem_of_app in He as [He|He];
      [|by eapply stream_errors_other_field].
    rewrite (Hok port Hn Hr) in He.
    rewrite ?elem_of_cons, ?elem_of_nil in He.
    repeat (destruct He as [->|He]; [first [done | check_cases; reflexivity]|]).
    done.
  - apply Hport. unfold getShadowsocksServerConfigErrors. set_solver.
  - intros (port & Hn & Hr) e [Hne He]%removeAll_elem_of.
    rewrite (Hok port Hn Hr) in He.
    rewrite ?elem_of_cons, ?elem_of_nil in He.
    repeat (destruct He as [->|He]; [first [done | check_cases; reflexivity]|]).
    done.
Qed.

(** The rule on the two ports fires on texts: when the two fields hold the
    same text, the errors of validation hold its message exactly once,
    whatever the two ports are. *)
Lemma same_ports_reported_once (appConfig : QJsonObject) :
  QJson.toString (QJson.value appConfig "pacPort")
    = QJson.toString (QJson.value appConfig "serverPort") →
  occurrences "'PAC Server Port' can not be the same as 'Listening Port'."
    (getAppConfigErrors appConfig) = 1%nat.
Proof.
  intros Hsame. unfold getAppConfigErrors.
  rewrite Hsame, String.eqb_refl.
  rewrite occurrences_removeAll by done.
  assert (Hdns : ∀ l : list string,
    occurrences "'PAC Server Port' can not be the same as 'Listening Port'."
      (if negb (QJson.contains appConfig "dns")
          || QString.isEmpty (QJson.toString (QJson.value appConfig "dns"))
       then l ++ [msgMissingDns]
       else l ++ dnsErrors
              (QString.split "," (QJson.toString (QJson.value appConfig "dns"))))
    = occurrences "'PAC Server Port' can not be the same as 'Listening Port'." l).
  { intros l. destruct (negb _ || _); rewrite occurrences_app.
    - rewrite occurrences_cons_ne by done. unfold occurrences. simpl. lia.
    - destruct (dnsErrors_cases
        (QString.split "," (QJson.toString (QJson.value appConfig "dns"))))
        as [-> | ->]; [unfold occurrences; simpl; lia|].
      rewrite occurrences_cons_ne by done. unfold occurrences. simpl. lia. }
  rewrite Hdns. rewrite !occurrences_app.
  replace (occurrences _ [msgSamePort]) with 1%nat by reflexivity.
  rewrite !occurrences_cons_ne; [reflexivity|..]; check_cases; done.
Qed.

(** When the two fields hold different texts, the message of the rule is
    not in the errors, whatever the two ports are. *)
Lemma different_texts_not_reported (appConfig : QJsonObject) :
  QJson.toString (QJson.value appConfig "pacPort")
    ≠ QJson.toString (QJson.value appConfig "serverPort") →
  occurrences "'PAC Server Port' can not be the same as 'Listening Port'."
    (getAppConfigErrors appConfig) = 0%nat.
Proof.
  intros Hdiffer%String.eqb_neq. unfold getAppConfigErrors.
  rewrite Hdiffer.
  rewrite occurrences_removeAll by done.
  destruct (negb _ || _); rewrite !occurrences_app.
  - rewrite !occurrences_cons_ne; [reflexivity|..]; first [done|check_cases; done].
  - destruct (dnsErrors_cases
      (QString.split "," (QJson.toString (QJson.value appConfig "dns"))))
      as [-> | ->];
      rewrite !occurrences_cons_ne; [reflexivity|..];
      first [done|check_cases; done].
Qed.

End ValidationFacts.

(** ** The builders and the decoders *)

Section BuilderFacts.
Context `{Platform}.

Lemma numeral_toIntValue serverConfig key value :
  numeral serverConfig key value →
  QString.toIntValue (QJson.toString (QJson.value serverConfig key)) = value.
Proof.
  intros [_ Hv]%numeral_text. unfold QString.toIntValue. by rewrite Hv.
Qed.

(** The [mux] member of the object built for a VMESS server. *)
Lemma getPrettyV2RayConfig_mux serverConfig r :
  (getPrettyV2RayConfig serverConfig r).1 !! "mux" =
    Some (JObject
      {[ "enabled" :=
           JBool (negb (QString.toIntValue
             (QJson.toString (QJson.value serverConfig "mux")) =? 1));
         "concurrency" :=
           JDouble (QString.toIntValue
             (QJson.toString (QJson.value serverConfig "mux"))) ]}).
Proof.
  unfold getPrettyV2RayConfig, mbind, Rand_bind, mret, Rand_ret.
  destruct (getV2RayStreamSettingsConfig serverConfig r) as [streamSettings r'].
  simpl. reflexivity.
Qed.

(** C3: the object built for a VMESS server that passed validation has a
    [mux] member made of [enabled], true for every concurrency but 1, and
    of [concurrency], the value of the validated field, which lies between
    -1 and 1024. *)
Theorem validated_vmess_mux (serverConfig : QJsonObject) (r : RandState) :
  getV2RayServerConfigErrors serverConfig = [] →
  ∃ muxConcurrency,
    numeral serverConfig "mux" muxConcurrency
    ∧ -1 ≤ muxConcurrency ≤ 1024
    ∧ (getPrettyV2RayConfig serverConfig r).1 !! "mux" =
        Some (JObject {[ "enabled" := JBool (bool_decide (muxConcurrency ≠ 1));
                         "concurrency" := JDouble muxConcurrency ]}).
Proof.
  intros Hvalid. unfold getV2RayServerConfigErrors in Hvalid.
  rewrite removeAll_nil in Hvalid.
  assert (Hmux : getNumericConfigError serverConfig "mux" (tr "MUX") (-1) 1024
                 = EmptyString) by (apply Hvalid; set_solver).
  apply getNumericConfigError_empty in Hmux as (v & Hn & Hlo & Hhi).
  exists v. split; [done|]. split; [lia|].
  rewrite getPrettyV2RayConfig_mux, (numeral_toIntValue _ _ _ Hn).
  assert (Henabled : negb (v =? 1) = bool_decide (v ≠ 1)).
  { destruct (Z.eqb_spec v 1) as [->|Hne]; [reflexivity|].
    symmetry. by apply bool_decide_eq_true_2. }
  by rewrite Henabled.
Qed.

(** C4: for every share link, whatever its payload decodes to, the record
    decoded from it has the network tcp when the payload has no [net] or a
    [net] that is none of tcp, kcp, ws, h2 and quic, the alter ID 0 when
    the payload has no [aid], the multiplexing -1 and the security auto. *)
Theorem vmess_link_defaults (server subscriptionUrl : string) :
  let payload := fromJson (fromBase64 (QString.mid 8 (-1) server)) in
  let decoded := getV2RayServerFromUrl server subscriptionUrl in
  ((payload !! "net" = None
    ∨ QJson.toString (QJson.value payload "net")
        ∉ ["tcp"; "kcp"; "ws"; "h2"; "quic"]) →
   decoded !! "network" = Some (JString "tcp"))
  ∧ (payload !! "aid" = None → decoded !! "alterId" = Some (JDouble 0))
  ∧ decoded !! "mux" = Some (JDouble (-1))
  ∧ decoded !! "security" = Some (JString "auto").
Proof.
  intros payload decoded. subst decoded. unfold getV2RayServerFromUrl.
  fold payload.
  assert (Hmap : ∀ network : string,
    network ∉ ["tcp"; "kcp"; "ws"; "h2"; "quic"] →
    NETWORK_MAPPER !! network = None).
  { intros network Hout. unfold NETWORK_MAPPER. simpl.
    rewrite !lookup_insert_ne, lookup_empty; [done|..];
      intros <-; apply Hout; rewrite !elem_of_cons; tauto. }
  split; [|split; [|split]].
  - intros Hnet.
    assert (Hnone : NETWORK_MAPPER !!
      (if QJson.contains payload "net"
       then QJson.toString (QJson.value payload "net") else "tcp") = None
      ∨ QJson.contains payload "net" = false).
    { destruct Hnet as [Habsent|Hout].
      - right. unfold QJson.contains. rewrite Habsent.
        apply bool_decide_eq_false_2. by intros [? ?].
      - destruct (QJson.contains payload "net"); [left; by apply Hmap|by right]. }
    destruct Hnone as [Hnone|Hnone]; rewrite Hnone; reflexivity.
  - intros Habsent.
    assert (Hc : QJson.contains payload "aid" = false).
    { unfold QJson.contains. rewrite Habsent.
      apply bool_decide_eq_false_2. by intros [? ?]. }
    rewrite Hc. reflexivity.
  - reflexivity.
  - reflexivity.
Qed.

(** X3: the record decoded from a VMESS link holds its port, its alter ID
    and its multiplexing as numbers, and the builder reads them as texts:
    the server stored for the link has the port 0, the alter ID 0 and the
    multiplexing enabled with the concurrency 0, whatever the link says. *)
Theorem imported_vmess_numbers_lost (server subscriptionUrl : string)
    (r : RandState) :
  let built :=
    (getPrettyV2RayConfig (getV2RayServerFromUrl server subscriptionUrl) r).1 in
  ∃ address id,
    built !! "settings" =
      Some (JObject {[ "vnext" :=
        JArray [JObject
          (<["users" :=
               JArray [JObject
                 (<["security" := JString "auto"]>
                    (<["alterId" := JDouble 0]> {[ "id" := JString id ]}))]]>
             (<["port" := JDouble 0]> {[ "address" := JString address ]}))] ]})
  ∧ built !! "mux" =
      Some (JObject {[ "enabled" := JBool true; "concurrency" := JDouble 0 ]}).
Proof.
  intros built. subst built.
  unfold getPrettyV2RayConfig, mbind, Rand_bind, mret, Rand_ret.
  destruct (getV2RayStreamSettingsConfig _ r) as [streamSettings r'].
  eexists _, _. split; reflexivity.
Qed.

(** X4: likewise the server stored for a Shadowsocks link has the port
    0. *)
Theorem imported_shadowsocks_port_lost (server subscriptionUrl : string) :
  ∃ address method password,
    getPrettyShadowsocksConfig
      (getShadowsocksServerFromUrl server subscriptionUrl) !! "settings" =
      Some (JObject {[ "servers" :=
        JArray [JObject
          (<["password" := JString password]>
             (<["method" := JString method]>
                (<["port" := JDouble 0]> {[ "address" := JString address ]})))] ]}).
Proof.
  assert (Hport : QJson.toString (QJson.value
            (getShadowsocksServerFromUrl server subscriptionUrl) "serverPort")
          = EmptyString).
  { unfold getShadowsocksServerFromUrl, QJson.value.
    case_match; rewrite ?lookup_insert_ne by done; reflexivity. }
  unfold getPrettyShadowsocksConfig. rewrite Hport.
  eexists _, _, _. reflexivity.
Qed.

End BuilderFacts.

(** ** The slots *)

Section SlotFacts.
Context `{Platform} {Store : Type} `{Configurator Store}.

Lemma map_fold_storeLatency (latency table : gmap string QVariant) (name : string) :
  map_fold storeLatency table latency !! name =
    match latency !! name with
    | Some l => Some (VInt (QVariant_toInt l))
    | None => table !! name
    end.
Proof.
  revert name.
  apply (map_fold_weak_ind
    (λ r (m : gmap string QVariant), ∀ name,
       r !! name = match m !! name with
                   | Some l => Some (VInt (QVariant_toInt l))
                   | None => table !! name
                   end)).
  - intros name. by rewrite lookup_empty.
  - intros i x m r Hi IH name. unfold storeLatency.
    destruct (decide (i = name)) as [->|Hne].
    + by rewrite !lookup_insert_eq.
    + by rewrite !lookup_insert_ne.
Qed.

(** C8: a delivered result overwrites the cached latency of the names it
    holds and leaves that of every other name as it was; no name leaves
    the table; listing the servers reads the table only. *)
Theorem latency_table_updated_per_key (latency : gmap string QVariant)
    (st : AppProxy) :
  let st' := returnServerLatency latency st in
  (∀ name l, latency !! name = Some l →
     serverLatency st' !! name = Some (VInt (QVariant_toInt l)))
  ∧ (∀ name, latency !! name = None →
       serverLatency st' !! name = serverLatency st !! name)
  ∧ (∀ name, is_Some (serverLatency st !! name) →
       is_Some (serverLatency st' !! name))
  ∧ serverLatency (getServers st) = serverLatency st.
Proof.
  simpl. split; [|split; [|split]].
  - intros name l Hl. by rewrite map_fold_storeLatency, Hl.
  - intros name Hl. by rewrite map_fold_storeLatency, Hl.
  - intros name Hs. rewrite map_fold_storeLatency.
    destruct (latency !! name); eauto.
  - reflexivity.
Qed.

Lemma touch_lookup_ne (key key' : string) (o : QJsonObject) :
  key ≠ key' → QJsonObjectOps.touch key o !! key' = o !! key'.
Proof.
  intros Hne. unfold QJsonObjectOps.touch.
  destruct (o !! key); [done|]. by rewrite lookup_insert_ne.
Qed.

(** C7: when the validation of an update of the application configuration
    gives an error, the update changes nothing of the state but the
    signals: the one signal added carries the errors, and the engine is not
    restarted.  The configurator is written only when there is no error,
    and then with the update. *)
Theorem setAppConfig_all_or_nothing (configString : string) (st : AppProxy) :
  let appConfig := fromJson configString in
  let errors := getAppConfigErrors appConfig in
  let st' := setAppConfig configString st in
  (errors ≠ [] →
     configurator st' = configurator st
     ∧ serverLatency st' = serverLatency st
     ∧ events st' =
         events st ++ [Emit (appConfigError (QString.join lineFeed errors))])
  ∧ (configurator st' ≠ configurator st → errors = [])
  ∧ (errors = [] →
       configurator st' =
         cfg_setAppConfig
           (<["pacPort" := JDouble (QString.toIntValue
                (QJson.toString (QJson.value appConfig "pacPort")))]>
              (<["serverPort" := JDouble (QString.toIntValue
                   (QJson.toString (QJson.value appConfig "serverPort")))]>
                 (QJsonObjectOps.touch "autoStart" appConfig)))
           (configurator st)
       ∧ V2RayRestart ∈ events st').
Proof.
  intros appConfig errors st'. subst st'. unfold setAppConfig.
  fold appConfig. fold errors.
  destruct errors as [|e errors'] eqn:He; simpl.
  - split; [done|]. split; [done|]. intros _. split.
    + assert (Hlang : QJsonObjectOps.touch "language"
                        (QJsonObjectOps.touch "autoStart" appConfig)
                      = QJsonObjectOps.touch "autoStart" appConfig).
      { subst errors. unfold getAppConfigErrors in He.
        rewrite removeAll_nil in He.
        assert (Hl : getStringConfigError appConfig "language" (tr "Language") []
                     = EmptyString).
        { apply He. repeat case_match; rewrite ?elem_of_app, ?elem_of_cons;
            auto 10. }
        apply getStringConfigError_present in Hl as [v Hv].
        unfold QJsonObjectOps.touch at 1.
        rewrite (touch_lookup_ne "autoStart" "language") by done.
        by rewrite Hv. }
      rewrite Hlang. unfold QJson.value.
      rewrite lookup_insert_ne by done.
      by rewrite !(touch_lookup_ne "autoStart") by done.
    + rewrite !elem_of_app. left. right. by apply list_elem_of_singleton.
  - split; [|split; [|done]].
    + intros _. done.
    + intros Hne. by destruct Hne.
Qed.

(** C9 (the code differs): the rule that the PAC port can not be the same
    as the listening port is tested on the texts of the two fields, while
    the ranges are checked and the ports stored as the numbers the texts
    denote.  The message of the rule stands once when the texts are the
    same and never when they differ; so two fields that denote the same
    port in different texts get no message of the rule, and when nothing
    else is wrong the update is stored with the same number for both
    ports. *)
Theorem same_port_rule_compares_texts (configString : string) (st : AppProxy) :
  let appConfig := fromJson configString in
  let pacPort := QJson.toString (QJson.value appConfig "pacPort") in
  let serverPort := QJson.toString (QJson.value appConfig "serverPort") in
  (pacPort = serverPort →
   occurrences "'PAC Server Port' can not be the same as 'Listening Port'."
     (getAppConfigErrors appConfig) = 1%nat)
  ∧ (pacPort ≠ serverPort →
     occurrences "'PAC Server Port' can not be the same as 'Listening Port'."
       (getAppConfigErrors appConfig) = 0%nat)
  ∧ ∀ port,
      numeral appConfig "serverPort" port → numeral appConfig "pacPort" port →
      pacPort ≠ serverPort →
      getAppConfigErrors appConfig = [] →
      ∃ stored,
        configurator (setAppConfig configString st)
          = cfg_setAppConfig stored (configurator st)
        ∧ stored !! "serverPort" = Some (JDouble port)
        ∧ stored !! "pacPort" = Some (JDouble port).
Proof.
  intros appConfig pacPort serverPort. subst pacPort serverPort.
  split; [apply same_ports_reported_once|].
  split; [apply different_texts_not_reported|].
  intros port Hserver Hpac _ Hvalid.
  unfold setAppConfig. fold appConfig. rewrite Hvalid. simpl.
  eexists. split; [reflexivity|].
  assert (Hs : QJson.value
            (QJsonObjectOps.touch "language"
               (QJsonObjectOps.touch "autoStart" appConfig)) "serverPort"
          = QJson.value appConfig "serverPort").
  { unfold QJson.value. by rewrite !touch_lookup_ne. }
  assert (Hp : QJson.value
            (<["serverPort" := JDouble (QString.toIntValue
                 (QJson.toString (QJson.value appConfig "serverPort")))]>
               (QJsonObjectOps.touch "language"
                  (QJsonObjectOps.touch "autoStart" appConfig))) "pacPort"
          = QJson.value appConfig "pacPort").
  { unfold QJson.value. rewrite lookup_insert_ne by done.
    by rewrite !touch_lookup_ne. }
  rewrite Hs, Hp.
  rewrite (numeral_toIntValue _ _ _ Hserver), (numeral_toIntValue _ _ _ Hpac).
  split; [by rewrite lookup_insert_ne, lookup_insert_eq|].
  by rewrite lookup_insert_eq.
Qed.

Lemma getPrettyServerConfig_serverName serverConfig protocol r :
  getServerConfigErrors serverConfig protocol = [] →
  QJson.toString
    (QJson.value (getPrettyServerConfig serverConfig protocol r).1 "serverName")
  = QJson.toString (QJson.value serverConfig "serverName").
Proof.
  unfold getServerConfigErrors, getPrettyServerConfig.
  destruct (String.eqb protocol "vmess").
  - intros _. unfold getPrettyV2RayConfig, mbind, Rand_bind, mret, Rand_ret.
    destruct (getV2RayStreamSettingsConfig serverConfig r) as [streamSettings r'].
    reflexivity.
  - destruct (String.eqb protocol "shadowsocks"); [|discriminate].
    intros _. reflexivity.
Qed.

(** C10: when an edit succeeds on a server that has a cached latency and
    changes its name, the table afterwards has that latency under the new
    name and nothing under the old one; when the name is kept or the server
    had no cached latency the table is unchanged; the entries of all other
    names are unchanged in every case. *)
Theorem edit_moves_cached_latency (serverName protocol configString : string)
    (st : AppProxy) :
  let submitted := fromJson configString in
  let newServerName := QJson.toString (QJson.value submitted "serverName") in
  let built := (getPrettyServerConfig submitted protocol (randState st)).1 in
  let st' := editServer serverName protocol configString st in
  (getServerConfigErrors submitted protocol = [] →
   (cfg_editServer serverName built (configurator st)).1 = true →
   ∀ l, serverLatency st !! serverName = Some l →
        newServerName ≠ serverName →
        serverLatency st' !! newServerName = Some l
        ∧ serverLatency st' !! serverName = None)
  ∧ (newServerName = serverName ∨ serverLatency st !! serverName = None →
     serverLatency st' = serverLatency st)
  ∧ (∀ other, other ≠ serverName → other ≠ newServerName →
       serverLatency st' !! other = serverLatency st !! other).
Proof.
  intros submitted newServerName built st'.
  subst st'. unfold editServer. fold submitted.
  destruct (getServerConfigErrors submitted protocol) as [|e errors] eqn:He;
    simpl; [|by repeat split].
  pose proof (getPrettyServerConfig_serverName submitted protocol (randState st) He)
    as Hname.
  fold newServerName in Hname. fold built in Hname.
  unfold withRand.
  destruct (getPrettyServerConfig submitted protocol (randState st))
    as [serverConfig r] eqn:Hb.
  subst built. simpl in *.
  destruct (cfg_editServer serverName serverConfig (configurator st))
    as [edited store].
  simpl. destruct edited; [|by repeat split].
  rewrite Hname.
  destruct (serverLatency st !! serverName) as [l|] eqn:Hl; simpl;
    [|by repeat split].
  destruct (String.eqb_spec newServerName serverName) as [Heq|Hne]; simpl.
  - split; [by intros _ _ l' _ Hne|]. by split.
  - split; [|split].
    + intros _ _ l' [= <-] _. split.
      * by rewrite lookup_delete_ne, lookup_insert_eq.
      * by rewrite lookup_delete_eq.
    + intros [Heq|[=]]. by destruct Hne.
    + intros other Ho Hn. by rewrite lookup_delete_ne, lookup_insert_ne.
Qed.

(** *** The loop of the import *)

Lemma serverName_or_empty (serverConfig : QJsonObject) :
  (if QJson.contains serverConfig "serverName"
   then QJson.toString (QJson.value serverConfig "serverName")
   else EmptyString)
  = QJson.toString (QJson.value serverConfig "serverName").
Proof.
  unfold QJson.contains, QJson.value.
  case_bool_decide as Hs; [done|].
  destruct (serverConfig !! "serverName"); [|done].
  destruct Hs. eauto.
Qed.

Lemma recoverAndAdd_spec removedServers server serverConfig (st : AppProxy) :
  let st' := recoverAndAdd removedServers server serverConfig st in
  configurator st' =
    cfg_addServer (recovered removedServers serverConfig) (configurator st)
  ∧ serverLatency st' = serverLatency st
  ∧ randState st' = randState st
  ∧ ∃ e, events st' = events st ++ [e].
Proof.
  unfold recoverAndAdd, recovered, retainedFlag. rewrite serverName_or_empty.
  simpl. eauto.
Qed.

Lemma addSubscriptionServer_skipped removedServers subscriptionUrl
    (st : AppProxy) server :
  skipped subscriptionUrl server = true →
  addSubscriptionServer removedServers subscriptionUrl st server
  = record (warningFor subscriptionUrl server) st.
Proof.
  unfold skipped, obfuscated, unrecognized, addSubscriptionServer, warningFor.
  destruct (QString.startsWith "ss://" server); cbn [andb orb negb].
  - rewrite orb_false_r. by intros ->.
  - by intros ->%negb_true_iff.
Qed.

Lemma addSubscriptionServer_kept removedServers subscriptionUrl
    (st : AppProxy) server :
  skipped subscriptionUrl server = false →
  let st' := addSubscriptionServer removedServers subscriptionUrl st server in
  configurator st' =
    cfg_addServer
      (recovered removedServers (decoded subscriptionUrl (randState st) server))
      (configurator st)
  ∧ serverLatency st' = serverLatency st
  ∧ ∃ e, events st' = events st ++ [e].
Proof.
  unfold skipped, obfuscated, unrecognized, addSubscriptionServer, decoded.
  destruct (QString.startsWith "ss://" server); cbn [andb orb negb].
  - rewrite orb_false_r. intros ->.
    destruct (recoverAndAdd_spec removedServers server
      (getPrettyShadowsocksConfig (getShadowsocksServerFromUrl server subscriptionUrl))
      st) as (Hc & Hl & _ & He).
    done.
  - intros ->%negb_false_iff. unfold withRand.
    destruct (getPrettyV2RayConfig
      (getV2RayServerFromUrl server subscriptionUrl) (randState st))
      as [serverConfig r].
    destruct (recoverAndAdd_spec removedServers server serverConfig
      (setRandState r st)) as (Hc & Hl & _ & He).
    done.
Qed.

Lemma import_loop removedServers subscriptionUrl (servers : list string)
    (st : AppProxy) :
  let st' :=
    fold_left (addSubscriptionServer removedServers subscriptionUrl) servers st in
  (∃ profiles,
     Forall2 (importOf removedServers subscriptionUrl)
       (filter (λ server, skipped subscriptionUrl server = false) servers)
       profiles
     ∧ configurator st' =
         fold_left (λ store profile, cfg_addServer profile store) profiles
           (configurator st))
  ∧ serverLatency st' = serverLatency st
  ∧ ∃ more, events st' = events st ++ more
            ∧ ∀ server, server ∈ servers →
                skipped subscriptionUrl server = true →
                warningFor subscriptionUrl server ∈ more.
Proof.
  revert st. induction servers as [|server servers IH]; intros st; simpl.
  - split; [exists []; by split|]. split; [done|].
    exists []. rewrite app_nil_r. split; [done|]. by intros ? ?%elem_of_nil.
  - destruct (IH (addSubscriptionServer removedServers subscriptionUrl st server))
      as ((profiles & Hall & Hstore) & Hlat & more & Hev & Hwarn).
    rewrite filter_cons.
    destruct (skipped subscriptionUrl server) eqn:Hs.
    + case_decide; [congruence|].
      pose proof (addSubscriptionServer_skipped removedServers subscriptionUrl
                    st server Hs) as Hsk.
      rewrite Hsk in Hstore at 2. rewrite Hsk in Hlat at 2.
      rewrite Hsk in Hev at 2. simpl in Hstore, Hlat, Hev.
      split; [by exists profiles|]. split; [done|].
      exists (warningFor subscriptionUrl server :: more).
      split; [by rewrite Hev, <- app_assoc|].
      intros line [->|Hin]%elem_of_cons Hline; [by left|].
      right. by apply Hwarn.
    + case_decide; [|congruence].
      destruct (addSubscriptionServer_kept removedServers subscriptionUrl
                  st server Hs) as (Hc & Hl & e & He).
      split; [|split].
      * exists (recovered removedServers
                  (decoded subscriptionUrl (randState st) server) :: profiles).
        split; [constructor; [by exists (randState st)|done]|].
        simpl. by rewrite Hstore, Hc.
      * by rewrite Hlat.
      * exists (e :: more). split; [by rewrite Hev, He, <- app_assoc|].
        intros line [->|Hin]%elem_of_cons Hline; [congruence|].
        right. by apply Hwarn.
Qed.

(** C5: in the import of a bundle that is not empty, every line that is
    an obfuscated Shadowsocks link or has an unrecognised scheme leaves a
    warning, and the servers added to the store are the decoded records of
    all other lines, in their order. *)
Theorem bad_lines_skipped_batch_continues
    (subsriptionServers subsriptionUrl : string) (st : AppProxy) :
  subsriptionServers ≠ EmptyString →
  let servers := QString.split QRegularExpression.newline subsriptionServers in
  let removedServers :=
    (cfg_removeSubscriptionServers subsriptionUrl (configurator st)).1 in
  let store :=
    (cfg_removeSubscriptionServers subsriptionUrl (configurator st)).2 in
  let st' := addSubscriptionServers subsriptionServers subsriptionUrl st in
  (∀ server, server ∈ servers → skipped subsriptionUrl server = true →
     warningFor subsriptionUrl server ∈ events st')
  ∧ ∃ profiles,
      Forall2 (importOf removedServers subsriptionUrl)
        (filter (λ server, skipped subsriptionUrl server = false) servers)
        profiles
      ∧ configurator st' =
          fold_left (λ store profile, cfg_addServer profile store) profiles store.
Proof.
  intros Hne servers removedServers store st'.
  subst st' removedServers store. unfold addSubscriptionServers.
  assert (Hsize : (QString.size subsriptionServers =? 0) = false).
  { destruct subsriptionServers; [done|]. unfold QString.size. simpl. lia. }
  rewrite Hsize.
  destruct (cfg_removeSubscriptionServers subsriptionUrl (configurator st))
    as [removedServers store]. simpl. fold servers.
  destruct (import_loop removedServers subsriptionUrl servers
              (setConfigurator store st))
    as ((profiles & Hall & Hstore) & _ & more & Hev & Hwarn).
  split.
  - intros server Hin Hs. rewrite Hev. rewrite !elem_of_app. left. right.
    by apply Hwarn.
  - exists profiles. split; [done|]. by rewrite Hstore.
Qed.

End SlotFacts.

(** ** Importing a subscription again *)

Section ReimportFacts.
Context `{Platform}.

#[local] Existing Instance SpecStore.configurator.




(** The decoded record of a line carries the URL of the subscription. *)






(** Setting a flag by hand changes neither the name nor the subscription
    of a server. *)



(** The servers retained by name. *)





(** Adding servers to the store of the specification. *)










(** *** Servers but for their user agents *)





(** *** What the generator changes in a built server *)





(** *** Importing again, whatever the lines *)










(** *** The generator, line by line *)








End ReimportFacts.

(** ** Runs on the reference platform *)

Section ReferenceRuns.

#[local] Existing Instance Reference.platform.
#[local] Existing Instance SpecStore.configurator.

Import Runs.

(** C2, as the claim states it, fails: a VMESS server and a Shadowsocks
    server whose port is 0 pass validation without any error. *)
Lemma port_zero_is_accepted :
  Samples.vmessPortZero !! "serverPort" = Some (JString "0")
  ∧ Samples.shadowsocksPortZero !! "serverPort" = Some (JString "0")
  ∧ QString.toInt "0" = Some 0
  ∧ getV2RayServerConfigErrors Samples.vmessPortZero = []
  ∧ getShadowsocksServerConfigErrors Samples.shadowsocksPortZero = [].
Proof. vm_compute. done. Qed.

(** The rule on the two ports at [Samples.samePorts], whose two ports are
    the text 1080. *)
Lemma same_ports_reported_at_1080 :
  QJson.toString (QJson.value Samples.samePorts "pacPort") = "1080"
  ∧ QJson.toString (QJson.value Samples.samePorts "serverPort") = "1080"
  ∧ occurrences "'PAC Server Port' can not be the same as 'Listening Port'."
      (getAppConfigErrors Samples.samePorts) = 1%nat.
Proof.
  split; [reflexivity|]. split; [reflexivity|].
  apply same_ports_reported_once. reflexivity.
Defined.

(** C3 at [Samples.vmessMuxOff], which passes validation with the
    multiplexing -1. *)
Lemma validated_vmess_mux_witness :
  getV2RayServerConfigErrors Samples.vmessMuxOff = []
  ∧ ∃ muxConcurrency,
      numeral Samples.vmessMuxOff "mux" muxConcurrency
      ∧ -1 ≤ muxConcurrency ≤ 1024
      ∧ (getPrettyV2RayConfig (H := Reference.platform)
           Samples.vmessMuxOff 1).1 !! "mux" =
          Some (JObject {[ "enabled" := JBool (bool_decide (muxConcurrency ≠ 1));
                           "concurrency" := JDouble muxConcurrency ]}).
Proof.
  split; [vm_compute; reflexivity|].
  apply (validated_vmess_mux (H := Reference.platform) Samples.vmessMuxOff 1).
  vm_compute. reflexivity.
Defined.

(** On that server the member is enabled, with the concurrency -1. *)
Example vmess_mux_off :
  (getPrettyV2RayConfig (H := Reference.platform)
     Samples.vmessMuxOff 1).1 !! "mux" =
    Some (JObject {[ "enabled" := JBool true; "concurrency" := JDouble (-1) ]}).
Proof. vm_compute. reflexivity. Qed.

(** X1 at the uplink capacity 5 of [Samples.kcpServer]. *)
Lemma unbounded_above_refuses_witness :
  numeral Samples.kcpServer "kcpUpLink" 5
  ∧ getNumericConfigError Samples.kcpServer "kcpUpLink" "Uplink Capacity" 0 (-127)
    = "The value of 'Uplink Capacity' should between 0 and -127.".
Proof.
  assert (Hn : numeral Samples.kcpServer "kcpUpLink" 5)
    by (exists "5"; split; reflexivity).
  split; [exact Hn|].
  apply (unbounded_above_refuses Samples.kcpServer "kcpUpLink" "Uplink Capacity"
           5 Hn).
  lia.
Defined.

(** X2 at [Samples.kcpServer]. *)
Lemma kcp_server_never_valid_witness :
  QJson.toString (QJson.value Samples.kcpServer "network") = "kcp"
  ∧ getV2RayServerConfigErrors Samples.kcpServer ≠ [].
Proof.
  split; [reflexivity|].
  apply kcp_server_never_valid. reflexivity.
Defined.

(** The link Tokyo says port 443; the server stored for it has port 0. *)
Example tokyo_port_lost :
  QJson.value (fromJson (fromBase64 (QString.mid 8 (-1) Links.tokyo))) "port"
    = JDouble 443
  ∧ member "port"
      (default JNull
         (match member "vnext"
                  (member "settings"
                     (default JNull (SpecStore.servers (configurator imported) !! 0%nat)))
          with
          | JArray a => a !! 0%nat
          | _ => None
          end))
    = JDouble 0.
Proof. vm_compute. split; reflexivity. Qed.

(** The link Bare has no port, no alter ID and an unknown transport. *)
Example bare_link_decoded :
  (λ key, getV2RayServerFromUrl Links.bare Links.subscription !! key)
    <$> ["serverName"; "serverPort"; "alterId"; "mux"; "security"; "network"]
  = [ Some (JString "Bare"); Some (JDouble 0); Some (JDouble 0);
      Some (JDouble (-1)); Some (JString "auto"); Some (JString "tcp") ].
Proof. vm_compute. reflexivity. Qed.


(** The import of the bundle keeps Tokyo and Plain. *)
Example bundle_imported :
  SpecStore.serverNameOf <$> SpecStore.servers (configurator imported)
  = ["Tokyo"; "Plain"].
Proof. vm_compute. reflexivity. Qed.


(** C5 at the bundle of four lines. *)
Lemma bad_lines_skipped_batch_continues_witness :
  Links.bundle ≠ EmptyString
  ∧ (∀ server,
       server ∈ QString.split QRegularExpression.newline Links.bundle →
       skipped Links.subscription server = true →
       warningFor Links.subscription server ∈ events imported)
  ∧ ∃ profiles,
      Forall2
        (importOf
           (cfg_removeSubscriptionServers Links.subscription
              (configurator Links.fresh)).1
           Links.subscription)
        (filter (λ server, skipped Links.subscription server = false)
           (QString.split QRegularExpression.newline Links.bundle))
        profiles
      ∧ configurator imported =
          fold_left (λ store profile, cfg_addServer profile store) profiles
            (cfg_removeSubscriptionServers Links.subscription
               (configurator Links.fresh)).2.
Proof.
  split; [discriminate|].
  apply (bad_lines_skipped_batch_continues Links.bundle Links.subscription
           Links.fresh).
  discriminate.
Defined.


(** The servers of the bundle of three lines after the second import: the
    names, and the flags with the one of Tokyo set by hand. *)
Example mixed_flags_preserved :
  (λ server, (SpecStore.serverNameOf server, member "autoConnect" server))
    <$> SpecStore.servers (configurator MoreRuns.mixedTwice)
  = [("Camouflaged", JBool false); ("Tokyo", JBool true); ("Plain", JBool false)].
Proof. vm_compute. reflexivity. Qed.

(** After the second import Tokyo still connects automatically. *)
Example tokyo_flag_preserved :
  (λ server, (SpecStore.serverNameOf server, member "autoConnect" server))
    <$> SpecStore.servers (configurator importedAgain)
  = [("Tokyo", JBool true); ("Plain", JBool false)].
Proof. vm_compute. reflexivity. Qed.


(** The two ports are compared as texts: the ports 80 and 080 pass
    validation together. *)
Example ports_compared_as_texts :
  let appConfig :=
    Samples.text [ ("language", "en-US"); ("serverProtocol", "SOCKS");
                   ("serverIp", "127.0.0.1"); ("serverPort", "80");
                   ("pacPort", "080"); ("dns", "8.8.8.8") ] in
  QString.toInt "80" = Some 80 ∧ QString.toInt "080" = Some 80
  ∧ getAppConfigErrors appConfig = [].
Proof. vm_compute. done. Qed.

(** C7 at an update whose two ports are the same. *)
Lemma setAppConfig_all_or_nothing_witness :
  getAppConfigErrors (fromJson samePortsText)
    = ["'PAC Server Port' can not be the same as 'Listening Port'."]
  ∧ configurator (setAppConfig samePortsText imported) = configurator imported
  ∧ serverLatency (setAppConfig samePortsText imported) = serverLatency imported
  ∧ events (setAppConfig samePortsText imported) =
      events imported
      ++ [Emit (appConfigError
            (QString.join lineFeed (getAppConfigErrors (fromJson samePortsText))))].
Proof.
  split; [vm_compute; reflexivity|].
  apply (proj1 (setAppConfig_all_or_nothing samePortsText imported)).
  vm_compute. discriminate.
Defined.

(** C10 at the edit that renames Tokyo, whose latency is 120, to Osaka. *)
Lemma edit_moves_cached_latency_witness :
  serverLatency measured !! "Tokyo" = Some (VInt 120)
  ∧ serverLatency renamed !! "Osaka" = Some (VInt 120)
  ∧ serverLatency renamed !! "Tokyo" = None
  ∧ serverLatency renamed !! "Plain" = serverLatency measured !! "Plain".
Proof.
  split; [vm_compute; reflexivity|].
  pose proof (edit_moves_cached_latency "Tokyo" "shadowsocks" osakaText measured)
    as (Hmoved & _ & Hother).
  split; [|split].
  - apply (Hmoved ltac:(vm_compute; reflexivity) ltac:(vm_compute; reflexivity)
             (VInt 120) ltac:(vm_compute; reflexivity) ltac:(vm_compute; discriminate)).
  - apply (Hmoved ltac:(vm_compute; reflexivity) ltac:(vm_compute; reflexivity)
             (VInt 120) ltac:(vm_compute; reflexivity) ltac:(vm_compute; discriminate)).
  - apply Hother; vm_compute; discriminate.
Defined.

(** C8 at the delivery of two results on the fresh table. *)
Example latency_delivered :
  (λ name, serverLatency measured !! name) <$> ["Tokyo"; "Plain"; "Osaka"]
  = [Some (VInt 120); Some (VInt 85); None].
Proof. vm_compute. reflexivity. Qed.

End ReferenceRuns.

(** ** Regular expressions: the matcher and the language *)

Section RegexFacts.

Import QRegularExpression RegexLanguage.

Lemma app_nil_l_string (s : string) : EmptyString +:+ s = s.
Proof. reflexivity. Qed.

Lemma app_cons_string (a : ascii) (s1 s2 : string) :
  String a s1 +:+ s2 = String a (s1 +:+ s2).
Proof. reflexivity. Qed.

Lemma app_nil_r_string (s : string) : s +:+ EmptyString = s.
Proof.
  induction s as [|a s IH]; [done|]. by rewrite app_cons_string, IH.
Qed.

Lemma app_assoc_string (s1 s2 s3 : string) :
  (s1 +:+ s2) +:+ s3 = s1 +:+ (s2 +:+ s3).
Proof.
  induction s1 as [|a s1 IH]; [done|]. by rewrite !app_cons_string, IH.
Qed.

Lemma app_eq_nil_string (s1 s2 : string) :
  s1 +:+ s2 = EmptyString → s1 = EmptyString ∧ s2 = EmptyString.
Proof. destruct s1; [done|]. rewrite app_cons_string. discriminate. Qed.

Lemma lang_none_inv (s : string) : lang RNone s ↔ False.
Proof. split; [inversion 1|done]. Qed.

Lemma lang_eps_inv (s : string) : lang REps s ↔ s = EmptyString.
Proof. split; [by inversion 1|intros ->; constructor]. Qed.

Lemma lang_cls_inv (ranges : list (ascii * ascii)) (s : string) :
  lang (RCls ranges) s ↔
  ∃ a, s = String a EmptyString ∧ inClass a ranges = true.
Proof.
  split.
  - inversion 1; subst. eauto.
  - intros (a & -> & Ha). by constructor.
Qed.

Lemma lang_seq_inv (r1 r2 : regex) (s : string) :
  lang (RSeq r1 r2) s ↔ ∃ s1 s2, s = s1 +:+ s2 ∧ lang r1 s1 ∧ lang r2 s2.
Proof.
  split.
  - inversion 1; subst. eauto.
  - intros (s1 & s2 & -> & H1 & H2). by constructor.
Qed.

Lemma lang_alt_inv (r1 r2 : regex) (s : string) :
  lang (RAlt r1 r2) s ↔ lang r1 s ∨ lang r2 s.
Proof.
  split.
  - inversion 1; subst; auto.
  - intros [Hl|Hl]; [by apply lang_alt_l|by apply lang_alt_r].
Qed.

Lemma lang_star_cons (r : regex) (a : ascii) (s : string) :
  lang (RStar r) (String a s) ↔
  ∃ s1 s2, s = s1 +:+ s2 ∧ lang r (String a s1) ∧ lang (RStar r) s2.
Proof.
  split.
  - remember (RStar r) as r' eqn:Hr. remember (String a s) as t eqn:Ht.
    intros Hl. revert r a s Hr Ht.
    induction Hl as [|ranges b Hb|r1 r2 s1 s2 H1 IH1 H2 IH2|r1 r2 t H IH
                    |r1 r2 t H IH|r0|r0 s1 s2 H1 IH1 H2 IH2];
      intros r a s Hr Ht; try discriminate.
    injection Hr as ->. destruct s1 as [|b s1].
    + rewrite app_nil_l_string in Ht. by apply IH2.
    + rewrite app_cons_string in Ht. injection Ht as <- <-. eauto.
  - intros (s1 & s2 & -> & H1 & H2).
    by apply (lang_star_app r (String a s1) s2).
Qed.

Lemma nullable_lang (r : regex) : nullable r = true ↔ lang r EmptyString.
Proof.
  induction r as [| |ranges|r1 IH1 r2 IH2|r1 IH1 r2 IH2|r IH]; simpl.
  - by rewrite lang_none_inv.
  - by rewrite lang_eps_inv.
  - rewrite lang_cls_inv. split; [done|]. by intros (a & [=] & _).
  - rewrite andb_true_iff, IH1, IH2, lang_seq_inv. split.
    + intros [H1 H2]. by exists EmptyString, EmptyString.
    + intros (s1 & s2 & Hs & H1 & H2).
      symmetry in Hs. by apply app_eq_nil_string in Hs as [-> ->].
  - by rewrite orb_true_iff, IH1, IH2, lang_alt_inv.
  - split; [intros _; constructor|done].
Qed.

Lemma lang_seq_smart (r1 r2 : regex) (s : string) :
  lang (seq r1 r2) s ↔ lang (RSeq r1 r2) s.
Proof.
  assert (Hl : ∀ r, lang (RSeq REps r) s ↔ lang r s).
  { intros r. rewrite lang_seq_inv. split.
    - by intros (s1 & s2 & -> & ->%lang_eps_inv & H2).
    - intros Hr. exists EmptyString, s. split; [done|]. split; [constructor|done]. }
  assert (Hr : ∀ r, lang (RSeq r REps) s ↔ lang r s).
  { intros r. rewrite lang_seq_inv. split.
    - intros (s1 & s2 & -> & H1 & ->%lang_eps_inv). by rewrite app_nil_r_string.
    - intros H1. exists s, EmptyString. rewrite app_nil_r_string.
      split; [done|]. split; [done|constructor]. }
  assert (Hnl : ∀ r, lang (RSeq RNone r) s ↔ False).
  { intros r. rewrite lang_seq_inv. split; [|done].
    by intros (s1 & s2 & _ & ?%lang_none_inv & _). }
  assert (Hnr : ∀ r, lang (RSeq r RNone) s ↔ False).
  { intros r. rewrite lang_seq_inv. split; [|done].
    by intros (s1 & s2 & _ & _ & ?%lang_none_inv). }
  destruct r1, r2; simpl; rewrite ?Hl, ?Hr, ?Hnl, ?Hnr, ?lang_none_inv; done.
Qed.

Lemma lang_alt_smart (r1 r2 : regex) (s : string) :
  lang (alt r1 r2) s ↔ lang (RAlt r1 r2) s.
Proof.
  destruct r1, r2; simpl; rewrite ?lang_alt_inv, ?lang_none_inv; tauto.
Qed.

Lemma deriv_lang (a : ascii) (r : regex) (s : string) :
  lang (deriv a r) s ↔ lang r (String a s).
Proof.
  revert s.
  induction r as [| |ranges|r1 IH1 r2 IH2|r1 IH1 r2 IH2|r IH]; intros s; simpl.
  - by rewrite !lang_none_inv.
  - rewrite lang_none_inv, lang_eps_inv. done.
  - rewrite lang_cls_inv. destruct (inClass a ranges) eqn:Ha.
    + rewrite lang_eps_inv. split.
      * intros ->. eauto.
      * by intros (b & [= <- ->] & _).
    + rewrite lang_none_inv. split; [done|].
      intros (b & [= <- ->] & Hb). congruence.
  - assert (Hcons : lang (RSeq r1 r2) (String a s) ↔
      (∃ s1 s2, s = s1 +:+ s2 ∧ lang r1 (String a s1) ∧ lang r2 s2)
      ∨ (lang r1 EmptyString ∧ lang r2 (String a s))).
    { rewrite lang_seq_inv. split.
      - intros (s1 & s2 & Hs & H1 & H2). destruct s1 as [|b s1].
        + rewrite app_nil_l_string in Hs. right. by subst s2.
        + rewrite app_cons_string in Hs. injection Hs as <- ->. left. eauto.
      - intros [(s1 & s2 & -> & H1 & H2)|[H1 H2]].
        + by exists (String a s1), s2.
        + by exists EmptyString, (String a s). }
    assert (Hd : lang (seq (deriv a r1) r2) s ↔
      ∃ s1 s2, s = s1 +:+ s2 ∧ lang r1 (String a s1) ∧ lang r2 s2).
    { rewrite lang_seq_smart, lang_seq_inv.
      split; intros (s1 & s2 & -> & H1 & H2); exists s1, s2;
        (split; [done|]); (split; [by apply IH1|done]). }
    rewrite Hcons. destruct (nullable r1) eqn:Hn.
    + rewrite lang_alt_smart, lang_alt_inv, Hd, IH2.
      apply nullable_lang in Hn. tauto.
    + rewrite Hd. split; [tauto|]. intros [?|[Hn' _]]; [done|].
      apply nullable_lang in Hn'. congruence.
  - by rewrite lang_alt_smart, !lang_alt_inv, IH1, IH2.
  - rewrite lang_seq_smart, lang_seq_inv, lang_star_cons.
    split; intros (s1 & s2 & -> & H1 & H2); exists s1, s2;
      (split; [done|]); (split; [by apply IH|done]).
Qed.

(** The matcher decides the language. *)
Lemma matches_lang (r : regex) (s : string) : matches r s = true ↔ lang r s.
Proof.
  revert r. induction s as [|a s IH]; intros r; simpl.
  - apply nullable_lang.
  - by rewrite IH, deriv_lang.
Qed.

(** *** The end of the subject *)

Lemma rev_app_snoc (s acc : string) (a : ascii) :
  String.rev_app (s +:+ String a EmptyString) acc
  = String a (String.rev_app s acc).
Proof.
  revert acc. induction s as [|b s IH]; intros acc; [done|].
  rewrite app_cons_string. simpl. by rewrite IH.
Qed.

Lemma rev_app_app (s acc : string) :
  String.rev_app s acc = String.rev s +:+ acc.
Proof.
  unfold String.rev. revert acc.
  induction s as [|b s IH]; intros acc; [done|].
  simpl. rewrite (IH (String b EmptyString)), (IH (String b acc)).
  by rewrite app_assoc_string.
Qed.

Lemma rev_snoc (s : string) (a : ascii) :
  String.rev (s +:+ String a EmptyString) = String a (String.rev s).
Proof. apply rev_app_snoc. Qed.

Lemma rev_involutive_string (s : string) : String.rev (String.rev s) = s.
Proof.
  induction s as [|b s IH]; [done|].
  unfold String.rev at 2. simpl. rewrite rev_app_app, rev_snoc. by rewrite IH.
Qed.

Lemma chopNewline_spec (s s' : string) :
  chopNewline s = Some s' ↔ s = s' +:+ lineFeed.
Proof.
  unfold chopNewline, lineFeed. split.
  - destruct (String.rev s) as [|a t] eqn:Hr; [done|].
    destruct (Ascii.eqb_spec a newline) as [->|]; [|done].
    intros [= <-]. rewrite <- (rev_involutive_string s), Hr.
    unfold String.rev at 1. simpl. by rewrite rev_app_app.
  - intros ->. rewrite rev_snoc, Ascii.eqb_refl.
    by rewrite rev_involutive_string.
Qed.

(** What [hasMatch] decides: the subject, or the subject without the line
    feed that ends it, is in the language. *)
Lemma hasMatch_lang (r : regex) (subject : string) :
  hasMatch r subject = true ↔
  lang r subject ∨ ∃ s', subject = s' +:+ lineFeed ∧ lang r s'.
Proof.
  unfold hasMatch. rewrite orb_true_iff, matches_lang.
  split; intros [Hm|Hm]; auto; right.
  - destruct (chopNewline subject) as [s'|] eqn:Hc; [|done].
    exists s'. split; [by apply chopNewline_spec|by apply matches_lang].
  - destruct Hm as (s' & Hs & Hl). apply chopNewline_spec in Hs.
    rewrite Hs. by apply matches_lang.
Qed.

(** *** Characters of a class *)

Lemma inClass_range (a lo hi : ascii) :
  inClass a [(lo, hi)] = true →
  ∃ k, (nat_of_ascii lo ≤ k ≤ nat_of_ascii hi)%nat ∧ a = ascii_of_nat k.
Proof.
  unfold inClass, inRange. simpl. rewrite orb_false_r, andb_true_iff.
  intros [Hlo%Nat.leb_le Hhi%Nat.leb_le].
  exists (nat_of_ascii a). split; [done|]. by rewrite ascii_nat_embedding.
Qed.

Lemma lang_chr_inv (c : ascii) (s : string) :
  lang (chr c) s ↔ s = String c EmptyString.
Proof.
  unfold chr. rewrite lang_cls_inv. split.
  - intros (a & -> & (k & Hk & ->)%inClass_range).
    assert (k = nat_of_ascii c) as -> by lia. by rewrite ascii_nat_embedding.
  - intros ->. exists c. split; [done|].
    unfold inClass, inRange. simpl. by rewrite Nat.leb_refl.
Qed.

End RegexFacts.

(** ** IPv4 addresses *)

Section IpAddrFacts.

Import QRegularExpression RegexLanguage.

Lemma canonicalOctet_spec (text : string) :
  canonicalOctet text = true → ∃ n, isOctet n ∧ text = QString.number n.
Proof.
  unfold canonicalOctet. destruct (QString.toInt text) as [n|]; [|done].
  intros [[Hlo%Z.leb_le Hhi%Z.leb_le]%andb_true_iff Heq%String.eqb_eq]%andb_true_iff.
  exists n. by split.
Qed.

Lemma range_cases (lo hi k : nat) :
  (lo ≤ k ≤ hi)%nat → k ∈ List.seq lo (S hi - lo).
Proof. intros Hk. apply elem_of_seq. lia. Qed.

Lemma octet_sound (o : string) :
  lang octet o → ∃ n, isOctet n ∧ o = QString.number n.
Proof.
  intros Hl. apply canonicalOctet_spec. revert Hl.
  unfold octet, alts, seqs, rep, digit.
  rewrite !lang_alt_inv.
  intros [Hl|[Hl|[Hl|[Hl|Hl]]]]; revert Hl;
    rewrite ?lang_seq_inv;
    repeat (let s1 := fresh "s" in let s2 := fresh "s" in
            let H1 := fresh "H" in let H2 := fresh "H" in
            intros (s1 & s2 & -> & H1 & H2); revert H2;
            rewrite ?lang_seq_inv);
    rewrite ?lang_chr_inv, ?lang_cls_inv, ?lang_eps_inv;
    repeat match goal with
           | |- (∃ a, _ = String a EmptyString ∧ _) → _ =>
               let a := fresh "a" in let Ha := fresh "Ha" in
               intros (a & -> & Ha)
           | |- _ = _ → _ => intros ->
           end;
    repeat match goal with
           | H : lang (chr _) _ |- _ => apply lang_chr_inv in H; subst
           | H : lang (RCls _) _ |- _ =>
               let a := fresh "a" in let Ha := fresh "Ha" in
               apply lang_cls_inv in H as (a & -> & Ha)
           end;
    repeat match goal with
           | H : inClass _ [_] = true |- _ =>
               let k := fresh "k" in let Hk := fresh "Hk" in
               apply inClass_range in H as (k & Hk%range_cases & ->);
               match type of Hk with
               | ?x ∈ ?l =>
                   let l' := eval vm_compute in l in change (x ∈ l') in Hk
               end
           end.
  all: repeat match goal with
              | H : _ ∈ _ :: _ |- _ => apply elem_of_cons in H as [->|H]
              | H : _ ∈ [] |- _ => by apply elem_of_nil in H
              end; reflexivity.
Qed.

Lemma octet_complete (n : Z) : isOctet n → lang octet (QString.number n).
Proof.
  intros [Hlo Hhi]. apply matches_lang.
  assert (Hall : forallb (λ k, matches octet (QString.number (Z.of_nat k)))
                   (List.seq 0 256) = true) by (vm_compute; reflexivity).
  rewrite forallb_forall in Hall.
  rewrite <- (Z2Nat.id n) by done. apply Hall, in_seq. lia.
Qed.

Lemma octet_lang (o : string) :
  lang octet o ↔ ∃ n, isOctet n ∧ o = QString.number n.
Proof.
  split; [apply octet_sound|]. intros (n & Hn & ->). by apply octet_complete.
Qed.

Lemma ipAddrRegex_lang (s : string) :
  lang ipAddrRegex s ↔
  ∃ a b c d, isOctet a ∧ isOctet b ∧ isOctet c ∧ isOctet d
             ∧ s = dottedQuad a b c d.
Proof.
  unfold ipAddrRegex, seqs, rep, dottedQuad. split.
  - intros (s123 & o4 & -> & H123 & (d & Hd & ->)%octet_lang)%lang_seq_inv.
    apply lang_seq_inv in H123
      as (s1 & s23 & -> & (o1 & p1 & -> & (a & Ha & ->)%octet_lang
                              & ->%lang_chr_inv)%lang_seq_inv & H23).
    apply lang_seq_inv in H23
      as (s2 & s3 & -> & (o2 & p2 & -> & (b & Hb & ->)%octet_lang
                             & ->%lang_chr_inv)%lang_seq_inv & H3).
    apply lang_seq_inv in H3
      as (s3' & e & -> & (o3 & p3 & -> & (c & Hc & ->)%octet_lang
                            & ->%lang_chr_inv)%lang_seq_inv & ->%lang_eps_inv).
    exists a, b, c, d. repeat (split; [done|]).
    by rewrite app_nil_r_string, !app_assoc_string.
  - intros (a & b & c & d & Ha & Hb & Hc & Hd & ->).
    replace (QString.number a +:+ "." +:+ QString.number b +:+ "."
               +:+ QString.number c +:+ "." +:+ QString.number d)
      with (((QString.number a +:+ ".")
               +:+ ((QString.number b +:+ ".")
                      +:+ ((QString.number c +:+ ".") +:+ EmptyString)))
              +:+ QString.number d)
      by (by rewrite app_nil_r_string, !app_assoc_string).
    repeat (apply lang_seq; [|try by apply octet_complete]);
      try (by apply octet_complete); try (by apply lang_chr_inv);
      try constructor.
Qed.

(** X5: an address is accepted exactly when it is four numbers from 0 to
    255, written in decimal without leading zeros and separated by dots,
    or such an address followed by one line feed. *)
Theorem isIpAddrValid_dotted_quads (ipAddr : string) :
  isIpAddrValid ipAddr = true ↔
  ∃ a b c d, isOctet a ∧ isOctet b ∧ isOctet c ∧ isOctet d
             ∧ (ipAddr = dottedQuad a b c d
                ∨ ipAddr = dottedQuad a b c d +:+ lineFeed).
Proof.
  unfold isIpAddrValid. rewrite hasMatch_lang. split.
  - intros [Hl|(s' & -> & Hl)];
      apply ipAddrRegex_lang in Hl as (a & b & c & d & Ha & Hb & Hc & Hd & ->);
      exists a, b, c, d; auto 10.
  - intros (a & b & c & d & Ha & Hb & Hc & Hd & [->| ->]).
    + left. apply ipAddrRegex_lang. by exists a, b, c, d.
    + right. eexists. split; [done|]. apply ipAddrRegex_lang. by exists a, b, c, d.
Qed.

End IpAddrFacts.

(** ** Host names *)

Section DomainFacts.

Import QRegularExpression RegexLanguage.

Lemma within_nil (ranges : list (ascii * ascii)) : within ranges EmptyString.
Proof. constructor. Qed.

Lemma within_cons (ranges : list (ascii * ascii)) (a : ascii) (s : string) :
  within ranges (String a s) ↔ inClass a ranges = true ∧ within ranges s.
Proof. unfold within. simpl. by rewrite Forall_cons. Qed.

Lemma lang_upto_cls (n : nat) (ranges : list (ascii * ascii)) (u : string) :
  lang (upto n (RCls ranges)) u ↔
  (String.length u ≤ n)%nat ∧ within ranges u.
Proof.
  revert u. induction n as [|n IH]; intros u; simpl.
  - rewrite lang_eps_inv. split.
    + intros ->. split; [done|apply within_nil].
    + intros [Hlen _]. destruct u; [done|simpl in Hlen; lia].
  - unfold opt. rewrite lang_alt_inv, lang_eps_inv, lang_seq_inv. split.
    + intros [->|(s1 & s2 & -> & (a & -> & Ha)%lang_cls_inv & [Hlen Hw]%IH)].
      * split; [simpl; lia|apply within_nil].
      * rewrite app_cons_string, app_nil_l_string. split; [simpl; lia|].
        by apply within_cons.
    + intros [Hlen Hw]. destruct u as [|a u]; [by left|right].
      apply within_cons in Hw as [Ha Hw]. simpl in Hlen.
      exists (String a EmptyString), u. split; [done|].
      split; [by apply lang_cls_inv; eauto|]. apply IH. split; [lia|done].
Qed.

Lemma lang_star_inv (r : regex) (s : string) :
  lang (RStar r) s ↔
  ∃ parts, Forall (lang r) parts
           ∧ s = fold_right (λ part acc, part +:+ acc) EmptyString parts.
Proof.
  split.
  - remember (RStar r) as r' eqn:Hr. intros Hl. revert r Hr.
    induction Hl as [|ranges b Hb|r1 r2 s1 s2 H1 IH1 H2 IH2|r1 r2 t H IH
                    |r1 r2 t H IH|r0|r0 s1 s2 H1 IH1 H2 IH2];
      intros r Hr; try discriminate; injection Hr as ->.
    + by exists [].
    + destruct (IH2 r eq_refl) as (parts & Hall & ->).
      exists (s1 :: parts). split; [by constructor|done].
  - intros (parts & Hall & ->).
    induction Hall as [|part parts Hp Hall IH]; simpl; [constructor|].
    by apply lang_star_app.
Qed.

Lemma longLabel_lang (t : string) :
  lang (RSeq alnum (RSeq (upto 61 alnumDash) alnum)) t ↔ longLabel t.
Proof.
  unfold alnum, alnumDash, longLabel. rewrite lang_seq_inv. split.
  - intros (s1 & s2 & -> & (a & -> & Ha)%lang_cls_inv
              & (m & s3 & -> & [Hlen Hw]%lang_upto_cls
                   & (b & -> & Hb)%lang_cls_inv)%lang_seq_inv).
    exists a, m, b. by rewrite app_cons_string, app_nil_l_string.
  - intros (a & m & b & -> & Ha & Hb & Hlen & Hw).
    exists (String a EmptyString), (m +:+ String b EmptyString).
    split; [done|]. split; [apply lang_cls_inv; eauto|].
    apply lang_seq; [by apply lang_upto_cls|apply lang_cls_inv; eauto].
Qed.

Lemma hostLabel_lang (t : string) :
  lang (RSeq alnum
          (RSeq (opt (RSeq (upto 61 alnumDash) alnum)) (chr "."))) t ↔
  ∃ label, hostLabel label ∧ t = label +:+ ".".
Proof.
  unfold hostLabel. split.
  - intros (s1 & s2 & -> & (a & -> & Ha)%lang_cls_inv
              & (s3 & s4 & -> & Hopt & ->%lang_chr_inv)%lang_seq_inv)%lang_seq_inv.
    unfold opt in Hopt. apply lang_alt_inv in Hopt as [->%lang_eps_inv|Hlong].
    + exists (String a EmptyString). split; [left; eauto|done].
    + exists (String a s3). split; [|by rewrite !app_cons_string].
      right. apply longLabel_lang. apply lang_seq_inv.
      exists (String a EmptyString), s3. split; [done|].
      split; [apply lang_cls_inv; eauto|done].
  - intros (label & [(a & -> & Ha)|Hlong] & ->).
    + apply (lang_seq _ _ (String a EmptyString) (String "." EmptyString));
        [apply lang_cls_inv; eauto|].
      apply (lang_seq _ _ EmptyString (String "." EmptyString));
        [apply lang_alt_l; constructor|by apply lang_chr_inv].
    + apply longLabel_lang, lang_seq_inv in Hlong
        as (s1 & s2 & -> & Ha & H2).
      rewrite app_assoc_string. apply lang_seq; [done|].
      apply lang_seq; [by apply lang_alt_r|by apply lang_chr_inv].
Qed.

Lemma domainNameRegex_lang (s : string) : lang domainNameRegex s ↔ hostName s.
Proof.
  unfold domainNameRegex, seqs, plus, hostName.
  set (label := RSeq alnum
                  (RSeq (opt (RSeq (upto 61 alnumDash) alnum)) (chr "."))).
  assert (Hlabels : ∀ t, lang (RSeq label (RStar label)) t ↔
            ∃ labels, labels ≠ [] ∧ Forall hostLabel labels ∧ t = dotted labels).
  { intros t. rewrite lang_seq_inv. split.
    - intros (s1 & s2 & -> & (l & Hl & ->)%hostLabel_lang
                & (parts & Hall & ->)%lang_star_inv).
      assert (Hrest : ∃ labels, Forall hostLabel labels
                ∧ fold_right (λ part acc, part +:+ acc) EmptyString parts
                  = dotted labels).
      { clear l Hl. induction Hall as [|part parts Hp Hall IH].
        - by exists [].
        - destruct IH as (labels & Hlabels & Heq).
          apply hostLabel_lang in Hp as (l & Hl & ->).
          exists (l :: labels). split; [by constructor|].
          simpl. by rewrite Heq, app_assoc_string. }
      destruct Hrest as (labels & Hlabels & ->).
      exists (l :: labels). split; [done|]. split; [by constructor|].
      simpl. by rewrite app_assoc_string.
    - intros (labels & Hne & Hall & ->).
      destruct Hall as [|l labels Hl Hall]; [done|].
      exists (l +:+ "."), (dotted labels).
      split; [simpl; by rewrite app_assoc_string|].
      split; [apply hostLabel_lang; eauto|].
      clear Hne Hl. induction Hall as [|l' labels Hl' Hall IH];
        simpl; [constructor|].
      rewrite <- app_assoc_string. apply lang_star_app; [|done].
      apply hostLabel_lang. eauto. }
  rewrite lang_seq_inv. split.
  - intros (s1 & s2 & -> & (labels & Hne & Hall & ->)%Hlabels & Hlast%longLabel_lang).
    by exists labels, s2.
  - intros (labels & last & Hne & Hall & Hlast & ->).
    exists (dotted labels), last. split; [done|].
    split; [apply Hlabels; eauto|by apply longLabel_lang].
Qed.

(** X6: a host name is accepted exactly when it is one label or more,
    each followed by a dot, and a last label of two characters or more, or
    such a name followed by one line feed; a label has at most 63
    characters, a lowercase letter or a digit at both ends, and lowercase
    letters, digits and hyphens between them. *)
Theorem isDomainNameValid_host_names (domainName : string) :
  isDomainNameValid domainName = true ↔
  hostName domainName
  ∨ ∃ name, domainName = name +:+ lineFeed ∧ hostName name.
Proof.
  unfold isDomainNameValid. rewrite hasMatch_lang, domainNameRegex_lang.
  split; intros [Hh|(name & -> & Hh)]; auto; right; exists name;
    (split; [done|]); by apply domainNameRegex_lang.
Qed.

End DomainFacts.

(** ** More on validation *)

Section MoreValidationFacts.
Context `{Platform}.

Lemma naming_nil (label : string) : naming label [] = 0%nat.
Proof. reflexivity. Qed.

Lemma naming_cons (label e : string) (errors : list string) :
  naming label (e :: errors) =
    ((if namesField label e then 1 else 0) + naming label errors)%nat.
Proof.
  unfold naming. rewrite filter_cons.
  destruct (namesField label e); [by rewrite decide_True|by rewrite decide_False].
Qed.

Lemma naming_app (label : string) (l1 l2 : list string) :
  naming label (l1 ++ l2) = (naming label l1 + naming label l2)%nat.
Proof. unfold naming. by rewrite filter_app, length_app. Qed.

Lemma naming_removeAll (label : string) (errors : list string) :
  namesField label EmptyString = false →
  naming label (removeAll EmptyString errors) = naming label errors.
Proof.
  intros Hempty. induction errors as [|e errors IH]; [done|].
  unfold removeAll in *. rewrite filter_cons, naming_cons.
  destruct (decide (e ≠ EmptyString)) as [Hne|Heq].
  - by rewrite naming_cons, IH.
  - apply dec_stable in Heq. subst e. by rewrite Hempty, IH.
Qed.

Lemma naming_none (label : string) (errors : list string) :
  (∀ e, e ∈ errors → namesField label e = false) → naming label errors = 0%nat.
Proof.
  induction errors as [|e errors IH]; intros Hall; [done|].
  rewrite naming_cons, (Hall e) by (by left).
  apply IH. intros e' He'. apply Hall. by right.
Qed.

(** Splits the result of a check of a field into the messages it can be. *)
Ltac field_cases :=
  match goal with
  | |- context [getStringConfigError ?c ?k ?n ?cp] =>
      let Hc := fresh "Hc" in
      pose proof (getStringConfigError_cases c k n cp) as Hc;
      rewrite !elem_of_cons, elem_of_nil in Hc;
      destruct Hc as [Hc|[Hc|[Hc|[]]]]; rewrite Hc; clear Hc
  | |- context [getNumericConfigError ?c ?k ?n ?lo ?hi] =>
      let Hc := fresh "Hc" in
      pose proof (getNumericConfigError_cases c k n lo hi) as Hc;
      rewrite !elem_of_cons, elem_of_nil in Hc;
      destruct Hc as [Hc|[Hc|[Hc|[Hc|[Hc|[]]]]]]; rewrite Hc; clear Hc
  end.

(** Replaces by [false] the tests of a name on the checks of other
    fields. *)
Ltac other_fields :=
  repeat match goal with
         | |- context [namesField ?l (getStringConfigError ?c ?k ?n ?cp)] =>
             replace (namesField l (getStringConfigError c k n cp)) with false
               by (symmetry; field_cases; reflexivity)
         | |- context [namesField ?l (getNumericConfigError ?c ?k ?n ?lo ?hi)] =>
             replace (namesField l (getNumericConfigError c k n lo hi)) with false
               by (symmetry; field_cases; reflexivity)
         end.

Lemma stream_errors_name_none serverConfig network label :
  label ∈ ["Server Port"; "Alter ID"; "MUX"; "Server Address"] →
  naming label (getV2RayStreamSettingsErrors serverConfig network) = 0%nat.
Proof.
  intros Hlabel. apply naming_none. intros e.
  unfold getV2RayStreamSettingsErrors.
  rewrite !elem_of_cons, elem_of_nil in Hlabel.
  destruct Hlabel as [->|[->|[->|[->|[]]]]];
    repeat case_match; rewrite ?elem_of_cons, ?elem_of_nil; intros He;
    repeat (destruct He as [->|He]; [field_cases; reflexivity|]); done.
Qed.

(** The messages of a numeric check name its field, but the empty one. *)
Lemma numeric_check_names serverConfig key name lowerBound upperBound :
  name ∈ ["Server Port"; "Alter ID"; "MUX"] →
  (lowerBound, upperBound) ∈ [(0, 65535); (-1, 1024)] →
  namesField name (getNumericConfigError serverConfig key name lowerBound upperBound)
  = negb (String.eqb
            (getNumericConfigError serverConfig key name lowerBound upperBound)
            EmptyString).
Proof.
  rewrite !elem_of_cons, !elem_of_nil.
  intros [->|[->|[->|[]]]] [[= -> ->]|[[= -> ->]|[]]];
    field_cases; reflexivity.
Qed.

(** X7: in the errors of a VMESS server each of the three numeric fields
    (port, alter ID, multiplexing) is named by no message when it is a
    numeral within its bounds, and by exactly one message otherwise. *)
Theorem vmess_numeric_field_reported_once (serverConfig : QJsonObject)
    (key label : string) (lowerBound upperBound : Z) :
  (key, label, lowerBound, upperBound) ∈ vmessNumericFields →
  (withinBounds serverConfig key lowerBound upperBound →
   naming label (getV2RayServerConfigErrors serverConfig) = 0%nat)
  ∧ (¬ withinBounds serverConfig key lowerBound upperBound →
     naming label (getV2RayServerConfigErrors serverConfig) = 1%nat).
Proof.
  intros Hfield.
  assert (Hown : ∃ named : bool,
            namesField label
              (getNumericConfigError serverConfig key label lowerBound upperBound)
            = named
            ∧ (withinBounds serverConfig key lowerBound upperBound → named = false)
            ∧ (¬ withinBounds serverConfig key lowerBound upperBound → named = true)).
  { unfold vmessNumericFields in Hfield.
    rewrite !elem_of_cons, elem_of_nil in Hfield.
    eexists. split; [reflexivity|].
    rewrite numeric_check_names.
    - destruct (String.eqb_spec
        (getNumericConfigError serverConfig key label lowerBound upperBound)
        EmptyString) as [He|He].
      + split; [done|]. intros Hout. destruct Hout.
        apply getNumericConfigError_empty in He as (v & Hn & Hlo & Hhi).
        exists v. split; [done|lia].
      + split; [|done]. intros (v & Hn & Hlo & Hhi). destruct He.
        apply getNumericConfigError_empty. exists v. split; [done|lia].
    - destruct Hfield as [[= -> -> -> ->]|[[= -> -> -> ->]|[[= -> -> -> ->]|[]]]];
        rewrite !elem_of_cons; auto.
    - destruct Hfield as [[= -> -> -> ->]|[[= -> -> -> ->]|[[= -> -> -> ->]|[]]]];
        rewrite !elem_of_cons; auto. }
  destruct Hown as (named & Hown & Hin & Hout).
  assert (Hcount : naming label (getV2RayServerConfigErrors serverConfig)
                   = if named then 1%nat else 0%nat).
  { clear Hin Hout. unfold getV2RayServerConfigErrors.
    unfold vmessNumericFields in Hfield.
    rewrite !elem_of_cons, elem_of_nil in Hfield.
    destruct Hfield as [[= -> -> -> ->]|[[= -> -> -> ->]|[[= -> -> -> ->]|[]]]];
      rewrite naming_removeAll by reflexivity;
      rewrite naming_app, stream_errors_name_none by (rewrite !elem_of_cons; auto);
      rewrite !naming_cons, naming_nil; unfold tr in *; rewrite Hown;
      other_fields; by destruct named. }
  rewrite Hcount. split; intros Hb.
  - by rewrite Hin.
  - by rewrite Hout.
Qed.

Lemma textField_present serverConfig key text :
  textField serverConfig key text →
  negb (QJson.contains serverConfig key)
  || QString.isEmpty (QJson.toString (QJson.value serverConfig key)) = false
  ∧ QJson.toString (QJson.value serverConfig key) = text.
Proof.
  intros [Hk Hne]. unfold QJson.contains, QJson.value. rewrite Hk.
  case_bool_decide as Hs; [|by destruct Hs; eauto]. simpl. split; [|done].
  by destruct text.
Qed.

Lemma not_textField_absent serverConfig key :
  (∀ text, ¬ textField serverConfig key text) →
  negb (QJson.contains serverConfig key)
  || QString.isEmpty (QJson.toString (QJson.value serverConfig key)) = true.
Proof.
  intros Hno.
  destruct (negb _ || _) eqn:Hp; [done|].
  apply present_text in Hp as (text & Hk & Hne & _).
  by destruct (Hno text).
Qed.

(** What [getStringConfigError] decides with two predicates. *)
Lemma getStringConfigError_either serverConfig key name (p q : string → bool) :
  getStringConfigError serverConfig key name [p; q] = EmptyString ↔
  ∃ text, textField serverConfig key text ∧ (p text = true ∨ q text = true).
Proof.
  unfold getStringConfigError. split.
  - destruct (negb _ || _) eqn:Hp; [discriminate|].
    apply present_text in Hp as (text & Hk & Hne & ->). simpl.
    intros Hm. exists text. split; [done|].
    destruct (p text), (q text); auto; discriminate.
  - intros (text & [Hp Ht]%textField_present & Hm). rewrite Hp, Ht. simpl.
    destruct Hm as [-> | ->]; [by destruct (q text)|done].
Qed.

(** X8: the address of a server (VMESS or Shadowsocks) is accepted exactly
    when it is a non-empty string that is a valid IPv4 address or a valid
    domain name: one of the two predicates is enough. *)
Theorem server_address_accepted_iff (serverConfig : QJsonObject) :
  (acceptsField "Server Address" (getV2RayServerConfigErrors serverConfig)
   ↔ ∃ text, textField serverConfig "serverAddr" text
             ∧ (isIpAddrValid text = true ∨ isDomainNameValid text = true))
  ∧ (acceptsField "Server Address" (getShadowsocksServerConfigErrors serverConfig)
     ↔ ∃ text, textField serverConfig "serverAddr" text
               ∧ (isIpAddrValid text = true ∨ isDomainNameValid text = true)).
Proof.
  assert (Haddr : ∀ errors : list string,
    getStringConfigError serverConfig "serverAddr" (tr "Server Address")
      [isIpAddrValid; isDomainNameValid] ∈ errors →
    acceptsField "Server Address" (removeAll EmptyString errors) →
    ∃ text, textField serverConfig "serverAddr" text
            ∧ (isIpAddrValid text = true ∨ isDomainNameValid text = true)).
  { intros errors Hin Hacc.
    destruct (decide (getStringConfigError serverConfig "serverAddr"
                        (tr "Server Address") [isIpAddrValid; isDomainNameValid]
                      = EmptyString)) as [He|He].
    - by apply getStringConfigError_either in He.
    - exfalso. specialize (Hacc _ (proj2 (removeAll_elem_of _ _ _) (conj He Hin))).
      revert He Hacc. field_cases; try done; vm_compute; discriminate. }
  split; split.
  - apply Haddr. unfold getV2RayServerConfigErrors. set_solver.
  - intros Hok e [Hne He]%removeAll_elem_of.
    apply elem_of_app in He as [He|He].
    + rewrite (proj2 (getStringConfigError_either serverConfig "serverAddr"
                        (tr "Server Address") _ _) Hok) in He.
      rewrite ?elem_of_cons, ?elem_of_nil in He.
      repeat (destruct He as [->|He]; [first [done | field_cases; reflexivity]|]).
      done.
    + assert (Hnone := stream_errors_name_none serverConfig
        (QJson.toString (QJson.value serverConfig "network")) "Server Address").
      unfold naming in Hnone.
      assert (Hnil : filter (λ e, namesField "Server Address" e = true)
                (getV2RayStreamSettingsErrors serverConfig
                   (QJson.toString (QJson.value serverConfig "network"))) = []).
      { apply length_zero_iff_nil, Hnone. rewrite !elem_of_cons. auto. }
      destruct (namesField "Server Address" e) eqn:Hn; [|done].
      assert (Hf : e ∈ filter (λ e, namesField "Server Address" e = true)
                (getV2RayStreamSettingsErrors serverConfig
                   (QJson.toString (QJson.value serverConfig "network"))))
        by (by rewrite list_elem_of_filter).
      rewrite Hnil in Hf. by apply elem_of_nil in Hf.
  - apply Haddr. unfold getShadowsocksServerConfigErrors. set_solver.
  - intros Hok e [Hne He]%removeAll_elem_of.
    rewrite (proj2 (getStringConfigError_either serverConfig "serverAddr"
                      (tr "Server Address") _ _) Hok) in He.
    rewrite ?elem_of_cons, ?elem_of_nil in He.
    repeat (destruct He as [->|He]; [first [done | field_cases; reflexivity]|]).
    done.
Qed.

Lemma occurrences_dnsErrors (dnsServers : list string) :
  occurrences msgInvalidDns (dnsErrors dnsServers) =
    if forallb (λ dnsServer, isIpAddrValid (QString.trimmed dnsServer)) dnsServers
    then 0%nat else 1%nat.
Proof.
  induction dnsServers as [|d l IH]; [done|]. simpl.
  by destruct (isIpAddrValid (QString.trimmed d)).
Qed.

(** X9: the DNS servers of the application settings are checked one by one
    until the first invalid one.  With a non-empty text, the errors hold the
    message of an invalid list once when some entry between commas is not,
    once trimmed, a valid IPv4 address, and never otherwise; a missing or
    empty field gives the message of a missing value once, and never the one
    of an invalid list. *)
Theorem dns_servers_reported_once (appConfig : QJsonObject) :
  (∀ text, textField appConfig "dns" text →
     occurrences "'DNS Servers' seems invalid." (getAppConfigErrors appConfig)
       = (if forallb (λ dnsServer, isIpAddrValid (QString.trimmed dnsServer))
                     (QString.split "," text)
          then 0%nat else 1%nat)
     ∧ occurrences "Missing the value of 'DNS Servers'."
         (getAppConfigErrors appConfig) = 0%nat)
  ∧ ((∀ text, ¬ textField appConfig "dns" text) →
     occurrences "Missing the value of 'DNS Servers'."
       (getAppConfigErrors appConfig) = 1%nat
     ∧ occurrences "'DNS Servers' seems invalid."
         (getAppConfigErrors appConfig) = 0%nat).
Proof.
  assert (Hhead : ∀ m : string,
    m ∈ ["'DNS Servers' seems invalid."; "Missing the value of 'DNS Servers'."] →
    ∀ tail : list string,
    occurrences m
      ((if String.eqb (QJson.toString (QJson.value appConfig "pacPort"))
                      (QJson.toString (QJson.value appConfig "serverPort"))
        then [getStringConfigError appConfig "language" (tr "Language") []]
             ++ [getStringConfigError appConfig "serverProtocol"
                   (tr "Local Server Protocol") []]
             ++ [getStringConfigError appConfig "serverIp"
                   (tr "Listening IP Address") [isIpAddrValid]]
             ++ [getNumericConfigError appConfig "serverPort"
                   (tr "Listening Port") 1 65535]
             ++ [getNumericConfigError appConfig "pacPort"
                   (tr "PAC Server Port") 1 65535]
             ++ [msgSamePort]
        else [getStringConfigError appConfig "language" (tr "Language") []]
             ++ [getStringConfigError appConfig "serverProtocol"
                   (tr "Local Server Protocol") []]
             ++ [getStringConfigError appConfig "serverIp"
                   (tr "Listening IP Address") [isIpAddrValid]]
             ++ [getNumericConfigError appConfig "serverPort"
                   (tr "Listening Port") 1 65535]
             ++ [getNumericConfigError appConfig "pacPort"
                   (tr "PAC Server Port") 1 65535]) ++ tail)
    = occurrences m tail).
  { intros m Hm tail. rewrite !elem_of_cons, elem_of_nil in Hm.
    destruct Hm as [->|[->|[]]]; destruct (String.eqb _ _); simpl;
      rewrite !occurrences_cons_ne; try reflexivity; try done;
      field_cases; done. }
  assert (Hshape : ∀ m : string,
    m ∈ ["'DNS Servers' seems invalid."; "Missing the value of 'DNS Servers'."] →
    occurrences m (getAppConfigErrors appConfig) =
    occurrences m
      (if negb (QJson.contains appConfig "dns")
          || QString.isEmpty (QJson.toString (QJson.value appConfig "dns"))
       then [msgMissingDns]
       else dnsErrors
              (QString.split "," (QJson.toString (QJson.value appConfig "dns"))))).
  { intros m Hm. unfold getAppConfigErrors.
    rewrite occurrences_removeAll
      by (rewrite !elem_of_cons, elem_of_nil in Hm; by destruct Hm as [->|[->|[]]]).
    etrans; [|apply (Hhead m Hm)]. f_equal.
    destruct (negb _ || _), (String.eqb _ _); simpl; by rewrite <- ?app_assoc. }
  split.
  - intros text [Hp Ht]%textField_present.
    rewrite !Hshape by (rewrite !elem_of_cons; auto).
    rewrite Hp, Ht. split; [apply occurrences_dnsErrors|].
    by destruct (dnsErrors_cases (QString.split "," text)) as [-> | ->].
  - intros Hp%not_textField_absent.
    rewrite !Hshape by (rewrite !elem_of_cons; auto).
    by rewrite Hp.
Qed.

End MoreValidationFacts.

(** ** Adding servers *)

Section AddServerFacts.
Context `{Platform} {Store : Type} `{Configurator Store}.

(** What [getStringConfigError] decides without predicates. *)
Lemma getStringConfigError_text serverConfig key name :
  getStringConfigError serverConfig key name [] = EmptyString ↔
  ∃ text, textField serverConfig key text.
Proof.
  unfold getStringConfigError. split.
  - destruct (negb _ || _) eqn:Hp; [discriminate|].
    apply present_text in Hp as (text & Hk & Hne & _). intros _.
    by exists text.
  - intros (text & [Hp Ht]%textField_present). by rewrite Hp.
Qed.

Lemma textField_toString serverConfig key text :
  textField serverConfig key text →
  QJson.toString (QJson.value serverConfig key) = text.
Proof. by intros [_ Ht]%textField_present. Qed.

(** The fields of a Shadowsocks server that passed validation. *)
Lemma validated_shadowsocks_fields serverConfig :
  getShadowsocksServerConfigErrors serverConfig = [] →
  ∃ name address port method password,
    textField serverConfig "serverName" name
    ∧ textField serverConfig "serverAddr" address
    ∧ (isIpAddrValid address = true ∨ isDomainNameValid address = true)
    ∧ numeral serverConfig "serverPort" port ∧ 0 ≤ port ≤ 65535
    ∧ textField serverConfig "encryption" method
    ∧ textField serverConfig "password" password.
Proof.
  unfold getShadowsocksServerConfigErrors. rewrite removeAll_nil. intros Hall.
  assert (Hname : getStringConfigError serverConfig "serverName"
            (tr "Server Name") [] = EmptyString)
    by (apply Hall; rewrite !elem_of_cons; auto 10).
  assert (Haddr : getStringConfigError serverConfig "serverAddr"
            (tr "Server Address") [isIpAddrValid; isDomainNameValid] = EmptyString)
    by (apply Hall; rewrite !elem_of_cons; auto 10).
  assert (Hport : getNumericConfigError serverConfig "serverPort"
            (tr "Server Port") 0 65535 = EmptyString)
    by (apply Hall; rewrite !elem_of_cons; auto 10).
  assert (Hmethod : getStringConfigError serverConfig "encryption"
            (tr "Security") [] = EmptyString)
    by (apply Hall; rewrite !elem_of_cons; auto 10).
  assert (Hpassword : getStringConfigError serverConfig "password"
            (tr "Password") [] = EmptyString)
    by (apply Hall; rewrite !elem_of_cons; auto 10).
  apply getStringConfigError_text in Hname as [name Hname].
  apply getStringConfigError_either in Haddr as (address & Haddr & Hvalid).
  apply getNumericConfigError_empty in Hport as (port & Hport & Hlo & Hhi).
  apply getStringConfigError_text in Hmethod as [method Hmethod].
  apply getStringConfigError_text in Hpassword as [password Hpassword].
  exists name, address, port, method, password.
  repeat (split; [first [done|lia]|]); done.
Qed.

(** The fields of a VMESS server that passed validation. *)
Lemma validated_vmess_fields serverConfig :
  getV2RayServerConfigErrors serverConfig = [] →
  ∃ name address port id alterId security,
    textField serverConfig "serverName" name
    ∧ textField serverConfig "serverAddr" address
    ∧ (isIpAddrValid address = true ∨ isDomainNameValid address = true)
    ∧ numeral serverConfig "serverPort" port ∧ 0 ≤ port ≤ 65535
    ∧ textField serverConfig "id" id
    ∧ numeral serverConfig "alterId" alterId ∧ 0 ≤ alterId ≤ 65535
    ∧ textField serverConfig "security" security.
Proof.
  unfold getV2RayServerConfigErrors. rewrite removeAll_nil. intros Hall.
  assert (Hname : getStringConfigError serverConfig "serverName"
            (tr "Server Name") [] = EmptyString)
    by (apply Hall; rewrite elem_of_app, !elem_of_cons; auto 10).
  assert (Haddr : getStringConfigError serverConfig "serverAddr"
            (tr "Server Address") [isIpAddrValid; isDomainNameValid] = EmptyString)
    by (apply Hall; rewrite elem_of_app, !elem_of_cons; auto 10).
  assert (Hport : getNumericConfigError serverConfig "serverPort"
            (tr "Server Port") 0 65535 = EmptyString)
    by (apply Hall; rewrite elem_of_app, !elem_of_cons; auto 10).
  assert (Hid : getStringConfigError serverConfig "id" (tr "ID") [] = EmptyString)
    by (apply Hall; rewrite elem_of_app, !elem_of_cons; auto 10).
  assert (Halter : getNumericConfigError serverConfig "alterId"
            (tr "Alter ID") 0 65535 = EmptyString)
    by (apply Hall; rewrite elem_of_app, !elem_of_cons; auto 10).
  assert (Hsecurity : getStringConfigError serverConfig "security"
            (tr "Security") [] = EmptyString)
    by (apply Hall; rewrite elem_of_app, !elem_of_cons; auto 10).
  apply getStringConfigError_text in Hname as [name Hname].
  apply getStringConfigError_either in Haddr as (address & Haddr & Hvalid).
  apply getNumericConfigError_empty in Hport as (port & Hport & Hlo & Hhi).
  apply getStringConfigError_text in Hid as [id Hid].
  apply getNumericConfigError_empty in Halter as (alterId & Halter & Hlo' & Hhi').
  apply getStringConfigError_text in Hsecurity as [security Hsecurity].
  exists name, address, port, id, alterId, security.
  repeat (split; [first [done|lia]|]); done.
Qed.

(** X10: [addShadowsocksServer] saves all or nothing.  With an error the
    configurator is untouched and the only event is the signal of the
    errors.  Without error the server given to the configurator has the
    name, the address, the port as the number its text denotes, the
    method in lower case and the password of the validated record. *)
Theorem addShadowsocksServer_all_or_nothing (configString : string)
    (st : AppProxy) :
  let serverConfig := fromJson configString in
  let errors := getShadowsocksServerConfigErrors serverConfig in
  let st' := addShadowsocksServer configString st in
  (errors ≠ [] →
     configurator st' = configurator st
     ∧ serverLatency st' = serverLatency st
     ∧ events st' =
         events st ++ [Emit (serverConfigError (QString.join lineFeed errors))])
  ∧ (errors = [] →
     ∃ name address port method password stored,
       textField serverConfig "serverName" name
       ∧ textField serverConfig "serverAddr" address
       ∧ (isIpAddrValid address = true ∨ isDomainNameValid address = true)
       ∧ numeral serverConfig "serverPort" port ∧ 0 ≤ port ≤ 65535
       ∧ textField serverConfig "encryption" method
       ∧ textField serverConfig "password" password
       ∧ configurator st' = cfg_addServer stored (configurator st)
       ∧ stored !! "serverName" = Some (JString name)
       ∧ stored !! "protocol" = Some (JString "shadowsocks")
       ∧ stored !! "settings" =
           Some (JObject {[ "servers" :=
             JArray [JObject
               (<["password" := JString password]>
                  (<["method" := JString (QString.toLower method)]>
                     (<["port" := JDouble port]>
                        {[ "address" := JString address ]})))] ]})
       ∧ events st' =
           events st ++
           [ Emit serversChanged;
             QInfo ("Add new Shadowsocks server [Name=" +:+ name
                      +:+ ", Addr=" +:+ address +:+ "].") ]).
Proof.
  intros serverConfig errors st'. subst st'. unfold addShadowsocksServer.
  fold serverConfig. fold errors.
  destruct errors as [|e errors'] eqn:He; simpl.
  - split; [done|]. intros _.
    destruct (validated_shadowsocks_fields serverConfig He)
      as (name & address & port & method & password
          & Hname & Haddr & Hvalid & Hport & Hrange & Hmethod & Hpassword).
    exists name, address, port, method, password,
      (getPrettyShadowsocksConfig serverConfig).
    repeat (split; [done|]).
    unfold getPrettyShadowsocksConfig.
    rewrite (textField_toString _ _ _ Hname), (textField_toString _ _ _ Haddr),
      (textField_toString _ _ _ Hmethod), (textField_toString _ _ _ Hpassword),
      (numeral_toIntValue _ _ _ Hport).
    repeat split; try reflexivity.
    by rewrite <- app_assoc.
  - split; [|done]. intros _. done.
Qed.

(** X11: [addV2RayServer] saves all or nothing.  With an error the
    configurator, the latencies and the random generator are untouched and
    the only event is the signal of the errors.  Without error the server
    given to the configurator has the name, the address, the port and the
    alter ID as the numbers their texts denote, the ID and the security in
    lower case of the validated record. *)
Theorem addV2RayServer_all_or_nothing (configString : string) (st : AppProxy) :
  let serverConfig := fromJson configString in
  let errors := getV2RayServerConfigErrors serverConfig in
  let st' := addV2RayServer configString st in
  (errors ≠ [] →
     configurator st' = configurator st
     ∧ serverLatency st' = serverLatency st
     ∧ randState st' = randState st
     ∧ events st' =
         events st ++ [Emit (serverConfigError (QString.join lineFeed errors))])
  ∧ (errors = [] →
     ∃ name address port id alterId security stored,
       textField serverConfig "serverName" name
       ∧ textField serverConfig "serverAddr" address
       ∧ (isIpAddrValid address = true ∨ isDomainNameValid address = true)
       ∧ numeral serverConfig "serverPort" port ∧ 0 ≤ port ≤ 65535
       ∧ textField serverConfig "id" id
       ∧ numeral serverConfig "alterId" alterId ∧ 0 ≤ alterId ≤ 65535
       ∧ textField serverConfig "security" security
       ∧ configurator st' = cfg_addServer stored (configurator st)
       ∧ stored !! "serverName" = Some (JString name)
       ∧ stored !! "protocol" = Some (JString "vmess")
       ∧ stored !! "settings" =
           Some (JObject {[ "vnext" :=
             JArray [JObject
               (<["users" :=
                    JArray [JObject
                      (<["security" := JString (QString.toLower security)]>
                         (<["alterId" := JDouble alterId]>
                            {[ "id" := JString id ]}))]]>
                  (<["port" := JDouble port]>
                     {[ "address" := JString address ]}))] ]})
       ∧ events st' =
           events st ++
           [ Emit serversChanged;
             QInfo ("Add new V2Ray server [Name=" +:+ name
                      +:+ ", Addr=" +:+ address +:+ "].") ]).
Proof.
  intros serverConfig errors st'. subst st'. unfold addV2RayServer.
  fold serverConfig. fold errors.
  destruct errors as [|e errors'] eqn:He; simpl.
  - split; [done|]. intros _.
    destruct (validated_vmess_fields serverConfig He)
      as (name & address & port & id & alterId & security
          & Hname & Haddr & Hvalid & Hport & Hrange & Hid & Halter & Hrange'
          & Hsecurity).
    exists name, address, port, id, alterId, security,
      (getPrettyV2RayConfig serverConfig (randState st)).1.
    repeat (split; [done|]).
    unfold withRand.
    destruct (getPrettyV2RayConfig serverConfig (randState st))
      as [stored r'] eqn:Hbuilt.
    assert (Hstored : stored =
      (getPrettyV2RayConfig serverConfig (randState st)).1) by (by rewrite Hbuilt).
    simpl. split; [done|].
    rewrite (textField_toString _ _ _ Hname), (textField_toString _ _ _ Haddr).
    rewrite <- app_assoc. simpl.
    rewrite Hstored. clear Hbuilt Hstored.
    unfold getPrettyV2RayConfig, mbind, Rand_bind, mret, Rand_ret.
    destruct (getV2RayStreamSettingsConfig serverConfig (randState st))
      as [streamSettings r''].
    rewrite (textField_toString _ _ _ Hname), (textField_toString _ _ _ Haddr),
      (textField_toString _ _ _ Hid), (textField_toString _ _ _ Hsecurity),
      (numeral_toIntValue _ _ _ Hport), (numeral_toIntValue _ _ _ Halter).
    repeat split; reflexivity.
  - split; [|done]. intros _. done.
Qed.

Lemma kcp_errors_not_nil (serverConfig : QJsonObject) :
  QJson.toString (QJson.value serverConfig "network") = "kcp" →
  ∃ e errors, getV2RayServerConfigErrors serverConfig = e :: errors.
Proof.
  intros Hkcp.
  destruct (getV2RayServerConfigErrors serverConfig) as [|e errors] eqn:He;
    [|by eauto].
  exfalso. unfold getV2RayServerConfigErrors in He.
  rewrite removeAll_nil, Hkcp in He.
  apply (unbounded_above_never_empty serverConfig "kcpUpLink" (tr "Uplink Capacity")).
  apply He. rewrite elem_of_app. right.
  unfold getV2RayStreamSettingsErrors. cbn [String.eqb Ascii.eqb Bool.eqb].
  rewrite !elem_of_cons. auto.
Qed.

(** X12: a VMESS server on mKCP can be neither added nor edited: whatever
    its fields, [addV2RayServer] and [editServer] do nothing but emit the
    signal of the errors of its validation, which are not empty; the
    configurator, the latencies and the random generator stay as they are
    and the engine is not restarted. *)
Theorem kcp_server_cannot_be_saved (serverName configString : string)
    (st : AppProxy) :
  QJson.toString (QJson.value (fromJson configString) "network") = "kcp" →
  let errors :=
    QString.join lineFeed (getV2RayServerConfigErrors (fromJson configString)) in
  addV2RayServer configString st = emit (serverConfigError errors) st
  ∧ editServer serverName "vmess" configString st
    = emit (serverConfigError errors) st
  ∧ errors ≠ EmptyString.
Proof.
  intros Hkcp errors. subst errors.
  destruct (kcp_errors_not_nil _ Hkcp) as (e & errors & He).
  unfold addV2RayServer, editServer, getServerConfigErrors.
  cbn [String.eqb Ascii.eqb Bool.eqb]. rewrite He. simpl.
  split; [done|]. split; [done|].
  assert (Hin : e ∈ getV2RayServerConfigErrors (fromJson configString))
    by (rewrite He; by left).
  apply removeAll_elem_of in Hin as [Hne _].
  destruct errors as [|e' errors]; [done|].
  destruct e; [done|discriminate].
Qed.

(** X13: [editServer] refuses a protocol that is neither vmess nor
    shadowsocks: nothing is validated, built or stored, and the signal of
    the errors carries the name of the protocol. *)
Theorem editServer_unknown_protocol (serverName protocol configString : string)
    (st : AppProxy) :
  protocol ∉ ["vmess"; "shadowsocks"] →
  editServer serverName protocol configString st
  = emit (serverConfigError ("Unknown Protocol: " +:+ protocol)) st.
Proof.
  intros Hout. unfold editServer, getServerConfigErrors.
  destruct (String.eqb_spec protocol "vmess") as [->|_].
  { destruct Hout. rewrite !elem_of_cons. auto. }
  destruct (String.eqb_spec protocol "shadowsocks") as [->|_].
  { destruct Hout. rewrite !elem_of_cons. auto. }
  reflexivity.
Qed.

End AddServerFacts.

(** ** Shadowsocks links *)

Section StringFacts.

Lemma size_app (s1 s2 : string) :
  QString.size (s1 +:+ s2) = QString.size s1 + QString.size s2.
Proof.
  unfold QString.size. induction s1 as [|a s1 IH]; [by rewrite app_nil_l_string|].
  rewrite app_cons_string. simpl String.length. lia.
Qed.

Lemma size_nonneg (s : string) : 0 ≤ QString.size s.
Proof. unfold QString.size. lia. Qed.

Lemma size_cons (a : ascii) (s : string) :
  QString.size (String a s) = 1 + QString.size s.
Proof. unfold QString.size. simpl String.length. lia. Qed.

Lemma take_app (s1 s2 : string) :
  QString.take (String.length s1) (s1 +:+ s2) = s1.
Proof.
  induction s1 as [|a s1 IH].
  - rewrite app_nil_l_string. by destruct s2.
  - rewrite app_cons_string. simpl. by rewrite IH.
Qed.

Lemma take_all (s : string) : QString.take (String.length s) s = s.
Proof. induction s as [|a s IH]; [done|]. simpl. by rewrite IH. Qed.

Lemma drop_app (s1 s2 : string) :
  QString.drop (String.length s1) (s1 +:+ s2) = s2.
Proof.
  induction s1 as [|a s1 IH].
  - rewrite app_nil_l_string. by destruct s2.
  - rewrite app_cons_string. simpl. by rewrite IH.
Qed.

(** [mid] at the end of a prefix, for the length of what follows. *)
Lemma mid_between (before text after : string) :
  QString.mid (QString.size before) (QString.size text)
    (before +:+ text +:+ after) = text.
Proof.
  unfold QString.mid. rewrite !size_app.
  pose proof (size_nonneg before). pose proof (size_nonneg text).
  pose proof (size_nonneg after).
  replace (_ <? QString.size before) with false by (symmetry; apply Z.ltb_ge; lia).
  replace (QString.size before <? 0) with false by (symmetry; apply Z.ltb_ge; lia).
  replace (QString.size text <? 0) with false by (symmetry; apply Z.ltb_ge; lia).
  replace (_ <? QString.size text) with false by (symmetry; apply Z.ltb_ge; lia).
  simpl orb. cbv iota. unfold QString.size. rewrite !Nat2Z.id.
  by rewrite drop_app, take_app.
Qed.

(** [mid] at the end of a prefix, to the end of the string. *)
Lemma mid_rest (before text : string) (n : Z) :
  n < 0 →
  QString.mid (QString.size before) n (before +:+ text) = text.
Proof.
  intros Hn. unfold QString.mid. rewrite !size_app.
  pose proof (size_nonneg before). pose proof (size_nonneg text).
  replace (_ <? QString.size before) with false by (symmetry; apply Z.ltb_ge; lia).
  replace (QString.size before <? 0) with false by (symmetry; apply Z.ltb_ge; lia).
  replace (n <? 0) with true by (symmetry; apply Z.ltb_lt; lia).
  simpl orb. cbv iota.
  replace (QString.size before + QString.size text - QString.size before)
    with (QString.size text) by lia.
  unfold QString.size. rewrite !Nat2Z.id.
  by rewrite drop_app, take_all.
Qed.

Lemma left_prefix (before after : string) :
  QString.left (QString.size before) (before +:+ after) = before.
Proof.
  unfold QString.left. rewrite size_app.
  pose proof (size_nonneg before). pose proof (size_nonneg after).
  replace (QString.size before <? 0) with false by (symmetry; apply Z.ltb_ge; lia).
  simpl orb.
  destruct (Z.leb_spec (QString.size before + QString.size after)
              (QString.size before)) as [Hle|Hlt].
  - assert (Hnil : after = EmptyString).
    { destruct after; [done|]. rewrite size_cons in Hle.
      pose proof (size_nonneg after). lia. }
    subst after. by rewrite app_nil_r_string.
  - unfold QString.size. rewrite Nat2Z.id. apply take_app.
Qed.

Lemma chars_app (s1 s2 : string) :
  list_ascii_of_string (s1 +:+ s2)
  = list_ascii_of_string s1 ++ list_ascii_of_string s2.
Proof.
  induction s1 as [|a s1 IH]; [by rewrite app_nil_l_string|].
  rewrite app_cons_string. simpl. by rewrite IH.
Qed.

Lemma indexOf_from_free (i : Z) (c : ascii) (before after : string) :
  c ∉ list_ascii_of_string before →
  QString.indexOf_from i c (before +:+ after)
  = QString.indexOf_from (i + QString.size before) c after.
Proof.
  revert i. induction before as [|a before IH]; intros i Hfree.
  - rewrite app_nil_l_string. f_equal. unfold QString.size. simpl. lia.
  - rewrite app_cons_string. simpl in *.
    apply not_elem_of_cons in Hfree as [Hne Hfree].
    destruct (Ascii.eqb_spec a c) as [->|_]; [done|].
    rewrite IH by done. f_equal. rewrite size_cons. lia.
Qed.

(** The first occurrence of a character that follows a text free of it. *)
Lemma indexOf_first (c : ascii) (before after : string) :
  c ∉ list_ascii_of_string before →
  QString.indexOf c (before +:+ String c after) = QString.size before.
Proof.
  intros Hfree. unfold QString.indexOf. rewrite indexOf_from_free by done.
  simpl. by rewrite Ascii.eqb_refl.
Qed.

Lemma indexOf_from_lower (i : Z) (c : ascii) (s : string) :
  QString.indexOf_from i c s = -1 ∨ i ≤ QString.indexOf_from i c s.
Proof.
  revert i. induction s as [|a s IH]; intros i; simpl; [by left|].
  destruct (Ascii.eqb a c); [right; lia|].
  destruct (IH (i + 1)) as [->|Hle]; [by left|right; lia].
Qed.

(** A character that does not occur is not found. *)
Lemma indexOf_from_absent (i : Z) (c : ascii) (s : string) :
  c ∉ list_ascii_of_string s → QString.indexOf_from i c s = -1.
Proof.
  revert i. induction s as [|a s IH]; intros i Hfree; simpl in *; [done|].
  apply not_elem_of_cons in Hfree as [Hne Hfree].
  destruct (Ascii.eqb_spec a c) as [->|_]; [done|]. by apply IH.
Qed.

Lemma take_app_ge (k : nat) (s1 s2 : string) :
  (String.length s1 ≤ k)%nat →
  QString.take k (s1 +:+ s2) = s1 +:+ QString.take (k - String.length s1) s2.
Proof.
  revert k. induction s1 as [|a s1 IH]; intros k Hk.
  - rewrite !app_nil_l_string. simpl. by rewrite Nat.sub_0_r.
  - rewrite !app_cons_string. simpl in Hk. destruct k as [|k]; [lia|].
    simpl. rewrite IH by lia. done.
Qed.

(** [mid] at the end of a prefix: the rest, or its first [n] characters. *)
Lemma mid_from (before after : string) (n : Z) :
  QString.mid (QString.size before) n (before +:+ after)
  = if (n <? 0) || (QString.size after <? n) then after
    else QString.take (Z.to_nat n) after.
Proof.
  unfold QString.mid. rewrite !size_app.
  pose proof (size_nonneg before). pose proof (size_nonneg after).
  replace (_ <? QString.size before) with false by (symmetry; apply Z.ltb_ge; lia).
  replace (QString.size before <? 0) with false by (symmetry; apply Z.ltb_ge; lia).
  replace (QString.size before + QString.size after - QString.size before)
    with (QString.size after) by lia.
  assert (Hnat : ∀ s, Z.to_nat (QString.size s) = String.length s)
    by (intros s; unfold QString.size; apply Nat2Z.id).
  rewrite Hnat, drop_app.
  destruct ((n <? 0) || (QString.size after <? n)); [|done].
  by rewrite Hnat, take_all.
Qed.

Lemma chars_rev (s : string) :
  list_ascii_of_string (String.rev s) = List.rev (list_ascii_of_string s).
Proof.
  induction s as [|a s IH]; [done|].
  unfold String.rev at 1. simpl.
  rewrite rev_app_app, chars_app, IH. reflexivity.
Qed.

Lemma chars_rev_elem (c : ascii) (s : string) :
  c ∈ list_ascii_of_string (String.rev s) ↔ c ∈ list_ascii_of_string s.
Proof. by rewrite chars_rev, !list_elem_of_In, <- in_rev. Qed.

Lemma skipSpaces_keeps (c : ascii) (s : string) :
  QString.isSpace c = false →
  c ∈ list_ascii_of_string s → c ∈ list_ascii_of_string (QString.skipSpaces s).
Proof.
  intros Hc. induction s as [|a s IH]; [done|]. simpl.
  destruct (QString.isSpace a) eqn:Ha; [|done].
  intros [->|Hin]%elem_of_cons; [congruence|by apply IH].
Qed.

Lemma trimmed_keeps (c : ascii) (s : string) :
  QString.isSpace c = false →
  c ∈ list_ascii_of_string s → c ∈ list_ascii_of_string (QString.trimmed s).
Proof.
  intros Hc Hin. unfold QString.trimmed.
  rewrite chars_rev_elem. apply skipSpaces_keeps; [done|].
  rewrite chars_rev_elem. by apply skipSpaces_keeps.
Qed.

Lemma digitsValue_none (c : ascii) (acc : Z) (s : string) :
  QString.digitValue c = None →
  c ∈ list_ascii_of_string s → QString.digitsValue acc s = None.
Proof.
  intros Hc. revert acc. induction s as [|a s IH]; intros acc Hin.
  - by apply elem_of_nil in Hin.
  - simpl in *. apply elem_of_cons in Hin as [<-|Hin]; [by rewrite Hc|].
    destruct (QString.digitValue a); [by apply IH|done].
Qed.

Lemma unsignedValue_none (c : ascii) (s : string) :
  QString.digitValue c = None →
  c ∈ list_ascii_of_string s → QString.unsignedValue s = None.
Proof.
  intros Hc Hin. unfold QString.unsignedValue.
  destruct (QString.isEmpty s); [done|]. by eapply digitsValue_none.
Qed.

(** The choice that [toInt] makes on the first character. *)
Lemma sign_cases {A : Type} (a : ascii) (u : string) (minus plus : string → A)
    (other : A) :
  match String a u with
  | String "-"%char u' => minus u'
  | String "+"%char u' => plus u'
  | _ => other
  end
  = if Ascii.eqb a "-" then minus u
    else if Ascii.eqb a "+" then plus u else other.
Proof. by destruct a as [[] [] [] [] [] [] [] []]. Qed.

(** A text that holds a character which is neither a digit, a sign nor
    white space is not a numeral. *)
Lemma toInt_none (c : ascii) (s : string) :
  QString.digitValue c = None → QString.isSpace c = false →
  c ≠ "-"%char → c ≠ "+"%char →
  c ∈ list_ascii_of_string s → QString.toInt s = None.
Proof.
  intros Hdigit Hspace Hminus Hplus Hin.
  apply (trimmed_keeps c s Hspace) in Hin.
  unfold QString.toInt.
  destruct (QString.trimmed s) as [|a u] eqn:Ht; [by apply elem_of_nil in Hin|].
  assert (Hall : QString.unsignedValue (String a u) = None)
    by (by eapply unsignedValue_none).
  rewrite (sign_cases a u (λ u', Z.opp <$> QString.unsignedValue u')
             QString.unsignedValue).
  rewrite Hall. simpl in Hin. apply elem_of_cons in Hin.
  destruct (Ascii.eqb_spec a "-") as [->|_].
  { destruct Hin as [->|Hin]; [done|].
    by rewrite (unsignedValue_none c u Hdigit Hin). }
  destruct (Ascii.eqb_spec a "+") as [->|_]; [|done].
  destruct Hin as [->|Hin]; [done|].
  by rewrite (unsignedValue_none c u Hdigit Hin).
Qed.

End StringFacts.

Section LinkFacts.
Context `{Platform}.

Lemma freeOf_elem (characters : list ascii) (c : ascii) (text : string) :
  freeOf characters text → c ∈ characters → c ∉ list_ascii_of_string text.
Proof. intros Hfree Hc. by apply Hfree. Qed.

(** A character among those of a shorter list is among those of a longer
    one. *)
Ltac among Hc :=
  revert Hc; rewrite !elem_of_cons, !elem_of_nil; tauto.

(** Puts a concatenation in the form of a list of characters and texts. *)
Ltac flatten :=
  repeat first [ rewrite app_assoc_string
               | rewrite app_cons_string
               | rewrite app_nil_l_string ].

(** The positions of the at sign and of the colon of a link, and what
    stands around them. *)
Lemma shadowsocksLink_head (userInfo host port rest : string) :
  freeOf ["@"; ":"]%char userInfo → freeOf [":"]%char host →
  let serverUrl := userInfo +:+ "@" +:+ host +:+ ":" +:+ port +:+ rest in
  QString.mid 5 (-1) (shadowsocksLink userInfo host port rest) = serverUrl
  ∧ QString.indexOf "@" serverUrl = QString.size userInfo
  ∧ QString.indexOf ":" serverUrl
    = QString.size userInfo + 1 + QString.size host
  ∧ QString.left (QString.size userInfo) serverUrl = userInfo
  ∧ QString.mid (QString.size userInfo + 1) (QString.size host) serverUrl
    = host.
Proof.
  intros HuserInfo Hhost serverUrl. subst serverUrl.
  assert (Hat : "@"%char ∉ list_ascii_of_string userInfo)
    by (apply (freeOf_elem _ _ _ HuserInfo); rewrite !elem_of_cons; auto).
  assert (Hcolon : ":"%char ∉ list_ascii_of_string userInfo)
    by (apply (freeOf_elem _ _ _ HuserInfo); rewrite !elem_of_cons; auto).
  assert (Hcolon' : ":"%char ∉ list_ascii_of_string host)
    by (apply (freeOf_elem _ _ _ Hhost); rewrite !elem_of_cons; auto).
  split; [|split; [|split; [|split]]].
  - unfold shadowsocksLink.
    change 5 with (QString.size "ss://"). by apply mid_rest.
  - flatten. by apply indexOf_first.
  - replace (userInfo +:+ "@" +:+ host +:+ ":" +:+ port +:+ rest)
      with ((userInfo +:+ "@" +:+ host) +:+ String ":" (port +:+ rest))
      by (by flatten).
    rewrite indexOf_first.
    + rewrite !size_app. change (QString.size "@") with 1. lia.
    + rewrite !chars_app, !not_elem_of_app. simpl.
      rewrite not_elem_of_cons. split; [done|]. split; [|done].
      split; [done|]. apply not_elem_of_nil.
  - apply left_prefix.
  - replace (userInfo +:+ "@" +:+ host +:+ ":" +:+ port +:+ rest)
      with ((userInfo +:+ "@") +:+ host +:+ (":" +:+ port +:+ rest))
      by (by flatten).
    replace (QString.size userInfo + 1) with (QString.size (userInfo +:+ "@"))
      by (rewrite size_app; reflexivity).
    apply mid_between.
Qed.

(** The method and the password of the user information of a link. *)
Lemma confidential_split (method password : string) :
  freeOf [":"]%char method →
  let confidential := method +:+ ":" +:+ password in
  QString.left (QString.indexOf ":" confidential) confidential = method
  ∧ QString.mid (QString.indexOf ":" confidential + 1) (-1) confidential
    = password.
Proof.
  intros Hmethod confidential. subst confidential.
  assert (Hcolon : ":"%char ∉ list_ascii_of_string method)
    by (apply (freeOf_elem _ _ _ Hmethod); rewrite !elem_of_cons; auto).
  assert (Hindex : QString.indexOf ":" (method +:+ ":" +:+ password)
                   = QString.size method).
  { flatten. by apply indexOf_first. }
  rewrite Hindex. split; [apply left_prefix|].
  replace (method +:+ ":" +:+ password) with ((method +:+ ":") +:+ password)
    by (by flatten).
  replace (QString.size method + 1) with (QString.size (method +:+ ":"))
    by (rewrite size_app; reflexivity).
  by apply mid_rest.
Qed.

(** X14: a link [ss://userinfo@host:port/options#tag] is taken apart at
    its first at sign, colon, slash and sharp.  When the user information
    holds none of these four characters, the host no colon, slash or sharp,
    the port and the options no slash or sharp (for the options: no sharp),
    and the user information decodes to [method:password], the decoded
    record has the host as address, the number the port denotes as port,
    the percent-decoded tag as name, the method, the password, the
    subscription it came from and the automatic connection switched
    off. *)
Theorem shadowsocks_link_decoded
    (userInfo host port options tag method password subscriptionUrl : string) :
  freeOf ["@"; ":"; "/"; "#"]%char userInfo →
  freeOf [":"; "/"; "#"]%char host →
  freeOf ["/"; "#"]%char port →
  freeOf ["#"]%char options →
  fromBase64 userInfo = method +:+ ":" +:+ password →
  freeOf [":"]%char method →
  let decoded :=
    getShadowsocksServerFromUrl
      (shadowsocksLink userInfo host port ("/" +:+ options +:+ "#" +:+ tag))
      subscriptionUrl in
  decoded !! "serverAddr" = Some (JString host)
  ∧ decoded !! "serverPort" = Some (JDouble (QString.toIntValue port))
  ∧ decoded !! "serverName" = Some (JString (fromPercentEncoding tag))
  ∧ decoded !! "encryption" = Some (JString method)
  ∧ decoded !! "password" = Some (JString password)
  ∧ decoded !! "subscription" = Some (JString subscriptionUrl)
  ∧ decoded !! "autoConnect" = Some (JBool false).
Proof.
  intros HuserInfo Hhost Hport Hoptions Hconfidential Hmethod decoded.
  subst decoded.
  set (rest := "/" +:+ options +:+ "#" +:+ tag).
  destruct (shadowsocksLink_head userInfo host port rest)
    as (Hmid & Hat & Hcolon & Hleft & Haddr).
  { intros c Hc. apply HuserInfo. among Hc. }
  { intros c Hc. apply Hhost. among Hc. }
  destruct (confidential_split method password Hmethod) as [Hm Hp].
  set (serverUrl := userInfo +:+ "@" +:+ host +:+ ":" +:+ port +:+ rest) in *.
  assert (Hfree : ∀ c, c ∈ ["/"; "#"]%char →
            c ∉ list_ascii_of_string (userInfo +:+ "@" +:+ host +:+ ":" +:+ port)).
  { intros c Hc. rewrite !chars_app, !not_elem_of_app. simpl.
    rewrite !not_elem_of_cons.
    split; [apply HuserInfo; among Hc|].
    split; [split; [|apply not_elem_of_nil]|].
    { rewrite !elem_of_cons, elem_of_nil in Hc. by destruct Hc as [->|[->|[]]]. }
    split; [apply Hhost; among Hc|].
    split; [split; [|apply not_elem_of_nil]|].
    { rewrite !elem_of_cons, elem_of_nil in Hc. by destruct Hc as [->|[->|[]]]. }
    apply Hport; among Hc. }
  assert (Hslash : QString.indexOf "/" serverUrl
                   = QString.size userInfo + 1 + QString.size host + 1
                     + QString.size port).
  { subst serverUrl rest.
    replace (userInfo +:+ "@" +:+ host +:+ ":" +:+ port
               +:+ "/" +:+ options +:+ "#" +:+ tag)
      with ((userInfo +:+ "@" +:+ host +:+ ":" +:+ port)
              +:+ String "/" (options +:+ "#" +:+ tag)) by (by flatten).
    rewrite indexOf_first by (apply Hfree; rewrite !elem_of_cons; auto).
    rewrite !size_app. change (QString.size "@") with 1.
    change (QString.size ":") with 1. lia. }
  assert (Hsharp : QString.indexOf "#" serverUrl
                   = QString.size userInfo + 1 + QString.size host + 1
                     + QString.size port + 1 + QString.size options).
  { subst serverUrl rest.
    replace (userInfo +:+ "@" +:+ host +:+ ":" +:+ port
               +:+ "/" +:+ options +:+ "#" +:+ tag)
      with ((userInfo +:+ "@" +:+ host +:+ ":" +:+ port +:+ "/" +:+ options)
              +:+ String "#" tag) by (by flatten).
    rewrite indexOf_first.
    - rewrite !size_app. change (QString.size "@") with 1.
      change (QString.size ":") with 1. change (QString.size "/") with 1. lia.
    - replace (userInfo +:+ "@" +:+ host +:+ ":" +:+ port +:+ "/" +:+ options)
        with ((userInfo +:+ "@" +:+ host +:+ ":" +:+ port)
                +:+ "/" +:+ options) by (by flatten).
      rewrite chars_app, not_elem_of_app. split; [apply Hfree; rewrite !elem_of_cons; auto|].
      rewrite chars_app, not_elem_of_app. split.
      + simpl. rewrite not_elem_of_cons. split; [done|apply not_elem_of_nil].
      + apply Hoptions; rewrite !elem_of_cons; auto. }
  assert (HportText :
    QString.mid (QString.size userInfo + 1 + QString.size host + 1)
      (QString.size port) serverUrl = port).
  { subst serverUrl.
    replace (userInfo +:+ "@" +:+ host +:+ ":" +:+ port +:+ rest)
      with ((userInfo +:+ "@" +:+ host +:+ ":") +:+ port +:+ rest)
      by (by flatten).
    replace (QString.size userInfo + 1 + QString.size host + 1)
      with (QString.size (userInfo +:+ "@" +:+ host +:+ ":"))
      by (rewrite !size_app; change (QString.size "@") with 1;
          change (QString.size ":") with 1; lia).
    apply mid_between. }
  assert (Htag :
    QString.mid (QString.size userInfo + 1 + QString.size host + 1
                 + QString.size port + 1 + QString.size options + 1) (-1)
      serverUrl = tag).
  { subst serverUrl rest.
    replace (userInfo +:+ "@" +:+ host +:+ ":" +:+ port
               +:+ "/" +:+ options +:+ "#" +:+ tag)
      with ((userInfo +:+ "@" +:+ host +:+ ":" +:+ port +:+ "/" +:+ options
               +:+ "#") +:+ tag) by (by flatten).
    replace (QString.size userInfo + 1 + QString.size host + 1
             + QString.size port + 1 + QString.size options + 1)
      with (QString.size (userInfo +:+ "@" +:+ host +:+ ":" +:+ port
                            +:+ "/" +:+ options +:+ "#"))
      by (rewrite !size_app; change (QString.size "@") with 1;
          change (QString.size ":") with 1; change (QString.size "/") with 1;
          change (QString.size "#") with 1; lia).
    by apply mid_rest. }
  unfold getShadowsocksServerFromUrl. cbv zeta.
  rewrite Hmid, Hat, Hcolon, Hslash, Hsharp, Hleft, Hconfidential, Hm, Hp.
  replace (QString.size userInfo + 1 + QString.size host
           - QString.size userInfo - 1) with (QString.size host) by lia.
  replace (QString.size userInfo + 1 + QString.size host + 1 + QString.size port
           - (QString.size userInfo + 1 + QString.size host) - 1)
    with (QString.size port) by lia.
  rewrite Haddr, HportText, Htag.
  case_match; rewrite ?lookup_insert_ne by done; repeat split; reflexivity.
Qed.

(** X15: a link [ss://userinfo@host:port#tag], where no slash stands
    before the sharp, loses its port: the text read as the port runs from
    the colon into the tag, is no numeral, and the decoded port is 0.  The
    address and the name are still those of the link. *)
Theorem shadowsocks_link_without_slash
    (userInfo host port tag subscriptionUrl : string) :
  freeOf ["@"; ":"; "/"; "#"]%char userInfo →
  freeOf [":"; "/"; "#"]%char host →
  freeOf ["/"; "#"]%char port →
  let decoded :=
    getShadowsocksServerFromUrl
      (shadowsocksLink userInfo host port ("#" +:+ tag)) subscriptionUrl in
  decoded !! "serverPort" = Some (JDouble 0)
  ∧ decoded !! "serverAddr" = Some (JString host)
  ∧ decoded !! "serverName" = Some (JString (fromPercentEncoding tag)).
Proof.
  intros HuserInfo Hhost Hport decoded. subst decoded.
  set (rest := "#" +:+ tag).
  destruct (shadowsocksLink_head userInfo host port rest)
    as (Hmid & Hat & Hcolon & Hleft & Haddr).
  { intros c Hc. apply HuserInfo. among Hc. }
  { intros c Hc. apply Hhost. among Hc. }
  set (serverUrl := userInfo +:+ "@" +:+ host +:+ ":" +:+ port +:+ rest) in *.
  assert (Hfree : ∀ c, c ∈ ["/"; "#"]%char →
            c ∉ list_ascii_of_string (userInfo +:+ "@" +:+ host +:+ ":" +:+ port)).
  { intros c Hc. rewrite !chars_app, !not_elem_of_app. simpl.
    rewrite !not_elem_of_cons.
    split; [apply HuserInfo; among Hc|].
    split; [split; [|apply not_elem_of_nil]|].
    { rewrite !elem_of_cons, elem_of_nil in Hc. by destruct Hc as [->|[->|[]]]. }
    split; [apply Hhost; among Hc|].
    split; [split; [|apply not_elem_of_nil]|].
    { rewrite !elem_of_cons, elem_of_nil in Hc. by destruct Hc as [->|[->|[]]]. }
    apply Hport; among Hc. }
  assert (Hsize : QString.size (userInfo +:+ "@" +:+ host +:+ ":" +:+ port)
                  = QString.size userInfo + 1 + QString.size host + 1
                    + QString.size port).
  { rewrite !size_app. change (QString.size "@") with 1.
    change (QString.size ":") with 1. lia. }
  assert (Hslash : QString.indexOf "/" serverUrl = -1
                   ∨ QString.size userInfo + 1 + QString.size host + 1
                     + QString.size port + 1 ≤ QString.indexOf "/" serverUrl).
  { subst serverUrl rest.
    replace (userInfo +:+ "@" +:+ host +:+ ":" +:+ port +:+ "#" +:+ tag)
      with ((userInfo +:+ "@" +:+ host +:+ ":" +:+ port) +:+ String "#" tag)
      by (by flatten).
    unfold QString.indexOf.
    rewrite indexOf_from_free by (apply Hfree; rewrite !elem_of_cons; auto).
    rewrite Hsize. simpl.
    match goal with
    | |- context [QString.indexOf_from ?i "/"%char tag] =>
        destruct (indexOf_from_lower i "/" tag) as [Hnone|Hle];
          [left; exact Hnone|right; lia]
    end. }
  assert (Hsharp : QString.indexOf "#" serverUrl
                   = QString.size userInfo + 1 + QString.size host + 1
                     + QString.size port).
  { subst serverUrl rest.
    replace (userInfo +:+ "@" +:+ host +:+ ":" +:+ port +:+ "#" +:+ tag)
      with ((userInfo +:+ "@" +:+ host +:+ ":" +:+ port) +:+ String "#" tag)
      by (by flatten).
    rewrite indexOf_first by (apply Hfree; rewrite !elem_of_cons; auto).
    exact Hsize. }
  assert (HportText : ∀ splashIndex,
    splashIndex = -1
    ∨ QString.size userInfo + 1 + QString.size host + 1
      + QString.size port + 1 ≤ splashIndex →
    ∃ tail,
      QString.mid (QString.size userInfo + 1 + QString.size host + 1)
        (splashIndex - (QString.size userInfo + 1 + QString.size host) - 1)
        serverUrl
      = port +:+ "#" +:+ tail).
  { intros splashIndex Hindex. subst serverUrl rest.
    replace (userInfo +:+ "@" +:+ host +:+ ":" +:+ port +:+ "#" +:+ tag)
      with ((userInfo +:+ "@" +:+ host +:+ ":") +:+ (port +:+ "#") +:+ tag)
      by (by flatten).
    replace (QString.size userInfo + 1 + QString.size host + 1)
      with (QString.size (userInfo +:+ "@" +:+ host +:+ ":"))
      by (rewrite !size_app; change (QString.size "@") with 1;
          change (QString.size ":") with 1; lia).
    rewrite mid_from.
    set (n := splashIndex - _ - 1).
    destruct ((n <? 0) || (QString.size ((port +:+ "#") +:+ tag) <? n)) eqn:Hn.
    - exists tag. by flatten.
    - apply orb_false_iff in Hn as [Hn _]. apply Z.ltb_ge in Hn.
      assert (Hlong : QString.size (port +:+ "#") ≤ n).
      { destruct Hindex as [Hnone|Hle].
        - exfalso. revert Hn. subst n. rewrite Hnone.
          pose proof (size_nonneg userInfo). pose proof (size_nonneg host). lia.
        - subst n. rewrite size_app. change (QString.size "#") with 1. lia. }
      rewrite take_app_ge by (unfold QString.size in Hlong; lia).
      eexists. by flatten. }
  destruct (HportText _ Hslash) as [tail HportText'].
  clear HportText. rename HportText' into HportText.
  assert (Htag :
    QString.mid (QString.size userInfo + 1 + QString.size host + 1
                 + QString.size port + 1) (-1) serverUrl = tag).
  { subst serverUrl rest.
    replace (userInfo +:+ "@" +:+ host +:+ ":" +:+ port +:+ "#" +:+ tag)
      with ((userInfo +:+ "@" +:+ host +:+ ":" +:+ port +:+ "#") +:+ tag)
      by (by flatten).
    replace (QString.size userInfo + 1 + QString.size host + 1
             + QString.size port + 1)
      with (QString.size (userInfo +:+ "@" +:+ host +:+ ":" +:+ port +:+ "#"))
      by (rewrite !size_app; change (QString.size "@") with 1;
          change (QString.size ":") with 1; change (QString.size "#") with 1; lia).
    by apply mid_rest. }
  assert (Hzero : QString.toIntValue (port +:+ "#" +:+ tail) = 0).
  { unfold QString.toIntValue. rewrite (toInt_none "#"); try done.
    rewrite !chars_app, !elem_of_app. right. left. by left. }
  unfold getShadowsocksServerFromUrl. cbv zeta.
  rewrite Hmid, Hat, Hcolon, Hsharp.
  replace (QString.size userInfo + 1 + QString.size host
           - QString.size userInfo - 1) with (QString.size host) by lia.
  rewrite Haddr, HportText, Htag, Hzero.
  case_match; rewrite ?lookup_insert_ne by done; repeat split; reflexivity.
Qed.

End LinkFacts.

(** ** The transport of an imported VMESS server *)

Section ImportedStreamFacts.
Context `{Platform}.

Import QJsonObjectOps.

Lemma NETWORK_MAPPER_values (network mapped : string) :
  NETWORK_MAPPER !! network = Some mapped →
  mapped ∈ ["tcp"; "kcp"; "ws"; "http"; "quic"].
Proof.
  unfold NETWORK_MAPPER. simpl.
  rewrite !lookup_insert_Some, lookup_empty, !elem_of_cons.
  intros Hm. repeat (destruct Hm as [[_ <-]|[_ Hm]]; [tauto|]). done.
Qed.

(** The network of the record decoded from a link. *)
Lemma decoded_network (server subscriptionUrl : string) :
  ∃ network,
    network ∈ ["tcp"; "kcp"; "ws"; "http"; "quic"]
    ∧ getV2RayServerFromUrl server subscriptionUrl !! "network"
      = Some (JString network).
Proof.
  unfold getV2RayServerFromUrl.
  set (raw := fromJson _).
  set (network := if QJson.contains raw "net" then _ else _).
  exists (match NETWORK_MAPPER !! network with
          | Some mapped => mapped
          | None => "tcp"
          end).
  split; [|reflexivity].
  destruct (NETWORK_MAPPER !! network) as [mapped|] eqn:Hm.
  - by eapply NETWORK_MAPPER_values.
  - rewrite !elem_of_cons. auto.
Qed.

(** A goal that a member of an object is absent, by computation. *)
Ltac member_absent :=
  let Hs := fresh "Hs" in
  let Hn := fresh "Hn" in
  intros [? Hs]; exfalso;
  match type of Hs with
  | ?l = Some _ => assert (l = None) as Hn by reflexivity
  end;
  rewrite Hn in Hs; discriminate.

(** Settles, for one transport, whether its settings are present. *)
Ltac transport_case :=
  split;
  [ first [ intros _; reflexivity | member_absent ]
  | first [ intros _; eexists; reflexivity
          | intros Hnet; exfalso; first [discriminate Hnet | congruence] ] ].

(** X17: the stream settings built for a VMESS server hold the security in
    lower case, the TLS settings, and the settings of one transport at
    most: those of the network of the record.  A network that is none of
    tcp, kcp, ws, http, domainsocket and quic gets the settings of no
    transport. *)
Theorem stream_settings_selected_transport (serverConfig : QJsonObject)
    (r : RandState) :
  let network := QJson.toString (QJson.value serverConfig "network") in
  let streamSettings := (getV2RayStreamSettingsConfig serverConfig r).1 in
  streamSettings !! "security" =
    Some (JString (QString.toLower
      (QJson.toString (QJson.value serverConfig "networkSecurity"))))
  ∧ streamSettings !! "tlsSettings" =
      Some (JObject {[ "allowInsecure" :=
        JBool (QJson.toBool (QJson.value serverConfig "allowInsecure")) ]})
  ∧ ∀ key transport, (key, transport) ∈ transportSettings →
      is_Some (streamSettings !! key) ↔ network = transport.
Proof.
  intros network streamSettings. subst streamSettings network.
  unfold getV2RayStreamSettingsConfig. cbv zeta.
  assert (Hcases : ∀ key transport, (key, transport) ∈ transportSettings →
    (key, transport) = ("tcpSettings", "tcp")
    ∨ (key, transport) = ("kcpSettings", "kcp")
    ∨ (key, transport) = ("wsSettings", "ws")
    ∨ (key, transport) = ("httpSettings", "http")
    ∨ (key, transport) = ("dsSettings", "domainsocket")
    ∨ (key, transport) = ("quicSettings", "quic")).
  { intros key transport. unfold transportSettings.
    rewrite !elem_of_cons, elem_of_nil. tauto. }
  destruct (QJson.value serverConfig "network") as [| | |n| | |] eqn:Hv;
    cbn [QJson.toString].
  1-3, 5-7:
    (split; [reflexivity|]; split; [reflexivity|];
     intros key transport Hin;
     destruct (Hcases _ _ Hin) as [Hc|[Hc|[Hc|[Hc|[Hc|Hc]]]]];
     injection Hc as -> ->; (split; [member_absent|discriminate])).
  destruct (String.eqb_spec n "tcp") as [->|Htcp].
  { unfold mbind, Rand_bind, mret, Rand_ret.
    destruct (String.eqb _ "http");
      [destruct (getRandomUserAgents 24 r) as [userAgents r']|];
      (split; [reflexivity|]; split; [reflexivity|];
       intros key transport Hin;
       destruct (Hcases _ _ Hin) as [Hc|[Hc|[Hc|[Hc|[Hc|Hc]]]]];
       injection Hc as -> ->; transport_case). }
  destruct (String.eqb_spec n "kcp") as [->|Hkcp].
  { split; [reflexivity|]; split; [reflexivity|].
    intros key transport Hin.
    destruct (Hcases _ _ Hin) as [Hc|[Hc|[Hc|[Hc|[Hc|Hc]]]]];
      injection Hc as -> ->; transport_case. }
  destruct (String.eqb_spec n "ws") as [->|Hws].
  { split; [reflexivity|]; split; [reflexivity|].
    intros key transport Hin.
    destruct (Hcases _ _ Hin) as [Hc|[Hc|[Hc|[Hc|[Hc|Hc]]]]];
      injection Hc as -> ->;
      destruct (QJson.value serverConfig "networkHost"); transport_case. }
  destruct (String.eqb_spec n "http") as [->|Hhttp].
  { split; [reflexivity|]; split; [reflexivity|].
    intros key transport Hin.
    destruct (Hcases _ _ Hin) as [Hc|[Hc|[Hc|[Hc|[Hc|Hc]]]]];
      injection Hc as -> ->; transport_case. }
  destruct (String.eqb_spec n "domainsocket") as [->|Hds].
  { split; [reflexivity|]; split; [reflexivity|].
    intros key transport Hin.
    destruct (Hcases _ _ Hin) as [Hc|[Hc|[Hc|[Hc|[Hc|Hc]]]]];
      injection Hc as -> ->; transport_case. }
  destruct (String.eqb_spec n "quic") as [->|Hquic].
  { split; [reflexivity|]; split; [reflexivity|].
    intros key transport Hin.
    destruct (Hcases _ _ Hin) as [Hc|[Hc|[Hc|[Hc|[Hc|Hc]]]]];
      injection Hc as -> ->; transport_case. }
  split; [reflexivity|]; split; [reflexivity|].
  intros key transport Hin.
  destruct (Hcases _ _ Hin) as [Hc|[Hc|[Hc|[Hc|[Hc|Hc]]]]];
    injection Hc as -> ->; transport_case.
Qed.

(** X16: the transport stored for a VMESS link.  The network is one of tcp,
    kcp, ws, http and quic; the security is tls as soon as the payload has
    a member [tls], whatever its value, and none otherwise.  The link
    carries no setting of mKCP or QUIC: an imported server on kcp is stored
    with the MTU, the TTI, the capacities and the buffer sizes 0 and an
    empty header type, and one on quic with an empty security, key and
    header type.  On ws and http the host and the path are those of the
    payload. *)
Theorem imported_vmess_stream_settings (server subscriptionUrl : string)
    (r : RandState) :
  let payload := fromJson (fromBase64 (QString.mid 8 (-1) server)) in
  let host :=
    if QJson.contains payload "host"
    then QJson.toString (QJson.value payload "host") else EmptyString in
  let path :=
    if QJson.contains payload "path"
    then QJson.toString (QJson.value payload "path") else EmptyString in
  let decoded := getV2RayServerFromUrl server subscriptionUrl in
  let streamSettings := (getV2RayStreamSettingsConfig decoded r).1 in
  (getPrettyV2RayConfig decoded r).1 !! "streamSettings"
    = Some (JObject streamSettings)
  ∧ ∃ network,
      network ∈ ["tcp"; "kcp"; "ws"; "http"; "quic"]
      ∧ streamSettings !! "network" = Some (JString network)
      ∧ streamSettings !! "security" =
          Some (JString (if QJson.contains payload "tls" then "tls" else "none"))
      ∧ (network = "kcp" →
         streamSettings !! "kcpSettings" =
           Some (JObject (object
             [ ("mtu", JDouble 0); ("tti", JDouble 0);
               ("uplinkCapacity", JDouble 0); ("downlinkCapacity", JDouble 0);
               ("congestion", JBool false);
               ("readBufferSize", JDouble 0); ("writeBufferSize", JDouble 0);
               ("header", JObject (object [("type", JString EmptyString)])) ])))
      ∧ (network = "quic" →
         streamSettings !! "quicSettings" =
           Some (JObject (object
             [ ("security", JString EmptyString);
               ("key", JString EmptyString);
               ("header", JObject (object [("type", JString EmptyString)])) ])))
      ∧ (network = "ws" →
         streamSettings !! "wsSettings" =
           Some (JObject (object
             [ ("path", JString path);
               ("headers", JObject (object [("host", JString host)])) ])))
      ∧ (network = "http" →
         streamSettings !! "httpSettings" =
           Some (JObject (object
             [ ("host", JArray [JString host]);
               ("path", JArray [JString path]) ]))).
Proof.
  intros payload host path decoded streamSettings.
  split.
  { subst streamSettings.
    unfold getPrettyV2RayConfig, mbind, Rand_bind, mret, Rand_ret.
    destruct (getV2RayStreamSettingsConfig decoded r) as [s r']. reflexivity. }
  subst streamSettings decoded host path.
  unfold getV2RayServerFromUrl. fold payload.
  set (network := if QJson.contains payload "net" then _ else _).
  set (mapped := match NETWORK_MAPPER !! network with
                 | Some m => m
                 | None => "tcp"
                 end).
  assert (Hmapped : mapped ∈ ["tcp"; "kcp"; "ws"; "http"; "quic"]).
  { subst mapped. destruct (NETWORK_MAPPER !! network) as [m|] eqn:Hm.
    - by eapply NETWORK_MAPPER_values.
    - rewrite !elem_of_cons. auto. }
  clearbody mapped. exists mapped. split; [done|].
  rewrite !elem_of_cons, elem_of_nil in Hmapped.
  destruct (QJson.contains payload "tls");
  destruct Hmapped as [->|[->|[->|[->|[->|[]]]]]].
  all: try (repeat split; try reflexivity; discriminate).
  all: unfold getV2RayStreamSettingsConfig; cbv zeta;
    repeat match goal with
           | |- context [QJson.value ?d "network"] =>
               progress change (QJson.value d "network") with (JString "tcp")
           end;
    cbn [QJson.toString]; change (String.eqb "tcp" "tcp") with true; cbv iota;
    match goal with
    | |- context [String.eqb (QString.toLower ?t) "http"] =>
        destruct (String.eqb (QString.toLower t) "http")
    end;
    unfold mbind, Rand_bind, mret, Rand_ret;
    [destruct (getRandomUserAgents 24 r) as [userAgents r']|];
    repeat split; try reflexivity; discriminate.
Qed.

End ImportedStreamFacts.

(** ** The random user agents *)

Section UserAgentFacts.
Context `{Platform}.

(** [std::rand()] returns a number from 0 to [RAND_MAX]. *)
Hypothesis std_rand_nonneg : ∀ r : RandState, 0 ≤ (std_rand r).1.

Lemma operating_system_drawn (n : Z) :
  0 ≤ n →
  ∃ os, OPERATING_SYSTEMS !! Z.to_nat (Z.rem n 3) = Some os
        ∧ os ∈ OPERATING_SYSTEMS.
Proof.
  intros Hn.
  assert (Hrem : 0 ≤ Z.rem n 3 < 3) by (apply Z.rem_bound_pos; lia).
  assert (Hcases : Z.rem n 3 = 0 ∨ Z.rem n 3 = 1 ∨ Z.rem n 3 = 2) by lia.
  unfold OPERATING_SYSTEMS.
  destruct Hcases as [-> | [-> | ->]]; eexists; (split; [reflexivity|]);
    rewrite !elem_of_cons; auto.
Qed.

Lemma randomUserAgentsLoop_shape (k : nat) (userAgents : QJsonArray)
    (r : RandState) :
  ∃ drawn,
    (randomUserAgentsLoop k userAgents r).1 = userAgents ++ drawn
    ∧ List.length drawn = k
    ∧ Forall chromeUserAgent drawn.
Proof.
  revert userAgents r. induction k as [|k IH]; intros userAgents r.
  - exists []. simpl. by rewrite app_nil_r.
  - simpl. unfold mbind, Rand_bind.
    pose proof (std_rand_nonneg r) as H1.
    destruct (std_rand r) as [r1 s1].
    pose proof (std_rand_nonneg s1) as H2.
    destruct (std_rand s1) as [r2 s2].
    pose proof (std_rand_nonneg s2) as H3.
    destruct (std_rand s2) as [r3 s3].
    pose proof (std_rand_nonneg s3) as H4.
    destruct (std_rand s3) as [r4 s4]. simpl in H1, H2, H3, H4.
    destruct (operating_system_drawn r1 H1) as (os & Hos & Hin).
    rewrite Hos. simpl default.
    match goal with
    | |- context [randomUserAgentsLoop k (userAgents ++ [?a]) s4] =>
        destruct (IH (userAgents ++ [a]) s4) as (drawn & Hloop & Hlen & Hall);
        exists (a :: drawn)
    end.
    rewrite Hloop, <- app_assoc. split; [done|]. split; [simpl; lia|].
    apply Forall_cons. split; [|done].
    exists os, (Z.rem r2 30 + 50), (Z.rem r3 4000 + 1000), (Z.rem r4 100).
    split; [done|].
    assert (0 ≤ Z.rem r2 30 < 30) by (apply Z.rem_bound_pos; lia).
    assert (0 ≤ Z.rem r3 4000 < 4000) by (apply Z.rem_bound_pos; lia).
    assert (0 ≤ Z.rem r4 100 < 100) by (apply Z.rem_bound_pos; lia).
    repeat split; lia.
Qed.

(** X18: with a generator whose numbers are not negative,
    [getRandomUserAgents n] returns exactly [n] user agents (none for a
    negative [n]), each one naming one of the three operating systems and
    a version of Chrome [major.0.build.patch] with the major from 50 to 79,
    the build from 1000 to 4999 and the patch from 0 to 99. *)
Theorem getRandomUserAgents_shape (n : Z) (r : RandState) :
  List.length (getRandomUserAgents n r).1 = Z.to_nat n
  ∧ Forall chromeUserAgent (getRandomUserAgents n r).1.
Proof.
  unfold getRandomUserAgents.
  destruct (randomUserAgentsLoop_shape (Z.to_nat n) [] r)
    as (drawn & -> & Hlen & Hall).
  by rewrite app_nil_l.
Qed.

End UserAgentFacts.

(** ** URLs *)

Section UrlFacts.

Import QRegularExpression RegexLanguage.

(** *** The classes of the pattern *)

Lemma hostCharacterb_spec (a : ascii) :
  hostCharacterb a = true ↔ hostCharacter a.
Proof.
  unfold hostCharacterb, hostCharacter.
  rewrite andb_true_iff, !negb_true_iff. apply and_iff_compat_l.
  rewrite <- not_true_iff_false, existsb_exists. split.
  - intros Hno Hin. apply Hno. exists a.
    split; [by apply list_elem_of_In|apply Ascii.eqb_refl].
  - intros Hout (c & Hin%list_elem_of_In & ->%Ascii.eqb_eq). done.
Qed.

Lemma hostCharacters_spec (a : ascii) :
  inClass a hostCharacters = true ↔ hostCharacter a.
Proof.
  rewrite <- hostCharacterb_spec.
  assert (Heq : inClass a hostCharacters = hostCharacterb a)
    by (by destruct a as [[] [] [] [] [] [] [] []]).
  by rewrite Heq.
Qed.

Lemma nonSpaceCharacters_spec (a : ascii) :
  inClass a nonSpaceCharacters = true ↔ nonSpace a.
Proof.
  unfold nonSpace.
  assert (Heq : inClass a nonSpaceCharacters = negb (QString.isSpace a))
    by (by destruct a as [[] [] [] [] [] [] [] []]).
  by rewrite Heq, negb_true_iff.
Qed.

Lemma within_madeOf (ranges : list (ascii * ascii)) (P : ascii → Prop)
    (text : string) :
  (∀ a, inClass a ranges = true ↔ P a) →
  within ranges text ↔ madeOf P text.
Proof.
  intros Hspec. unfold within, madeOf.
  rewrite !Forall_forall. split; intros Hall a Ha; by apply Hspec, Hall.
Qed.

Lemma lang_star_cls (ranges : list (ascii * ascii)) (s : string) :
  lang (RStar (RCls ranges)) s ↔ within ranges s.
Proof.
  split.
  - intros (parts & Hall & ->)%lang_star_inv.
    induction Hall as [|part parts Hp Hall IH]; simpl; [apply within_nil|].
    apply lang_cls_inv in Hp as (a & -> & Ha).
    rewrite app_cons_string, app_nil_l_string. by apply within_cons.
  - induction s as [|a s IH]; [intros _; constructor|].
    intros [Ha Hw]%within_cons.
    apply (lang_star_app _ (String a EmptyString) s); [|by apply IH].
    apply lang_cls_inv. eauto.
Qed.

Lemma lang_plus_cls (ranges : list (ascii * ascii)) (s : string) :
  lang (plus (RCls ranges)) s ↔ s ≠ EmptyString ∧ within ranges s.
Proof.
  unfold plus. rewrite lang_seq_inv. split.
  - intros (s1 & s2 & -> & (a & -> & Ha)%lang_cls_inv & Hw%lang_star_cls).
    rewrite app_cons_string, app_nil_l_string. split; [done|].
    by apply within_cons.
  - intros [Hne Hw]. destruct s as [|a s]; [done|].
    apply within_cons in Hw as [Ha Hw].
    exists (String a EmptyString), s. split; [done|].
    split; [apply lang_cls_inv; eauto|by apply lang_star_cls].
Qed.

(** *** The scheme *)

Lemma lang_letter (lower upper : ascii) (s : string) :
  lang (letter lower upper) s ↔
  s = String lower EmptyString ∨ s = String upper EmptyString.
Proof.
  unfold letter. rewrite lang_cls_inv. split.
  - intros (a & -> & Ha). unfold inClass in Ha. simpl in Ha.
    rewrite orb_false_r in Ha. apply orb_true_iff in Ha as [Ha|Ha].
    + left. apply (lang_chr_inv lower). apply lang_cls_inv. exists a.
      split; [done|]. unfold inClass. simpl. by rewrite Ha.
    + right. apply (lang_chr_inv upper). apply lang_cls_inv. exists a.
      split; [done|]. unfold inClass. simpl. by rewrite Ha.
  - intros [-> | ->]; eexists; (split; [done|]); unfold inClass, inRange;
      simpl; rewrite Nat.leb_refl; simpl; by rewrite ?orb_true_r.
Qed.

Lemma lowerChar_inv (a c : ascii) :
  QString.lowerChar a = c →
  a = c ∨ (65 ≤ nat_of_ascii a ≤ 90)%nat
          ∧ nat_of_ascii c = (nat_of_ascii a + 32)%nat.
Proof.
  unfold QString.lowerChar.
  destruct ((65 <=? nat_of_ascii a)%nat && (nat_of_ascii a <=? 90)%nat) eqn:Hup;
    [|by left].
  apply andb_true_iff in Hup as [Hlo%Nat.leb_le Hhi%Nat.leb_le].
  intros <-. right. split; [lia|]. apply nat_ascii_embedding. lia.
Qed.

Lemma lowerChar_letter (a lower upper : ascii) :
  (97 ≤ nat_of_ascii lower ≤ 122)%nat →
  nat_of_ascii lower = (nat_of_ascii upper + 32)%nat →
  QString.lowerChar a = lower ↔ a = lower ∨ a = upper.
Proof.
  intros Hlower Hupper. split.
  - intros [->|[Hrange Hcode]]%lowerChar_inv; [by left|right].
    rewrite <- (ascii_nat_embedding a), <- (ascii_nat_embedding upper).
    f_equal. lia.
  - intros [-> | ->]; unfold QString.lowerChar.
    + replace ((65 <=? nat_of_ascii lower)%nat && (nat_of_ascii lower <=? 90)%nat)
        with false; [done|].
      symmetry. apply andb_false_iff. right. apply Nat.leb_gt. lia.
    + replace ((65 <=? nat_of_ascii upper)%nat && (nat_of_ascii upper <=? 90)%nat)
        with true.
      * rewrite <- Hupper. apply ascii_nat_embedding.
      * symmetry. apply andb_true_iff. split; apply Nat.leb_le; lia.
Qed.

Lemma lang_letter_lower (lower upper : ascii) (s : string) :
  (97 ≤ nat_of_ascii lower ≤ 122)%nat →
  nat_of_ascii lower = (nat_of_ascii upper + 32)%nat →
  lang (letter lower upper) s ↔
  ∃ a, s = String a EmptyString ∧ QString.lowerChar a = lower.
Proof.
  intros Hlower Hupper. rewrite lang_letter. split.
  - intros [-> | ->]; eexists; (split; [done|]);
      apply (lowerChar_letter _ lower upper); auto.
  - intros (a & -> & [-> | ->]%(lowerChar_letter _ lower upper)); auto.
Qed.

Lemma scheme_lang (s : string) :
  lang (RSeq (letter "h" "H") (RSeq (letter "t" "T") (RSeq (letter "t" "T")
         (RSeq (letter "p" "P") (opt (letter "s" "S")))))) s
  ↔ httpScheme s.
Proof.
  unfold httpScheme, opt.
  rewrite lang_seq_inv.
  setoid_rewrite lang_seq_inv. setoid_rewrite lang_seq_inv.
  setoid_rewrite lang_seq_inv. setoid_rewrite lang_alt_inv.
  setoid_rewrite lang_eps_inv.
  setoid_rewrite (lang_letter_lower "h" "H"); [|first [reflexivity | split; apply Nat.leb_le; reflexivity]..].
  setoid_rewrite (lang_letter_lower "t" "T"); [|first [reflexivity | split; apply Nat.leb_le; reflexivity]..].
  setoid_rewrite (lang_letter_lower "p" "P"); [|first [reflexivity | split; apply Nat.leb_le; reflexivity]..].
  setoid_rewrite (lang_letter_lower "s" "S"); [|first [reflexivity | split; apply Nat.leb_le; reflexivity]..].
  split.
  - intros (s1 & ? & -> & (a1 & -> & H1) & s2 & ? & -> & (a2 & -> & H2)
              & s3 & ? & -> & (a3 & -> & H3) & s4 & s5 & -> & (a4 & -> & H4)
              & [->|(a5 & -> & H5)]).
    + left. rewrite !app_cons_string, !app_nil_l_string. simpl.
      by rewrite H1, H2, H3, H4.
    + right. rewrite !app_cons_string, !app_nil_l_string. simpl.
      by rewrite H1, H2, H3, H4, H5.
  - intros [Hs|Hs].
    + destruct s as [|a1 [|a2 [|a3 [|a4 [|a5 s]]]]]; try discriminate.
      simpl in Hs. injection Hs as H1 H2 H3 H4.
      exists (String a1 EmptyString), (String a2 (String a3 (String a4 EmptyString))).
      split; [done|]. split; [eauto|].
      exists (String a2 EmptyString), (String a3 (String a4 EmptyString)).
      split; [done|]. split; [eauto|].
      exists (String a3 EmptyString), (String a4 EmptyString).
      split; [done|]. split; [eauto|].
      exists (String a4 EmptyString), EmptyString.
      split; [done|]. split; [eauto|]. by left.
    + destruct s as [|a1 [|a2 [|a3 [|a4 [|a5 [|a6 s]]]]]]; try discriminate.
      simpl in Hs. injection Hs as H1 H2 H3 H4 H5.
      exists (String a1 EmptyString),
        (String a2 (String a3 (String a4 (String a5 EmptyString)))).
      split; [done|]. split; [eauto|].
      exists (String a2 EmptyString), (String a3 (String a4 (String a5 EmptyString))).
      split; [done|]. split; [eauto|].
      exists (String a3 EmptyString), (String a4 (String a5 EmptyString)).
      split; [done|]. split; [eauto|].
      exists (String a4 EmptyString), (String a5 EmptyString).
      split; [done|]. split; [eauto|]. right. eauto.
Qed.

(** *** The host and the path *)

Lemma hostGroup_lang (t : string) :
  lang (RSeq (plus (RCls hostCharacters)) (opt (chr "."))) t ↔ hostGroup t.
Proof.
  unfold hostGroup, opt. rewrite lang_seq_inv. split.
  - intros (run & dot & -> & [Hne Hw]%lang_plus_cls & Hdot).
    exists run. split; [done|].
    split; [by apply (within_madeOf _ _ _ hostCharacters_spec)|].
    apply lang_alt_inv in Hdot as [->%lang_eps_inv| ->%lang_chr_inv].
    + left. apply app_nil_r_string.
    + by right.
  - intros (run & Hne & Hw & Hg).
    apply (within_madeOf _ _ _ hostCharacters_spec) in Hw.
    destruct Hg as [-> | ->].
    + exists run, EmptyString. rewrite app_nil_r_string. split; [done|].
      split; [by apply lang_plus_cls|]. apply lang_alt_l. constructor.
    + exists run, ".". split; [done|].
      split; [by apply lang_plus_cls|]. apply lang_alt_r. by apply lang_chr_inv.
Qed.

Lemma hostGroups_lang (t : string) :
  lang (plus (RSeq (plus (RCls hostCharacters)) (opt (chr ".")))) t ↔
  ∃ groups, groups ≠ [] ∧ Forall hostGroup groups ∧ t = glued groups.
Proof.
  unfold plus at 1. rewrite lang_seq_inv. split.
  - intros (s1 & s2 & -> & Hg%hostGroup_lang & (parts & Hall & ->)%lang_star_inv).
    exists (s1 :: parts). split; [done|]. split; [|done].
    constructor; [done|].
    eapply Forall_impl; [exact Hall|]. intros g. apply hostGroup_lang.
  - intros (groups & Hne & Hall & ->).
    destruct Hall as [|g groups Hg Hall]; [done|].
    exists g, (glued groups). split; [done|].
    split; [by apply hostGroup_lang|].
    apply lang_star_inv. exists groups. split; [|done].
    eapply Forall_impl; [exact Hall|]. intros g'. apply hostGroup_lang.
Qed.

Lemma urlPath_lang (t : string) :
  lang (opt (RSeq (chr "/") (RStar (RCls nonSpaceCharacters)))) t ↔ urlPath t.
Proof.
  unfold urlPath, opt. rewrite lang_alt_inv, lang_eps_inv, lang_seq_inv.
  apply or_iff_compat_l. split.
  - intros (s1 & rest & -> & ->%lang_chr_inv & Hw%lang_star_cls).
    exists rest. split; [done|].
    by apply (within_madeOf _ _ _ nonSpaceCharacters_spec).
  - intros (rest & -> & Hw). exists "/", rest. split; [done|].
    split; [by apply lang_chr_inv|].
    by apply lang_star_cls, (within_madeOf _ _ _ nonSpaceCharacters_spec).
Qed.

Lemma prefix_lang (t : string) :
  lang (opt (RSeq (chr "-") (chr "."))) t ↔ t = EmptyString ∨ t = "-.".
Proof.
  unfold opt. rewrite lang_alt_inv, lang_eps_inv, lang_seq_inv.
  apply or_iff_compat_l. split.
  - by intros (s1 & s2 & -> & ->%lang_chr_inv & ->%lang_chr_inv).
  - intros ->. exists "-", ".". split; [done|].
    split; by apply lang_chr_inv.
Qed.

Lemma separator_lang (t : string) :
  lang (RSeq (chr ":") (RSeq (chr "/") (chr "/"))) t ↔ t = "://".
Proof.
  rewrite lang_seq_inv. setoid_rewrite lang_seq_inv.
  setoid_rewrite lang_chr_inv. split.
  - by intros (s1 & ? & -> & -> & s2 & s3 & -> & -> & ->).
  - intros ->. exists ":", "//". split; [done|]. split; [done|].
    by exists "/", "/".
Qed.

Lemma urlRegex_lang (s : string) : lang urlRegex s ↔ httpUrl s.
Proof.
  unfold urlRegex, seqs, httpUrl. split.
  - intros Hl.
    apply lang_seq_inv in Hl as (s1 & ? & -> & H1 & Hl).
    apply lang_seq_inv in Hl as (s2 & ? & -> & H2 & Hl).
    apply lang_seq_inv in Hl as (s3 & ? & -> & H3 & Hl).
    apply lang_seq_inv in Hl as (s4 & ? & -> & H4 & Hl).
    apply lang_seq_inv in Hl as (s5 & ? & -> & H5 & Hl).
    apply lang_seq_inv in Hl as (? & ? & -> & ->%lang_chr_inv & Hl).
    apply lang_seq_inv in Hl as (? & ? & -> & ->%lang_chr_inv & Hl).
    apply lang_seq_inv in Hl as (? & ? & -> & ->%lang_chr_inv & Hl).
    apply lang_seq_inv in Hl as (prefix & ? & -> & Hprefix%prefix_lang & Hl).
    apply lang_seq_inv in Hl
      as (? & path & -> & (groups & Hne & Hall & ->)%hostGroups_lang
          & Hpath%urlPath_lang).
    exists (s1 +:+ s2 +:+ s3 +:+ s4 +:+ s5), prefix, groups, path.
    split; [|by rewrite !app_assoc_string].
    apply scheme_lang. by repeat apply lang_seq.
  - intros (scheme & prefix & groups & path & Hscheme%scheme_lang
              & Hprefix%prefix_lang & Hne & Hall & Hpath%urlPath_lang & ->).
    apply lang_seq_inv in Hscheme as (s1 & ? & -> & H1 & Hl).
    apply lang_seq_inv in Hl as (s2 & ? & -> & H2 & Hl).
    apply lang_seq_inv in Hl as (s3 & ? & -> & H3 & Hl).
    apply lang_seq_inv in Hl as (s4 & s5 & -> & H4 & H5).
    rewrite !app_assoc_string.
    apply lang_seq; [done|]. apply lang_seq; [done|].
    apply lang_seq; [done|]. apply lang_seq; [done|].
    apply lang_seq; [done|].
    apply (lang_seq _ _ ":"); [by apply lang_chr_inv|].
    apply (lang_seq _ _ "/"); [by apply lang_chr_inv|].
    apply (lang_seq _ _ "/"); [by apply lang_chr_inv|].
    apply lang_seq; [done|]. apply lang_seq; [|done].
    apply hostGroups_lang. by exists groups.
Qed.

(** X19: a URL is accepted exactly when it is http or https in any case of
    the letters, then [://], then [-.] or nothing, then one group or more
    made of characters that are neither white space nor one of [/ ? . # -],
    each group followed by one dot at most, then nothing or a slash
    followed by characters that are not white space; or such a URL
    followed by one line feed. *)
Theorem isUrlValid_http_urls (url : string) :
  isUrlValid url = true ↔
  httpUrl url ∨ ∃ text, url = text +:+ lineFeed ∧ httpUrl text.
Proof.
  unfold isUrlValid. rewrite hasMatch_lang, urlRegex_lang.
  split; intros [Hu|(text & -> & Hu)]; auto; right; exists text;
    (split; [done|]); by apply urlRegex_lang.
Qed.

End UrlFacts.

(** ** The URL of the GFW list, and the latencies in the list of servers *)

Section GfwAndLatencyFacts.
Context `{Platform} {Store : Type} `{Configurator Store}.

(** X20: [setGfwListUrl] stores the URL exactly when [isUrlValid] accepts
    it, as the one member of the update, and then emits the signal of a
    changed configuration.  An empty URL is reported as missing and a
    refused one as invalid; in both cases nothing else happens. *)
Theorem setGfwListUrl_all_or_nothing (gfwListUrl : string) (st : AppProxy) :
  let st' := setGfwListUrl gfwListUrl st in
  (isUrlValid gfwListUrl = true →
     configurator st' =
       cfg_setAppConfig {[ "gfwListUrl" := JString gfwListUrl ]} (configurator st)
     ∧ serverLatency st' = serverLatency st
     ∧ events st' = events st ++ [Emit appConfigChanged])
  ∧ (gfwListUrl = EmptyString →
     st' = emit (appConfigError "Missing the value of 'GFW List URL'.") st)
  ∧ (gfwListUrl ≠ EmptyString → isUrlValid gfwListUrl = false →
     st' = emit (appConfigError "The value of 'GFW List URL' seems invalid.") st).
Proof.
  intros st'. subst st'. unfold setGfwListUrl, getStringConfigError.
  assert (Hcontains : QJson.contains
            (QJsonObjectOps.object [("gfwListUrl", JString gfwListUrl)])
            "gfwListUrl" = true).
  { apply bool_decide_eq_true_2. by eexists. }
  assert (Hvalue : QJson.toString (QJson.value
            (QJsonObjectOps.object [("gfwListUrl", JString gfwListUrl)])
            "gfwListUrl") = gfwListUrl) by reflexivity.
  rewrite Hcontains, Hvalue. simpl negb. simpl orb.
  split; [|split].
  - intros Hvalid.
    assert (Hne : QString.isEmpty gfwListUrl = false)
      by (by destruct gfwListUrl).
    rewrite Hne. simpl. rewrite Hvalid. simpl. done.
  - intros ->. reflexivity.
  - intros Hne Hinvalid.
    assert (Hne' : QString.isEmpty gfwListUrl = false)
      by (by destruct gfwListUrl).
    rewrite Hne'. simpl. rewrite Hinvalid. reflexivity.
Qed.

(** X21: the latencies delivered by a measurement are those listed next.
    After [returnServerLatency] the list emitted by [getServers] has one
    entry for each stored server, in order; the entry of a server has the
    member connected, and for the latency: the delivered value of its name
    as a number when one was delivered, else the value cached before, else
    whatever the stored server holds. *)
Theorem measured_latency_listed (latency : gmap string QVariant)
    (st : AppProxy) :
  let st' := getServers (returnServerLatency latency st) in
  ∃ servers,
    events st' =
      events st ++ [Emit (serverLatencyReady latency); Emit (serversReady servers)]
    ∧ List.length servers = List.length (cfg_getServers (configurator st))
    ∧ ∀ i item, cfg_getServers (configurator st) !! i = Some item →
        ∃ listed,
          servers !! i = Some (JObject listed)
          ∧ listed !! "connected" =
              Some (JBool (bool_decide
                (nameOf item ∈ cfg_getConnectedServerNames (configurator st))))
          ∧ (∀ l, latency !! nameOf item = Some l →
               listed !! "latency" = Some (JDouble (QVariant_toInt l)))
          ∧ (∀ l, latency !! nameOf item = None →
               serverLatency st !! nameOf item = Some l →
               listed !! "latency" = Some (JDouble (QVariant_toInt l)))
          ∧ (latency !! nameOf item = None →
             serverLatency st !! nameOf item = None →
             listed !! "latency" = QJson.toObject item !! "latency").
Proof.
  intros st'. subst st'. unfold getServers, returnServerLatency. simpl.
  eexists. split; [by rewrite <- app_assoc|].
  split; [by rewrite length_fmap|].
  intros i item Hitem. rewrite list_lookup_fmap, Hitem. simpl.
  unfold withStatus. fold (nameOf item).
  rewrite map_fold_storeLatency.
  eexists. split; [reflexivity|].
  destruct (latency !! nameOf item) as [l|] eqn:Hl.
  - split; [by rewrite lookup_insert_ne, lookup_insert_eq|].
    split; [intros ? [= <-]; by rewrite lookup_insert_eq|].
    split; [done|done].
  - destruct (serverLatency st !! nameOf item) as [l|] eqn:Hc.
    + split; [by rewrite lookup_insert_ne, lookup_insert_eq|].
      split; [done|]. split; [|done].
      intros ? _ [= <-]. by rewrite lookup_insert_eq.
    + split; [by rewrite lookup_insert_eq|].
      split; [done|]. split; [done|]. intros _ _.
      by rewrite lookup_insert_ne.
Qed.

End GfwAndLatencyFacts.

(** ** A subscription without any readable line *)

Section UnreadableFacts.
Context `{Platform} {Store : Type} `{Configurator Store}.

Lemma no_line_kept (subscriptionUrl : string) (servers : list string) :
  (∀ server, server ∈ servers → skipped subscriptionUrl server = true) →
  filter (λ server, skipped subscriptionUrl server = false) servers = [].
Proof.
  induction servers as [|server servers IH]; intros Hall; [done|].
  rewrite filter_cons.
  assert (Hs : skipped subscriptionUrl server = true) by (apply Hall; by left).
  case_decide; [congruence|].
  apply IH. intros line Hin. apply Hall. by right.
Qed.

(** X22: a bundle that is not empty and of which no line is readable (each
    one is an obfuscated Shadowsocks link or has an unrecognised scheme)
    still removes the servers of the subscription: the configurator is left
    as [removeSubscriptionServers] returns it, no server is added, every
    line leaves its warning and the signal of changed servers is emitted
    last. *)
Theorem unreadable_subscription_removes_servers
    (subsriptionServers subsriptionUrl : string) (st : AppProxy) :
  subsriptionServers ≠ EmptyString →
  (∀ server,
     server ∈ QString.split QRegularExpression.newline subsriptionServers →
     skipped subsriptionUrl server = true) →
  let st' := addSubscriptionServers subsriptionServers subsriptionUrl st in
  configurator st' =
    (cfg_removeSubscriptionServers subsriptionUrl (configurator st)).2
  ∧ serverLatency st' = serverLatency st
  ∧ ∃ warnings,
      events st' = events st ++ warnings ++ [Emit serversChanged]
      ∧ ∀ server,
          server ∈ QString.split QRegularExpression.newline subsriptionServers →
          warningFor subsriptionUrl server ∈ warnings.
Proof.
  intros Hne Hall st'. subst st'. unfold addSubscriptionServers.
  assert (Hsize : (QString.size subsriptionServers =? 0) = false).
  { destruct subsriptionServers; [done|]. unfold QString.size. simpl. lia. }
  rewrite Hsize.
  destruct (cfg_removeSubscriptionServers subsriptionUrl (configurator st))
    as [removedServers store]. simpl.
  destruct (import_loop removedServers subsriptionUrl
              (QString.split QRegularExpression.newline subsriptionServers)
              (setConfigurator store st))
    as ((profiles & Hprofiles & Hstore) & Hlat & more & Hev & Hwarn).
  rewrite (no_line_kept _ _ Hall) in Hprofiles.
  apply Forall2_nil_inv_l in Hprofiles. subst profiles.
  split; [by rewrite Hstore|]. split; [by rewrite Hlat|].
  exists more. split; [by rewrite Hev, <- app_assoc|].
  intros server Hin. apply Hwarn; [done|by apply Hall].
Qed.

End UnreadableFacts.

(** ** The records that pass validation *)

Section AcceptanceFacts.
Context `{Platform}.

Lemma removeAll_nil_Forall (l : list string) :
  removeAll EmptyString l = [] ↔ Forall (λ e, e = EmptyString) l.
Proof. by rewrite removeAll_nil, Forall_forall. Qed.

(** What [getStringConfigError] decides with one predicate. *)
Lemma getStringConfigError_one serverConfig key name (p : string → bool) :
  getStringConfigError serverConfig key name [p] = EmptyString ↔
  ∃ text, textField serverConfig key text ∧ p text = true.
Proof.
  unfold getStringConfigError. split.
  - destruct (negb _ || _) eqn:Hp; [discriminate|].
    apply present_text in Hp as (text & Hk & Hne & ->). simpl.
    intros Hm. exists text. split; [done|]. by destruct (p text).
  - intros (text & [Hp Ht]%textField_present & Hm). rewrite Hp, Ht. simpl.
    by rewrite Hm.
Qed.

Lemma getNumericConfigError_withinBounds serverConfig key name lowerBound upperBound :
  getNumericConfigError serverConfig key name lowerBound upperBound = EmptyString
  ↔ withinBounds serverConfig key lowerBound upperBound.
Proof.
  rewrite getNumericConfigError_empty. unfold withinBounds.
  split; intros (value & Hn & Hr); exists value; (split; [done|]); lia.
Qed.

Lemma dnsErrors_nil (dnsServers : list string) :
  Forall (λ e, e = EmptyString) (dnsErrors dnsServers) ↔
  Forall (λ dnsServer, isIpAddrValid (QString.trimmed dnsServer) = true)
    dnsServers.
Proof.
  induction dnsServers as [|d l IH]; simpl.
  - split; constructor.
  - destruct (isIpAddrValid (QString.trimmed d)) eqn:Hd; simpl.
    + rewrite IH, Forall_cons. tauto.
    + unfold msgInvalidDns, tr. split.
      * intros [Hm _]%Forall_cons. discriminate Hm.
      * intros [Hv _]%Forall_cons. congruence.
Qed.

(** X23: the application configuration passes validation exactly when the
    language and the protocol are non-empty strings, the listening address
    a valid IPv4 address, the listening port and the port of the PAC server
    numerals from 1 to 65535 whose texts differ, and the DNS servers a
    non-empty string of which every entry between commas is, once trimmed,
    a valid IPv4 address. *)
Theorem app_config_accepted_iff (appConfig : QJsonObject) :
  getAppConfigErrors appConfig = [] ↔
  (∃ language, textField appConfig "language" language)
  ∧ (∃ protocol, textField appConfig "serverProtocol" protocol)
  ∧ (∃ address, textField appConfig "serverIp" address
                ∧ isIpAddrValid address = true)
  ∧ withinBounds appConfig "serverPort" 1 65535
  ∧ withinBounds appConfig "pacPort" 1 65535
  ∧ QJson.toString (QJson.value appConfig "pacPort")
    ≠ QJson.toString (QJson.value appConfig "serverPort")
  ∧ ∃ dns, textField appConfig "dns" dns
           ∧ Forall (λ dnsServer,
                       isIpAddrValid (QString.trimmed dnsServer) = true)
               (QString.split "," dns).
Proof.
  unfold getAppConfigErrors. rewrite removeAll_nil_Forall.
  rewrite <- (getStringConfigError_text appConfig "language" (tr "Language")).
  rewrite <- (getStringConfigError_text appConfig "serverProtocol"
                (tr "Local Server Protocol")).
  rewrite <- (getStringConfigError_one appConfig "serverIp"
                (tr "Listening IP Address") isIpAddrValid).
  rewrite <- (getNumericConfigError_withinBounds appConfig "serverPort"
                (tr "Listening Port") 1 65535).
  rewrite <- (getNumericConfigError_withinBounds appConfig "pacPort"
                (tr "PAC Server Port") 1 65535).
  set (e1 := getStringConfigError appConfig "language" _ _).
  set (e2 := getStringConfigError appConfig "serverProtocol" _ _).
  set (e3 := getStringConfigError appConfig "serverIp" _ _).
  set (e4 := getNumericConfigError appConfig "serverPort" _ _ _).
  set (e5 := getNumericConfigError appConfig "pacPort" _ _ _).
  assert (Hdns :
    Forall (λ e, e = EmptyString)
      (if negb (QJson.contains appConfig "dns")
          || QString.isEmpty (QJson.toString (QJson.value appConfig "dns"))
       then [msgMissingDns]
       else dnsErrors
              (QString.split "," (QJson.toString (QJson.value appConfig "dns"))))
    ↔ ∃ dns, textField appConfig "dns" dns
             ∧ Forall (λ dnsServer,
                         isIpAddrValid (QString.trimmed dnsServer) = true)
                 (QString.split "," dns)).
  { destruct (negb _ || _) eqn:Hp.
    - unfold msgMissingDns, tr. split.
      + intros [Hm _]%Forall_cons. discriminate Hm.
      + intros (dns & [Hp' _]%textField_present & _). congruence.
    - apply present_text in Hp as (dns & Hk & Hne & ->).
      rewrite dnsErrors_nil. split.
      + intros Hall. by exists dns.
      + intros (dns' & [Hk' _] & Hall). by simplify_eq. }
  rewrite <- Hdns. clear Hdns.
  destruct (String.eqb_spec (QJson.toString (QJson.value appConfig "pacPort"))
              (QJson.toString (QJson.value appConfig "serverPort")))
    as [Hsame|Hdiffer];
    destruct (negb _ || _); simpl;
    rewrite ?Forall_app, ?Forall_cons, ?Forall_nil; unfold msgSamePort, tr;
    split; intros Hall; try tauto.
  all: repeat match goal with
              | H : _ ∧ _ |- _ => destruct H
              end; try done; try discriminate.
Qed.

(** The checks of the transport of a VMESS server. *)
Lemma stream_errors_nil serverConfig network :
  Forall (λ e, e = EmptyString)
    (getV2RayStreamSettingsErrors serverConfig network)
  ↔ transportAccepted serverConfig network.
Proof.
  unfold getV2RayStreamSettingsErrors, transportAccepted.
  destruct (String.eqb_spec network "kcp") as [->|Hkcp].
  { split; [|by intros [? _]].
    rewrite !Forall_cons. intros (_ & _ & Hup & _).
    by apply unbounded_above_never_empty in Hup. }
  destruct (String.eqb_spec network "ws") as [->|Hws]; simpl orb.
  { rewrite !Forall_cons, Forall_nil.
    rewrite getStringConfigError_one, getStringConfigError_text.
    split.
    - intros (Hhost & Hpath & _). split; [done|]. split; [done|].
      split; [discriminate|discriminate].
    - intros (_ & Hboth & _). destruct Hboth as [Hhost Hpath]; [by left|]. done. }
  destruct (String.eqb_spec network "http") as [->|Hhttp]; simpl orb.
  { rewrite !Forall_cons, Forall_nil.
    rewrite getStringConfigError_one, getStringConfigError_text.
    split.
    - intros (Hhost & Hpath & _). split; [done|]. split; [done|].
      split; [discriminate|discriminate].
    - intros (_ & Hboth & _). destruct Hboth as [Hhost Hpath]; [by right|]. done. }
  destruct (String.eqb_spec network "domainsocket") as [->|Hds].
  { rewrite !Forall_cons, Forall_nil. rewrite getStringConfigError_one.
    split.
    - intros (Hpath & _). split; [done|].
      split; [intros [|]; discriminate|]. split; [done|discriminate].
    - intros (_ & _ & Hsocket & _). split; [by apply Hsocket|done]. }
  destruct (String.eqb_spec network "quic") as [->|Hquic].
  { rewrite !Forall_cons, Forall_nil. rewrite !getStringConfigError_text.
    split.
    - intros (Hsecurity & Hheader & Hkey & _). split; [done|].
      split; [intros [|]; discriminate|]. split; [discriminate|]. done.
    - intros (_ & _ & _ & Hq). destruct Hq as (? & ? & ?); done. }
  rewrite Forall_nil. split; [|done]. intros _.
  split; [done|]. split; [intros [|]; done|]. split; done.
Qed.

(** X24: a VMESS server passes validation exactly when its name, ID,
    security, network and network security are non-empty strings, its
    address a non-empty string that is a valid IPv4 address or host name,
    its port and alter ID numerals from 0 to 65535, its multiplexing a
    numeral from -1 to 1024, and its transport accepted: never on kcp; on
    ws and http with a host that is a valid host name and a non-empty
    path; on domainsocket with a path that [isFileExists] finds; on quic
    with a non-empty security, header and key; on every other network
    without more. *)
Theorem vmess_server_accepted_iff (serverConfig : QJsonObject) :
  getV2RayServerConfigErrors serverConfig = [] ↔
  (∃ name, textField serverConfig "serverName" name)
  ∧ (∃ address, textField serverConfig "serverAddr" address
                ∧ (isIpAddrValid address = true
                   ∨ isDomainNameValid address = true))
  ∧ withinBounds serverConfig "serverPort" 0 65535
  ∧ (∃ id, textField serverConfig "id" id)
  ∧ withinBounds serverConfig "alterId" 0 65535
  ∧ (∃ security, textField serverConfig "security" security)
  ∧ withinBounds serverConfig "mux" (-1) 1024
  ∧ (∃ network, textField serverConfig "network" network
                ∧ transportAccepted serverConfig network)
  ∧ ∃ networkSecurity, textField serverConfig "networkSecurity" networkSecurity.
Proof.
  unfold getV2RayServerConfigErrors. rewrite removeAll_nil_Forall.
  rewrite Forall_app, !Forall_cons, Forall_nil.
  rewrite !getStringConfigError_text, getStringConfigError_either,
    !getNumericConfigError_withinBounds, stream_errors_nil.
  split.
  - intros ((Hname & Haddr & Hport & Hid & Halter & Hsecurity & Hmux
               & (network & Hnetwork) & HnetworkSecurity & _) & Htransport).
    rewrite (textField_toString _ _ _ Hnetwork) in Htransport.
    repeat (split; [done|]). split; [by exists network|done].
  - intros (Hname & Haddr & Hport & Hid & Halter & Hsecurity & Hmux
              & (network & Hnetwork & Htransport) & HnetworkSecurity).
    rewrite (textField_toString _ _ _ Hnetwork).
    split; [|done]. repeat (split; [done|]). split; [by exists network|done].
Qed.

End AcceptanceFacts.

(** ** More runs on the reference platform *)

Section MoreReferenceRuns.

#[local] Existing Instance Reference.platform.
#[local] Existing Instance SpecStore.configurator.

Import Runs MoreRuns.

(** A text is free of some characters when a test of each one fails. *)
Lemma freeOf_check (characters : list ascii) (text : string) :
  forallb (λ c, negb (existsb (Ascii.eqb c) (list_ascii_of_string text)))
    characters = true →
  freeOf characters text.
Proof.
  rewrite forallb_forall. intros Hall c Hc Hin.
  specialize (Hall c (proj1 (list_elem_of_In _ _) Hc)).
  apply negb_true_iff, not_true_iff_false in Hall. apply Hall.
  apply existsb_exists. exists c.
  split; [by apply list_elem_of_In|apply Ascii.eqb_refl].
Qed.

(** C9 at an update whose two ports are 1080, written 1080 and 01080: it
    passes validation and both ports are stored as the number 1080. *)
Lemma same_port_rule_compares_texts_witness :
  QJson.value (fromJson paddedPortText) "serverPort" = JString "1080"
  ∧ QJson.value (fromJson paddedPortText) "pacPort" = JString "01080"
  ∧ QString.toInt "1080" = Some 1080
  ∧ QString.toInt "01080" = Some 1080
  ∧ getAppConfigErrors (fromJson paddedPortText) = []
  ∧ ∃ stored,
      configurator (setAppConfig paddedPortText Links.fresh)
        = cfg_setAppConfig stored (configurator Links.fresh)
      ∧ stored !! "serverPort" = Some (JDouble 1080)
      ∧ stored !! "pacPort" = Some (JDouble 1080).
Proof.
  assert (Hserver : QJson.value (fromJson paddedPortText) "serverPort"
                    = JString "1080") by (vm_compute; reflexivity).
  assert (Hpac : QJson.value (fromJson paddedPortText) "pacPort"
                 = JString "01080") by (vm_compute; reflexivity).
  assert (Hvalid : getAppConfigErrors (fromJson paddedPortText) = [])
    by (vm_compute; reflexivity).
  split; [exact Hserver|]. split; [exact Hpac|].
  split; [reflexivity|]. split; [reflexivity|]. split; [exact Hvalid|].
  destruct (same_port_rule_compares_texts paddedPortText Links.fresh)
    as (_ & _ & Hstored).
  apply (Hstored 1080).
  - exists "1080". split; [vm_compute; reflexivity|reflexivity].
  - exists "01080". split; [vm_compute; reflexivity|reflexivity].
  - rewrite Hserver, Hpac. discriminate.
  - exact Hvalid.
Defined.

(** X7 at [Samples.vmessMuxOff], whose multiplexing is -1. *)
Lemma vmess_numeric_field_reported_once_witness :
  ("mux", "MUX", -1, 1024) ∈ vmessNumericFields
  ∧ withinBounds Samples.vmessMuxOff "mux" (-1) 1024
  ∧ naming "MUX" (getV2RayServerConfigErrors Samples.vmessMuxOff) = 0%nat.
Proof.
  assert (Hfield : ("mux", "MUX", -1, 1024) ∈ vmessNumericFields).
  { unfold vmessNumericFields. rewrite !elem_of_cons. auto. }
  assert (Hmux : withinBounds Samples.vmessMuxOff "mux" (-1) 1024).
  { exists (-1). split; [|lia]. exists "-1". split; reflexivity. }
  split; [exact Hfield|]. split; [exact Hmux|].
  exact (proj1 (vmess_numeric_field_reported_once
                  Samples.vmessMuxOff "mux" "MUX" (-1) 1024 Hfield) Hmux).
Defined.

(** X12 at the form of a server on mKCP, on a fresh object. *)
Lemma kcp_server_cannot_be_saved_witness :
  QJson.toString (QJson.value (fromJson kcpText) "network") = "kcp"
  ∧ configurator (addV2RayServer kcpText Links.fresh)
    = configurator Links.fresh
  ∧ configurator (editServer "kcp" "vmess" kcpText imported)
    = configurator imported.
Proof.
  assert (Hkcp : QJson.toString (QJson.value (fromJson kcpText) "network")
                 = "kcp") by (vm_compute; reflexivity).
  split; [exact Hkcp|].
  destruct (kcp_server_cannot_be_saved "kcp" kcpText Links.fresh Hkcp)
    as (Hadd & _ & _).
  destruct (kcp_server_cannot_be_saved "kcp" kcpText imported Hkcp)
    as (_ & Hedit & _).
  split; [by rewrite Hadd|by rewrite Hedit].
Defined.

(** X13 at the protocol trojan. *)
Lemma editServer_unknown_protocol_witness :
  ("trojan" ∉ ["vmess"; "shadowsocks"])
  ∧ editServer "Tokyo" "trojan" osakaText imported
    = emit (serverConfigError "Unknown Protocol: trojan") imported.
Proof.
  assert (Hout : "trojan" ∉ ["vmess"; "shadowsocks"]).
  { rewrite !not_elem_of_cons. split; [done|]. split; [done|].
    apply not_elem_of_nil. }
  split; [exact Hout|].
  exact (editServer_unknown_protocol "Tokyo" "trojan" osakaText imported Hout).
Defined.

(** X14 at the link Obfs, whose port is followed by a slash. *)
Lemma shadowsocks_link_decoded_witness :
  Links.obfs =
    shadowsocksLink "YWVzLTI1Ni1nY206c2VjcmV0" "198.51.100.8" "8388"
      ("/" +:+ "?plugin=obfs-local%3Bobfs%3Dhttp%3Bobfs-host%3Dwww.bing.com"
           +:+ "#" +:+ "Obfs")
  ∧ getShadowsocksServerFromUrl Links.obfs Links.subscription !! "serverAddr"
    = Some (JString "198.51.100.8")
  ∧ getShadowsocksServerFromUrl Links.obfs Links.subscription !! "serverPort"
    = Some (JDouble 8388)
  ∧ getShadowsocksServerFromUrl Links.obfs Links.subscription !! "serverName"
    = Some (JString "Obfs")
  ∧ getShadowsocksServerFromUrl Links.obfs Links.subscription !! "encryption"
    = Some (JString "aes-256-gcm")
  ∧ getShadowsocksServerFromUrl Links.obfs Links.subscription !! "password"
    = Some (JString "secret").
Proof.
  split; [reflexivity|].
  destruct (shadowsocks_link_decoded
    "YWVzLTI1Ni1nY206c2VjcmV0" "198.51.100.8" "8388"
    "?plugin=obfs-local%3Bobfs%3Dhttp%3Bobfs-host%3Dwww.bing.com" "Obfs"
    "aes-256-gcm" "secret" Links.subscription)
    as (Haddr & Hport & Hname & Hmethod & Hpassword & _).
  - apply freeOf_check. reflexivity.
  - apply freeOf_check. reflexivity.
  - apply freeOf_check. reflexivity.
  - apply freeOf_check. reflexivity.
  - vm_compute. reflexivity.
  - apply freeOf_check. reflexivity.
  - repeat split; assumption.
Defined.

(** X15 at the link Plain, whose port is followed by the tag. *)
Lemma shadowsocks_link_without_slash_witness :
  Links.plain =
    shadowsocksLink "YWVzLTI1Ni1nY206c2VjcmV0" "198.51.100.7" "8388"
      ("#" +:+ "Plain")
  ∧ getShadowsocksServerFromUrl Links.plain Links.subscription !! "serverPort"
    = Some (JDouble 0)
  ∧ getShadowsocksServerFromUrl Links.plain Links.subscription !! "serverAddr"
    = Some (JString "198.51.100.7")
  ∧ getShadowsocksServerFromUrl Links.plain Links.subscription !! "serverName"
    = Some (JString "Plain").
Proof.
  split; [reflexivity|].
  destruct (shadowsocks_link_without_slash
    "YWVzLTI1Ni1nY206c2VjcmV0" "198.51.100.7" "8388" "Plain"
    Links.subscription) as (Hport & Haddr & Hname).
  - apply freeOf_check. reflexivity.
  - apply freeOf_check. reflexivity.
  - apply freeOf_check. reflexivity.
  - repeat split; assumption.
Defined.

(** X18 on the generator of the reference platform, for 24 agents. *)
Lemma getRandomUserAgents_shape_witness :
  (∀ r : Z, 0 ≤ (Reference.rand r).1)
  ∧ List.length (getRandomUserAgents 24 (1 : Z)).1 = 24%nat
  ∧ Forall chromeUserAgent (getRandomUserAgents 24 (1 : Z)).1.
Proof.
  assert (Hrand : ∀ r : Z, 0 ≤ (Reference.rand r).1).
  { intros r. unfold Reference.rand. simpl.
    apply Z.mod_pos_bound. reflexivity. }
  split; [exact Hrand|].
  exact (getRandomUserAgents_shape (H := Reference.platform) Hrand 24 (1 : Z)).
Defined.

(** X22 at the page of an error, received for the subscription of the
    imported servers. *)
Lemma unreadable_subscription_removes_servers_witness :
  errorPage ≠ EmptyString
  ∧ (∀ server,
       server ∈ QString.split QRegularExpression.newline errorPage →
       skipped Links.subscription server = true)
  ∧ configurator (addSubscriptionServers errorPage Links.subscription imported)
    = (cfg_removeSubscriptionServers Links.subscription (configurator imported)).2
  ∧ cfg_getServers
      (configurator
         (addSubscriptionServers errorPage Links.subscription imported))
    = [].
Proof.
  assert (Hne : errorPage ≠ EmptyString) by discriminate.
  assert (Hall : ∀ server,
    server ∈ QString.split QRegularExpression.newline errorPage →
    skipped Links.subscription server = true).
  { intros server Hin.
    assert (Hlines : QString.split QRegularExpression.newline errorPage
                     = [errorPage]) by reflexivity.
    rewrite Hlines in Hin. apply list_elem_of_singleton in Hin. subst server.
    reflexivity. }
  split; [exact Hne|]. split; [exact Hall|].
  destruct (unreadable_subscription_removes_servers errorPage
              Links.subscription imported Hne Hall) as (Hstore & _).
  split; [exact Hstore|].
  rewrite Hstore. vm_compute. reflexivity.
Defined.

End MoreReferenceRuns.
